(** * rpa_learner: recorder, matchers, resolver, player and mode controller

    A shallow embedding of [rpa_learner.py].  Python integers are [Z],
    Python floats that the program only compares (fuzzy scores, OCR
    confidences) are rationals [Q], strings are [string] with one
    character per code point below 256, SQL tables are lists of rows in
    insertion order, and the global [STATE] dictionary is
    a record of its four mode flags.  What the operating system, the UI
    Automation provider, Tesseract and the other thread answer is an
    explicit argument of the function that asks. *)

From Stdlib Require Import ZArith QArith Bool List String Ascii Lia Lqa
  Permutation Sorted.
Import ListNotations.
Open Scope string_scope.
Open Scope Z_scope.
Open Scope list_scope.

(** ** Python values *)

(** Exceptions the modelled code can raise. *)
Inductive exn : Type :=
| IndexError
| TypeError.

(** A computation that returns or raises. *)
Inductive res (A : Type) : Type :=
| Ok (a : A)
| Raise (e : exn).
Arguments Ok {A} a.
Arguments Raise {A} e.

Definition bind {A B : Type} (m : res A) (k : A -> res B) : res B :=
  match m with
  | Ok a => k a
  | Raise e => Raise e
  end.

Notation "x <- m ;; k" := (bind m (fun x => k))
  (at level 61, m at next level, right associativity).

(** [lst[i]] *)
Definition index (lst : list Z) (i : nat) : res Z :=
  match nth_error lst i with
  | Some v => Ok v
  | None => Raise IndexError
  end.

(** Truthiness of a string (the empty string is falsy). *)
Definition truthy_str (s : string) : bool :=
  negb (String.eqb s "").

(** Truthiness of an optional list ([None] and [[]] are falsy). *)
Definition truthy_list {A : Type} (l : option (list A)) : bool :=
  match l with
  | Some (_ :: _) => true
  | _ => false
  end.

(** [int(n / 2)] for an integer [n]: true division by two, exact on the
    doubles below 2^53 (screen coordinates are far below), then truncation
    toward zero. *)
Definition int_half (n : Z) : Z := Z.quot n 2.

(** [int(b + w / 2)] for integers [b] and [w]. *)
Definition int_plus_half (b w : Z) : Z := Z.quot (2 * b + w) 2.

(** [str.lower].  A character is a code point below 256: the letters A
    to Z and the capital letters of Latin-1 (192 to 222, but for the
    multiplication sign 215) go to the code point 32 above; every other
    one is its own lower case. *)
Definition lower_ascii (c : ascii) : ascii :=
  let n := nat_of_ascii c in
  if (((65 <=? n)%nat && (n <=? 90)%nat)
      || ((192 <=? n)%nat && (n <=? 222)%nat && negb (n =? 215)%nat))%bool
  then ascii_of_nat (n + 32) else c.

Fixpoint lower (s : string) : string :=
  match s with
  | EmptyString => EmptyString
  | String c s' => String (lower_ascii c) (lower s')
  end.

(** [str.strip].  The white space of Python below code point 256: tab
    to carriage return (9 to 13), the four separators 28 to 31, the space,
    next line (133) and the no-break space (160). *)
Definition is_space (c : ascii) : bool :=
  let n := nat_of_ascii c in
  ((n =? 32)%nat || ((9 <=? n)%nat && (n <=? 13)%nat)
   || ((28 <=? n)%nat && (n <=? 31)%nat)
   || (n =? 133)%nat || (n =? 160)%nat)%bool.

Fixpoint lstrip (s : string) : string :=
  match s with
  | EmptyString => EmptyString
  | String c s' => if is_space c then lstrip s' else s
  end.

Fixpoint rstrip (s : string) : string :=
  match s with
  | EmptyString => EmptyString
  | String c s' =>
      match rstrip s' with
      | EmptyString => if is_space c then EmptyString else String c EmptyString
      | t => String c t
      end
  end.

Definition strip (s : string) : string := rstrip (lstrip s).

(** [a < b] on floats. *)
Definition Qltb (a b : Q) : bool := negb (Qle_bool b a).

(** ** Data model *)

(** The dictionary [uia_props] builds: the properties of a UI element at
    record time. *)
Record UiaProps : Type := {
  Name : string;
  ControlType : string;
  AutomationId : string;
  ClassName : string;
  BoundingRectangle : option (list Z);
  RuntimeId : option (list Z)
}.

(** A row of table [steps]. *)
Record StepRow : Type := {
  step_id : Z;
  session_id : Z;
  order_idx : Z;
  action_type : string;
  text : option string;
  x : option Z;
  y : option Z;
  bbox : option (list Z);
  uia : option UiaProps;
  snap_path : option string
}.

(** A row of table [sessions]. *)
Record SessionRow : Type := {
  sess_id : Z;
  ts : string;
  sess_name : option string
}.

(** The SQLite connection [conn]: both tables, rows in insertion order. *)
Record Db : Type := {
  sessions : list SessionRow;
  steps : list StepRow
}.

(** [AUTOINCREMENT]: the next row id is one more than the largest id
    ever used; the program never deletes a row. *)
Definition next_rowid (ids : list Z) : Z :=
  1 + fold_right Z.max 0 ids.

(** ** The live screen *)

(** An element of the live UI tree.  Reading [Name] or [ControlTypeName]
    may raise ([None]); [e.Name or ""] is the string, empty for a name
    that is [None] or empty.  [BoundingRectangle] is falsy ([None]) or a
    rectangle (left, top, right, bottom). *)
Record Control : Type := {
  c_Name : option string;
  c_ControlTypeName : option string;
  c_BoundingRectangle : option (Z * Z * Z * Z)
}.

(** [list(elem.BoundingRectangle)] *)
Definition rect_list (r : Z * Z * Z * Z) : list Z :=
  let '(l, t, r, b) := r in [l; t; r; b].

(** A cell of the [conf] column of [pytesseract.image_to_data]. *)
Inductive conf_cell : Type :=
| ConfNone
| ConfMinusOne
| ConfNum (q : Q).

(** Line [i] of the dictionary [image_to_data] returns. *)
Record OcrRow : Type := {
  o_text : string;
  o_conf : conf_cell;
  o_left : Z;
  o_top : Z;
  o_width : Z;
  o_height : Z
}.

(** An entry of the list [ocr_boxes] returns; [bbox] is the four-element
    list [[left, top, width, height]]. *)
Record OcrBox : Type := {
  b_text : string;
  b_conf : Q;
  b_bbox : Z * Z * Z * Z
}.

(** What the screen shows while one step is resolved: the sequence
    [uia.WalkControl(root)] yields until it ends or raises, and the table
    Tesseract reads off the capture ([None] when it raises). *)
Record Screen : Type := {
  walk : list Control;
  ocr_data : option (list OcrRow)
}.

(** ** Matchers *)

(** [control_type and ctype != control_type] *)
Definition type_rejected (control_type : option string) (ctype : string)
  : bool :=
  match control_type with
  | Some t => truthy_str t && negb (String.eqb ctype t)
  | None => false
  end.

Section Matchers.

(** [rapidfuzz.fuzz.partial_ratio]. *)
Variable partial_ratio : string -> string -> Q.

Section Visit.
Variable target_text : string.
Variable control_type : option string.

(** The closure [visit] of [uia_find_best], on the pair
    [(best, best_score)]. *)
Definition visit (acc : option Control * Q) (e : Control)
  : option Control * Q :=
  match c_Name e, c_ControlTypeName e with
  | Some name, Some ctype =>
      if type_rejected control_type ctype then acc
      else
        let score :=
          if truthy_str target_text
          then partial_ratio (lower target_text) (lower name)
          else -1 # 1 in
        if Qltb (snd acc) score then (Some e, score) else acc
  | _, _ => acc
  end.
End Visit.

Definition uia_find_best (elems : list Control) (target_text : string)
    (control_type : option string) : option Control * Q :=
  fold_left (visit target_text control_type) elems (None, -1 # 1).

(** [float(data['conf'][i]) if data['conf'][i] not in (None, '-1')
    else 0.0] *)
Definition conf_value (c : conf_cell) : Q :=
  match c with
  | ConfNum q => q
  | ConfNone | ConfMinusOne => 0
  end.

Definition ocr_boxes (data : option (list OcrRow)) : list OcrBox :=
  match data with
  | None => []
  | Some rows =>
      flat_map
        (fun r =>
           if negb (truthy_str (o_text r)) then []
           else
             let conf := conf_value (o_conf r) in
             if Qltb conf 40 then []
             else [{| b_text := o_text r;
                      b_conf := conf;
                      b_bbox := (o_left r, o_top r, o_width r, o_height r) |}])
        rows
  end.

Definition ocr_pick (target_text : string) (acc : option OcrBox * Q)
    (b : OcrBox) : option OcrBox * Q :=
  let score := partial_ratio (lower target_text) (lower (b_text b)) in
  if Qltb (snd acc) score then (Some b, score) else acc.

Definition ocr_find_best (data : option (list OcrRow)) (target_text : string)
  : option OcrBox * Q :=
  fold_left (ocr_pick target_text) (ocr_boxes data) (None, -1 # 1).

End Matchers.

(** ** Runner *)

Definition center_of_bbox (bbox : option (list Z)) : res (option (Z * Z)) :=
  match bbox with
  | None | Some [] => Ok None
  | Some bbox =>
      ltrb <- (if (List.length bbox =? 4)%nat then Ok bbox
               else
                 b0 <- index bbox 0 ;;
                 b1 <- index bbox 1 ;;
                 b2 <- index bbox 2 ;;
                 b3 <- index bbox 3 ;;
                 Ok [b0; b1; b0 + b2; b1 + b3]) ;;
      match ltrb with
      | [L; T; R; B] => Ok (Some (int_half (L + R), int_half (T + B)))
      | _ => Raise TypeError
      end
  end.

(** What the player does for one step it visits: the line it prints and
    the input it injects. *)
Inductive Effect : Type :=
| UiaClick (target_name : string) (score : Q) (cx cy : Z)
| OcrClick (target_name : string) (oscore : Q) (cx cy : Z)
| FallbackClick (x y : Z)
| Unresolved (order_idx : Z)
| TypeText (txt : string)
| UnknownAction (action_type : string).

(** The global [STATE] as one read finds it. *)
Record Flags : Type := {
  training : bool;
  running : bool;
  paused : bool;
  stopping : bool
}.

(** How a call of [run_session] stands when the observed reads of [STATE]
    end: returned after the last step, returned on the stop flag,
    returned at once on an empty session, left by an exception, or still
    inside the loop. *)
Inductive Outcome : Type :=
| Finished
| Stopped
| NothingToRun
| Crashed (e : exn)
| Pending.

Section Runner.

Variable partial_ratio : string -> string -> Q.

(** Tiers 3 and 4 of the click branch: the recorded coordinates, or the
    warning. *)
Definition recorded_click (s : StepRow) : Effect :=
  match x s, y s with
  | Some x, Some y => FallbackClick x y
  | _, _ => Unresolved (order_idx s)
  end.

(** Tier 2 onwards: OCR on a fresh capture, then tiers 3 and 4. *)
Definition ocr_click (scr : Screen) (target_name : string) (s : StepRow)
  : Effect :=
  if truthy_str target_name then
    match ocr_find_best partial_ratio (ocr_data scr) target_name with
    | (Some box, oscore) =>
        let '(bx, by_, bw, bh) := b_bbox box in
        OcrClick target_name oscore (int_plus_half bx bw) (int_plus_half by_ bh)
    | (None, _) => recorded_click s
    end
  else recorded_click s.

(** [(uinfo or {}).get('Name') if uinfo else None]; the absent name is
    the empty string here, both are falsy and read only when truthy. *)
Definition target_name_of (s : StepRow) : string :=
  match uia s with
  | Some u => Name u
  | None => ""
  end.

(** The [click] branch of the loop body of [run_session]. *)
Definition resolve_click (scr : Screen) (s : StepRow) : res Effect :=
  let target_name := target_name_of s in
  let '(elem, score) :=
    if truthy_str target_name
    then uia_find_best partial_ratio (walk scr) target_name None
    else (None, -1 # 1) in
  match elem with
  | Some e =>
      match c_BoundingRectangle e with
      | Some rect =>
          c <- center_of_bbox (Some (rect_list rect)) ;;
          match c with
          | Some (cx, cy) =>
              if (negb (cx =? 0)%Z && negb (cy =? 0)%Z)%bool
              then Ok (UiaClick target_name score cx cy)
              else Ok (ocr_click scr target_name s)
          | None => Raise TypeError
          end
      | None => Ok (ocr_click scr target_name s)
      end
  | None => Ok (ocr_click scr target_name s)
  end.

(** The loop body of [run_session] after the stop and pause checks. *)
Definition exec_step (scr : Screen) (s : StepRow) : res Effect :=
  if String.eqb (action_type s) "click" then resolve_click scr s
  else if String.eqb (action_type s) "type" then
    Ok (TypeText (match text s with Some t => t | None => "" end))
  else Ok (UnknownAction (action_type s)).

(** [while STATE['paused']: time.sleep(0.2)]: every turn reads [STATE]
    once; the result is what is left of the reads once the loop is
    over, [None] while it is still turning when they end. *)
Fixpoint wait_unpaused (reads : list Flags) : option (list Flags) :=
  match reads with
  | [] => None
  | f :: rest => if paused f then wait_unpaused rest else Some rest
  end.

(** The [for] loop of [run_session] over the fetched rows.  [screens i]
    is the screen while the row at position [i] is resolved; [reads]
    are the successive states of [STATE] the loop reads. *)
Fixpoint play (screens : nat -> Screen) (pos : nat) (rows : list StepRow)
    (reads : list Flags) : list (StepRow * Effect) * Outcome :=
  match rows with
  | [] => ([], Finished)
  | s :: rows' =>
      match reads with
      | [] => ([], Pending)
      | f :: reads1 =>
          if stopping f then ([], Stopped)
          else
            match wait_unpaused reads1 with
            | None => ([], Pending)
            | Some reads2 =>
                match exec_step (screens pos) s with
                | Raise e => ([], Crashed e)
                | Ok eff =>
                    let '(log, out) := play screens (S pos) rows' reads2 in
                    ((s, eff) :: log, out)
                end
            end
      end
  end.

End Runner.

(** [ORDER BY order_idx ASC], by insertion. *)
Fixpoint insert_row (s : StepRow) (l : list StepRow) : list StepRow :=
  match l with
  | [] => [s]
  | r :: l' =>
      if (order_idx s <=? order_idx r)%Z then s :: l else r :: insert_row s l'
  end.

Definition order_by_order_idx (l : list StepRow) : list StepRow :=
  fold_right insert_row [] l.

(** [WHERE session_id=?] *)
Definition steps_of (sid : Z) (db : Db) : list StepRow :=
  filter (fun s => (session_id s =? sid)%Z) (steps db).

(** The [SELECT] of [run_session]. *)
Definition select_steps (db : Db) (sid : Z) : list StepRow :=
  order_by_order_idx (steps_of sid db).

Definition run_session (partial_ratio : string -> string -> Q) (db : Db)
    (sid : Z) (screens : nat -> Screen) (reads : list Flags)
  : list (StepRow * Effect) * Outcome :=
  match select_steps db sid with
  | [] => ([], NothingToRun)
  | rows => play partial_ratio screens 0 rows reads
  end.

(** The rows a run has gone through. *)
Definition visited (r : list (StepRow * Effect) * Outcome) : list StepRow :=
  map fst (fst r).

(** ** Recorder and hotkey handlers *)

(** The lines the handlers print, one constructor per [print]. *)
Inductive Msg : Type :=
| TrainStartedSession (sid : Z)          (* [TRAIN] Started session #sid *)
| TrainEndedSession (sid : option Z)     (* [TRAIN] Ended session #sid *)
| TrainStep (idx : Z) (action : string)  (* [TRAIN] step idx: action ... *)
| HotkeyTrainPressed                     (* [HOTKEY] Ctrl+Alt+T pressed ... *)
| TrainModeStopped                       (* [HOTKEY] TRAIN mode stopped *)
| CannotTrainWhileRunning                (* [HOTKEY] Cannot start TRAIN while RUNNING. *)
| TrainModeStarted                       (* [HOTKEY] TRAIN mode started *)
| HotkeyRunPressed                       (* [HOTKEY] Ctrl+Alt+R pressed ... *)
| StopTrainFirst                         (* [HOTKEY] Stop TRAIN first. *)
| AlreadyRunning                         (* [HOTKEY] Already running... *)
| NoSessionsToRun                        (* [RUN] No sessions to run. *)
| RunStarting (sid : Z)                  (* [RUN] Starting session #sid *)
| RunFinished                            (* [RUN] Finished. *)
| HotkeyPausePressed                     (* [HOTKEY] Ctrl+Alt+P pressed ... *)
| StateIs (flags : string)               (* [STATE] flags *)
| HotkeyStopPressed                      (* [HOTKEY] Ctrl+Alt+S pressed ... *)
| StoppingTrue                           (* [STATE] stopping=true *)
| Exiting.                               (* [MAIN] Exiting program... *)

(** The fields of a [Recorder] object the handlers use. *)
Record Recorder : Type := {
  rec_session_id : option Z;
  rec_order_idx : Z;
  buffer_typed : list ascii
}.

(** The process: [STATE], the global [recorder], the connection [conn],
    standard output, and the session ids of the runner threads started. *)
Record System : Type := {
  STATE : Flags;
  recorder : Recorder;
  conn : Db;
  console : list Msg;
  threads : list Z
}.

Definition print (m : Msg) (w : System) : System :=
  {| STATE := STATE w; recorder := recorder w; conn := conn w;
     console := console w ++ [m]; threads := threads w |}.

Definition set_STATE (f : Flags) (w : System) : System :=
  {| STATE := f; recorder := recorder w; conn := conn w;
     console := console w; threads := threads w |}.

Definition set_recorder (r : Recorder) (w : System) : System :=
  {| STATE := STATE w; recorder := r; conn := conn w;
     console := console w; threads := threads w |}.

Definition set_conn (d : Db) (w : System) : System :=
  {| STATE := STATE w; recorder := recorder w; conn := d;
     console := console w; threads := threads w |}.

Definition set_training (b : bool) (f : Flags) : Flags :=
  {| training := b; running := running f; paused := paused f;
     stopping := stopping f |}.

Definition set_running (b : bool) (f : Flags) : Flags :=
  {| training := training f; running := b; paused := paused f;
     stopping := stopping f |}.

Definition set_paused (b : bool) (f : Flags) : Flags :=
  {| training := training f; running := running f; paused := b;
     stopping := stopping f |}.

Definition set_stopping (b : bool) (f : Flags) : Flags :=
  {| training := training f; running := running f; paused := paused f;
     stopping := b |}.

(** [Recorder.start_session]; [now] is what [now_str()] returns. *)
Definition start_session (now : string) (w : System) : System :=
  let sid := next_rowid (map sess_id (sessions (conn w))) in
  let w := set_conn
             {| sessions := sessions (conn w)
                            ++ [{| sess_id := sid; ts := now;
                                   sess_name := None |}];
                steps := steps (conn w) |} w in
  let w := set_recorder
             {| rec_session_id := Some sid; rec_order_idx := 0;
                buffer_typed := buffer_typed (recorder w) |} w in
  print (TrainStartedSession sid) w.

(** [Recorder.end_session] *)
Definition end_session (w : System) : System :=
  let w := print (TrainEndedSession (rec_session_id (recorder w))) w in
  set_recorder
    {| rec_session_id := None; rec_order_idx := 0;
       buffer_typed := buffer_typed (recorder w) |} w.

(** [Recorder.record_step] *)
Definition record_step (action_type : string) (text : option string)
    (x y : option Z) (uia_info : option UiaProps) (bbox : option (list Z))
    (snap_path : option string) (w : System) : System :=
  match rec_session_id (recorder w) with
  | None => w
  | Some sid =>
      let idx := rec_order_idx (recorder w) in
      let row :=
        {| step_id := next_rowid (map step_id (steps (conn w)));
           session_id := sid;
           order_idx := idx;
           action_type := action_type;
           text := text;
           x := x; y := y;
           bbox := if truthy_list bbox then bbox else None;
           uia := uia_info;
           snap_path := snap_path |} in
      let w := set_conn
                 {| sessions := sessions (conn w);
                    steps := steps (conn w) ++ [row] |} w in
      let w := print (TrainStep idx action_type) w in
      set_recorder
        {| rec_session_id := rec_session_id (recorder w);
           rec_order_idx := idx + 1;
           buffer_typed := buffer_typed (recorder w) |} w
  end.

(** [Recorder.on_click].  [pressed] is pynput's flag: true when the
    button goes down, false when it comes up.  [snap] is the path
    [save_snap] returns and [props] is [uia_props(uia_at(x, y))]. *)
Definition on_click (x y : Z) (pressed : bool) (snap : string)
    (props : option UiaProps) (w : System) : System :=
  if negb (training (STATE w)) then w
  else if negb pressed then w
  else
    let bbox := match props with
                | Some p => BoundingRectangle p
                | None => None
                end in
    record_step "click" None (Some x) (Some y) props bbox (Some snap) w.

(** A key as pynput reports it. *)
Inductive Key : Type :=
| KeyCode (char : option ascii)
| KeyEnter
| KeySpace
| KeyTab
| KeyOther.

Definition append_typed (c : ascii) (w : System) : System :=
  set_recorder
    {| rec_session_id := rec_session_id (recorder w);
       rec_order_idx := rec_order_idx (recorder w);
       buffer_typed := buffer_typed (recorder w) ++ [c] |} w.

(** [Recorder.on_press] *)
Definition on_press (key : Key) (w : System) : System :=
  if negb (training (STATE w)) then w
  else
    match key with
    | KeyCode (Some c) => append_typed c w
    | KeyEnter => append_typed "010"%char w
    | KeySpace => append_typed " "%char w
    | _ => w
    end.

(** [Recorder.on_release] *)
Definition on_release (key : Key) (snap : string) (w : System) : System :=
  if negb (training (STATE w)) then w
  else
    match key with
    | KeyEnter | KeyTab =>
        let text := strip (string_of_list_ascii (buffer_typed (recorder w))) in
        let w := set_recorder
                   {| rec_session_id := rec_session_id (recorder w);
                      rec_order_idx := rec_order_idx (recorder w);
                      buffer_typed := [] |} w in
        if truthy_str text
        then record_step "type" (Some text) None None None None (Some snap) w
        else w
    | _ => w
    end.

(** [describe_state] *)
Definition describe_state (f : Flags) : string :=
  let flags : list string :=
    ((if training f then ["training"] else [])
     ++ (if running f then ["running"] else [])
     ++ (if paused f then ["paused"] else []))%list in
  String.concat "+" (match flags with [] => ["idle"] | _ => flags end).

(** [toggle_train] *)
Definition toggle_train (now : string) (w : System) : System :=
  let w := print HotkeyTrainPressed w in
  if training (STATE w) then
    let w := set_STATE (set_training false (STATE w)) w in
    let w := end_session w in
    print TrainModeStopped w
  else if running (STATE w) then print CannotTrainWhileRunning w
  else
    let w := set_STATE (set_training true (STATE w)) w in
    let w := start_session now w in
    print TrainModeStarted w.

(** [SELECT id FROM sessions ORDER BY id DESC LIMIT 1] *)
Definition latest_session (db : Db) : option Z :=
  match sessions db with
  | [] => None
  | r :: l => Some (fold_right Z.max (sess_id r) (map sess_id l))
  end.

(** [do_run]; starting the thread adds its session to [threads]. *)
Definition do_run (w : System) : System :=
  let w := print HotkeyRunPressed w in
  if training (STATE w) then print StopTrainFirst w
  else if running (STATE w) then print AlreadyRunning w
  else
    match latest_session (conn w) with
    | None => print NoSessionsToRun w
    | Some sid =>
        {| STATE := STATE w; recorder := recorder w; conn := conn w;
           console := console w; threads := threads w ++ [sid] |}
    end.

(** The two ends of [_runner] around its call of [run_session]. *)
Definition runner_begin (sid : Z) (w : System) : System :=
  print (RunStarting sid) (set_STATE (set_running true (STATE w)) w).

Definition runner_end (w : System) : System :=
  print RunFinished (set_STATE (set_running false (STATE w)) w).

(** [toggle_pause] *)
Definition toggle_pause (w : System) : System :=
  let w := print HotkeyPausePressed w in
  let w := set_STATE (set_paused (negb (paused (STATE w))) (STATE w)) w in
  print (StateIs (describe_state (STATE w))) w.

(** [do_stop], up to its [sys.exit(0)]. *)
Definition do_stop (w : System) : System :=
  let w := print HotkeyStopPressed w in
  let w := set_STATE (set_stopping true (STATE w)) w in
  print Exiting (print StoppingTrue w).

(** What happens to the process, each with what the outside answers. *)
Inductive Event : Type :=
| HotkeyTrain (now : string)
| HotkeyRun
| HotkeyPause
| HotkeyStop
| MouseClick (x y : Z) (pressed : bool) (snap : string)
    (props : option UiaProps)
| KeyPress (key : Key)
| KeyRelease (key : Key) (snap : string)
| RunnerBegin (sid : Z)
| RunnerEnd
| Restart.

Definition idle : Flags :=
  {| training := false; running := false; paused := false;
     stopping := false |}.

Definition new_recorder : Recorder :=
  {| rec_session_id := None; rec_order_idx := 0; buffer_typed := [] |}.

(** The process at start, on the database [db] found on disk. *)
Definition boot (db : Db) : System :=
  {| STATE := idle; recorder := new_recorder; conn := db;
     console := []; threads := [] |}.

Definition empty_db : Db := {| sessions := []; steps := [] |}.

Definition handle (w : System) (ev : Event) : System :=
  match ev with
  | HotkeyTrain now => toggle_train now w
  | HotkeyRun => do_run w
  | HotkeyPause => toggle_pause w
  | HotkeyStop => do_stop w
  | MouseClick x y pressed snap props => on_click x y pressed snap props w
  | KeyPress key => on_press key w
  | KeyRelease key snap => on_release key snap w
  | RunnerBegin sid => runner_begin sid w
  | RunnerEnd => runner_end w
  | Restart => boot (conn w)
  end.

(** The process after a history of events, from a first start on an
    empty database. *)
Definition after (evs : list Event) : System :=
  fold_left handle evs (boot empty_db).

(** ** Instances for the examples *)

(** A scorer within the range of [partial_ratio], for closed examples:
    100 on equal strings and 0 on different ones. *)
Definition exact_ratio (a b : string) : Q :=
  if String.eqb a b then 100 else 0.

(** The centre the specification asks for when the rectangle is
    (left, top, width, height): the midpoint of [left, left + width] and of
    [top, top + height], truncated toward zero. *)
Definition spec_center_ltwh (l t w h : Z) : Z * Z :=
  (Z.quot (l + (l + w)) 2, Z.quot (t + (t + h)) 2).

(** The same for (left, top, right, bottom). *)
Definition spec_center_ltrb (l t r b : Z) : Z * Z :=
  (Z.quot (l + r) 2, Z.quot (t + b) 2).

(** The score [visit] computes for element [e]: none when reading a
    property raises or the type filter rejects the element. *)
Definition scored (partial_ratio : string -> string -> Q)
    (target_text : string) (control_type : option string) (e : Control)
  : option Q :=
  match c_Name e, c_ControlTypeName e with
  | Some name, Some ctype =>
      if type_rejected control_type ctype then None
      else Some (if truthy_str target_text
                 then partial_ratio (lower target_text) (lower name)
                 else -1 # 1)
  | _, _ => None
  end.

(** The OCR line of the scenario: text Submit, confidence 85, box
    [100, 200, 80, 30]. *)
Definition submit_row : OcrRow :=
  {| o_text := "Submit"; o_conf := ConfNum 85;
     o_left := 100; o_top := 200; o_width := 80; o_height := 30 |}.

Definition submit_props : UiaProps :=
  {| Name := "Submit"; ControlType := "Button"; AutomationId := "";
     ClassName := ""; BoundingRectangle := Some [60; 190; 140; 220];
     RuntimeId := None |}.

(** A click step recorded on the Submit button of session 1. *)
Definition submit_step : StepRow :=
  {| step_id := 1; session_id := 1; order_idx := 0; action_type := "click";
     text := None; x := Some 100; y := Some 205;
     bbox := Some [60; 190; 140; 220]; uia := Some submit_props;
     snap_path := Some "data/snaps/click_0.jpg" |}.

(** Zero-based and dense: the list is 0, 1, ..., n - 1. *)
Definition dense_from_zero (l : list Z) : Prop :=
  l = map Z.of_nat (seq 0 (List.length l)).

(** What ties the recorder to the database: every step belongs to a
    session of table [sessions]; the steps of each session, in insertion
    order, are numbered 0, 1, 2, ...; and while a session is open the
    counter of the recorder is the number of steps that session has. *)
Definition recorder_inv (w : System) : Prop :=
  (forall s, In s (steps (conn w)) ->
             In (session_id s) (map sess_id (sessions (conn w))))
  /\ (forall sid, dense_from_zero (map order_idx (steps_of sid (conn w))))
  /\ (forall sid, rec_session_id (recorder w) = Some sid ->
                  In sid (map sess_id (sessions (conn w)))
                  /\ rec_order_idx (recorder w)
                     = Z.of_nat (List.length (steps_of sid (conn w)))).

(** A process in training with session 1 open and nothing recorded. *)
Definition training_system : System :=
  {| STATE := set_training true idle;
     recorder := {| rec_session_id := Some 1; rec_order_idx := 0;
                    buffer_typed := [] |};
     conn := {| sessions := [{| sess_id := 1; ts := "t0";
                                sess_name := None |}];
                steps := [] |};
     console := [];
     threads := [] |}.

(** A process replaying session 1. *)
Definition running_system : System :=
  {| STATE := set_running true idle;
     recorder := new_recorder;
     conn := {| sessions := [{| sess_id := 1; ts := "t0";
                                sess_name := None |}];
                steps := [submit_step] |};
     console := [];
     threads := [1] |}.

(** The reads of one turn of the loop that gets to its step: the stop
    check finds the flag clear, then the pause loop finds the pause flag
    set some number of times (possibly none) and then clear. *)
Inductive turn : list Flags -> Prop :=
| turn_reads (f0 : Flags) (ps : list Flags) (f1 : Flags) :
    stopping f0 = false ->
    Forall (fun f => paused f = true) ps ->
    paused f1 = false ->
    turn (f0 :: ps ++ [f1]).

(** [STATE] during a run: nothing else set; paused; paused and told to
    stop; told to stop. *)
Definition st_running : Flags := set_running true idle.
Definition st_paused : Flags := set_paused true st_running.
Definition st_paused_stopping : Flags := set_stopping true st_paused.
Definition st_stopping : Flags := set_stopping true st_running.

(** A type step of session 1. *)
Definition hello_step : StepRow :=
  {| step_id := 2; session_id := 1; order_idx := 1; action_type := "type";
     text := Some "hello"; x := None; y := None; bbox := None; uia := None;
     snap_path := Some "data/snaps/type_1.jpg" |}.

(** A click step of session 1 with nothing but its coordinates. *)
Definition bare_click_step : StepRow :=
  {| step_id := 3; session_id := 1; order_idx := 2; action_type := "click";
     text := None; x := Some 7; y := Some 9; bbox := None; uia := None;
     snap_path := None |}.

(** A step of another session. *)
Definition other_step : StepRow :=
  {| step_id := 4; session_id := 2; order_idx := 0; action_type := "type";
     text := Some "x"; x := None; y := None; bbox := None; uia := None;
     snap_path := None |}.

(** A database whose rows of session 1 are stored out of order. *)
Definition shuffled_db : Db :=
  {| sessions := [{| sess_id := 1; ts := "t0"; sess_name := None |};
                  {| sess_id := 2; ts := "t1"; sess_name := None |}];
     steps := [bare_click_step; other_step; submit_step; hello_step] |}.

(** A screen with no element and no text. *)
Definition blank_screen : Screen := {| walk := []; ocr_data := Some [] |}.

(** Live elements: a Cancel button, an element whose name cannot be
    read, two Submit buttons, and a Submit button whose rectangle is
    centred on the left edge of the screen. *)
Definition cancel_button : Control :=
  {| c_Name := Some "Cancel"; c_ControlTypeName := Some "ButtonControl";
     c_BoundingRectangle := Some (10, 10, 90, 40) |}.

Definition unreadable_element : Control :=
  {| c_Name := None; c_ControlTypeName := Some "PaneControl";
     c_BoundingRectangle := None |}.

Definition submit_button_left : Control :=
  {| c_Name := Some "Submit"; c_ControlTypeName := Some "ButtonControl";
     c_BoundingRectangle := Some (100, 200, 180, 230) |}.

Definition submit_button_right : Control :=
  {| c_Name := Some "SUBMIT"; c_ControlTypeName := Some "ButtonControl";
     c_BoundingRectangle := Some (300, 200, 380, 230) |}.

Definition submit_button_edge : Control :=
  {| c_Name := Some "Submit"; c_ControlTypeName := Some "ButtonControl";
     c_BoundingRectangle := Some (-40, 10, 40, 50) |}.

Definition demo_walk : list Control :=
  [cancel_button; unreadable_element; submit_button_left;
   submit_button_right].

(** The box [ocr_boxes] makes of [submit_row]. *)
Definition submit_box : OcrBox :=
  {| b_text := "Submit"; b_conf := 85; b_bbox := (100, 200, 80, 30) |}.

(** OCR lines below the confidence floor. *)
Definition noise_rows : list OcrRow :=
  [{| o_text := "Subrnit"; o_conf := ConfNum (39 # 1);
      o_left := 100; o_top := 200; o_width := 80; o_height := 30 |};
   {| o_text := "Submit"; o_conf := ConfMinusOne;
      o_left := 5; o_top := 5; o_width := 8; o_height := 3 |}].

(** The reads of two turns: one that meets no pause, one that polls
    twice before the pause is cleared. *)
Definition quick_turn : list Flags := [st_running; st_running].
Definition paused_turn : list Flags :=
  [st_running; st_paused; st_paused; st_running].


(** 2^52: for two integers of at most this size the sum is below 2^53,
    so that the true division by two of [center_of_bbox] is exact in
    double precision and [int_half] is what the code computes. *)
Definition exact_float_limit : Z := 4503599627370496.

(** ** Further definitions *)

(** The score [ocr_find_best] gives box [b]. *)
Definition ocr_score (partial_ratio : string -> string -> Q)
    (target_text : string) (b : OcrBox) : Q :=
  partial_ratio (lower target_text) (lower (b_text b)).

(** The list is 1, 2, ..., n: the ids [AUTOINCREMENT] gives a table that
    starts empty. *)
Definition ids_from_one (l : list Z) : Prop :=
  l = map Z.of_nat (seq 1 (List.length l)).

(** What ties the mode flags to the recorder and the tables after a
    history: the training flag is set exactly while the recorder has a
    session open, the open session is the last row of [sessions], and
    both tables carry the ids 1, 2, 3, ... *)
Definition controller_inv (w : System) : Prop :=
  (training (STATE w) = true <-> rec_session_id (recorder w) <> None)
  /\ ids_from_one (map sess_id (sessions (conn w)))
  /\ ids_from_one (map step_id (steps (conn w)))
  /\ (forall sid, rec_session_id (recorder w) = Some sid ->
                  sid = Z.of_nat (List.length (sessions (conn w)))).

(** The shape of a row the recorder writes: a click with its position and
    no text, or a typed text that is stripped and not empty, with no
    position, no descriptor and no rectangle. *)
Definition recorded_ok (s : StepRow) : Prop :=
  (action_type s = "click" /\ text s = None
   /\ (exists px py, x s = Some px /\ y s = Some py)
   /\ bbox s <> Some []
   /\ (exists snap, snap_path s = Some snap))
  \/ (action_type s = "type"
      /\ (exists t, text s = Some t /\ t <> "" /\ strip t = t)
      /\ x s = None /\ y s = None /\ bbox s = None /\ uia s = None
      /\ (exists snap, snap_path s = Some snap)).

(** The characters [on_press] buffers for a sequence of keys. *)
Definition typed_chars (keys : list Key) : list ascii :=
  flat_map (fun key =>
              match key with
              | KeyCode (Some c) => [c]
              | KeyEnter => ["010"%char]
              | KeySpace => [" "%char]
              | _ => []
              end) keys.

(** An effect that injects input: a click or typed text. *)
Definition injects (eff : Effect) : bool :=
  match eff with
  | Unresolved _ | UnknownAction _ => false
  | _ => true
  end.

(** * event_recorder: the activity tracker

    A shallow embedding of [event_recorder.py].  Time stamps are
    rationals, a session id [session_<t>] is the integer [t], the files
    under [recorded_data/] are a function from the session id in their
    name to their content, and what the clock, pynput and the file system
    answer is an argument of the handler that asks. *)

Module EventRecorder.

Inductive EventType : Type :=
| MOUSE_MOVE
| MOUSE_CLICK
| MOUSE_SCROLL
| KEY_PRESS
| KEY_RELEASE.

(** The fields an event class adds to [BaseEvent]. *)
Inductive Payload : Type :=
| MoveAt (x y : Z)
| ClickAt (x y : Z) (button : string) (action : string)
| ScrollAt (x y dx dy : Z) (direction : string)
| KeyOf (key : option string) (action : string).

(** An event object, and the dictionary [to_dict] makes of it. *)
Record Recorded : Type := {
  timestamp : Q;
  session_id : option Z;
  event_type : EventType;
  payload : Payload
}.

(** [int(time.time())] *)
Definition int_of_float (q : Q) : Z := Z.quot (Qnum q) (Z.pos (Qden q)).

(** [prefix] at the start of [s]: what follows it. *)
Fixpoint drop_prefix (prefix s : string) : option string :=
  match prefix, s with
  | EmptyString, _ => Some s
  | String a p, String b t =>
      if Ascii.eqb a b then drop_prefix p t else None
  | String _ _, EmptyString => None
  end.

(** [s.replace(old, '')] for a non-empty [old], scanning from the left;
    [fuel] bounds the number of steps and [String.length s] is enough. *)
Fixpoint remove_all (fuel : nat) (old s : string) : string :=
  match fuel with
  | O => s
  | S n =>
      match s with
      | EmptyString => EmptyString
      | String c t =>
          match drop_prefix old s with
          | Some rest => remove_all n old rest
          | None => String c (remove_all n old t)
          end
      end
  end.

(** A key as pynput reports it: a [KeyCode] with its [char], or a member
    of [Key] with what [str] prints for it. *)
Inductive KeyInput : Type :=
| CharKey (char : option string)
| SpecialKey (printed : string).

(** The [key] field [KeyEvent.__init__] computes. *)
Definition key_field (key : KeyInput) : option string :=
  match key with
  | CharKey c => c
  | SpecialKey printed =>
      Some (remove_all (String.length printed) "Key." printed)
  end.

(** The dictionary [session_metadata]. *)
Record Metadata : Type := {
  m_session_id : Z;
  m_start_time : Z;
  m_start_time_readable : string;
  m_end : option (Z * string)
}.

(** A file [<session_id>.json]: not there, there with a list of events,
    or there with content [json.load] or [extend] cannot use. *)
Inductive FileState : Type :=
| Absent
| Json (events : list Recorded)
| Corrupt.

(** How the file system behaves during one [flush_to_file]: no error, an
    error that leaves the file as it was (the directory cannot be made,
    the file cannot be opened), or an error while the file is written,
    which leaves it unusable. *)
Inductive Io : Type :=
| IoOk
| IoFailEarly
| IoFailWrite.

(** The lines printed. *)
Inductive Out : Type :=
| Saving (e : Recorded)
| Flushing (n : nat)
| SavedTo (sid : option Z)
| ErrorSavingEvents
| SessionStarted (sid : Z)
| NoActiveSession
| ErrorSavingMetadata
| SessionEnded (sid : Z)
| TrainingStarted
| TrainingStopped
| VerboseModeOff
| VerboseModeOn.

(** [app_state], [recorder] and the files. *)
Record State : Type := {
  training : bool;
  stop : bool;
  verbose : bool;
  events_buffer : list Recorded;
  session : option Z;
  session_metadata : option Metadata;
  last_mouse_move_time : Q;
  files : option Z -> FileState;
  metadata_files : Z -> option Metadata;
  output : list Out
}.

Definition print (m : Out) (w : State) : State :=
  {| training := training w; stop := stop w; verbose := verbose w;
     events_buffer := events_buffer w; session := session w;
     session_metadata := session_metadata w;
     last_mouse_move_time := last_mouse_move_time w;
     files := files w; metadata_files := metadata_files w;
     output := output w ++ [m] |}.

Definition set_buffer (b : list Recorded) (w : State) : State :=
  {| training := training w; stop := stop w; verbose := verbose w;
     events_buffer := b; session := session w;
     session_metadata := session_metadata w;
     last_mouse_move_time := last_mouse_move_time w;
     files := files w; metadata_files := metadata_files w;
     output := output w |}.

Definition set_file (name : option Z) (content : FileState) (w : State)
  : State :=
  {| training := training w; stop := stop w; verbose := verbose w;
     events_buffer := events_buffer w; session := session w;
     session_metadata := session_metadata w;
     last_mouse_move_time := last_mouse_move_time w;
     files := fun n => if match n, name with
                          | Some a, Some b => a =? b
                          | None, None => true
                          | _, _ => false
                          end
                       then content else files w n;
     metadata_files := metadata_files w;
     output := output w |}.

Definition set_training (b : bool) (w : State) : State :=
  {| training := b; stop := stop w; verbose := verbose w;
     events_buffer := events_buffer w; session := session w;
     session_metadata := session_metadata w;
     last_mouse_move_time := last_mouse_move_time w;
     files := files w; metadata_files := metadata_files w;
     output := output w |}.

Definition set_verbose (b : bool) (w : State) : State :=
  {| training := training w; stop := stop w; verbose := b;
     events_buffer := events_buffer w; session := session w;
     session_metadata := session_metadata w;
     last_mouse_move_time := last_mouse_move_time w;
     files := files w; metadata_files := metadata_files w;
     output := output w |}.

(** [EventRecorder.flush_to_file] *)
Definition flush_to_file (io : Io) (w : State) : State :=
  match events_buffer w with
  | [] => w
  | buf =>
      let w := print (Flushing (List.length buf)) w in
      let name := session w in
      let w :=
        match io, files w name with
        | IoFailEarly, _ => print ErrorSavingEvents w
        | _, Corrupt => print ErrorSavingEvents w
        | IoFailWrite, _ => print ErrorSavingEvents (set_file name Corrupt w)
        | IoOk, Absent => print (SavedTo name) (set_file name (Json buf) w)
        | IoOk, Json existing =>
            print (SavedTo name) (set_file name (Json (existing ++ buf)) w)
        end in
      set_buffer [] w
  end.

(** [EventRecorder.save_event] *)
Definition save_event (io : Io) (event : Recorded) (w : State) : State :=
  let w := if verbose w then print (Saving event) w else w in
  let w := set_buffer (events_buffer w ++ [event]) w in
  if (1000 <=? List.length (events_buffer w))%nat
  then flush_to_file io w
  else w.

Section Handlers.

(** The float test [current_time - self.last_mouse_move_time <
    self.mouse_move_sampling_rate] of [on_mouse_move], as a function of
    the current time and the last time. *)
Variable too_soon : Q -> Q -> bool.

(** [on_mouse_move]; [current_time] and [stamp] are the two readings of
    the clock, in the handler and in [MouseMoveEvent.__init__]. *)
Definition on_mouse_move (x y : Z) (current_time stamp : Q) (io : Io)
    (w : State) : State :=
  if negb (training w) then w
  else if too_soon current_time (last_mouse_move_time w) then w
  else
    let w :=
      {| training := training w; stop := stop w; verbose := verbose w;
         events_buffer := events_buffer w; session := session w;
         session_metadata := session_metadata w;
         last_mouse_move_time := current_time;
         files := files w; metadata_files := metadata_files w;
         output := output w |} in
    save_event io
      {| timestamp := stamp; session_id := session w;
         event_type := MOUSE_MOVE; payload := MoveAt x y |} w.

(** [on_mouse_click]; [button] is [button.name]. *)
Definition on_mouse_click (x y : Z) (button : string) (pressed : bool)
    (stamp : Q) (io : Io) (w : State) : State :=
  if negb (training w) then w
  else
    save_event io
      {| timestamp := stamp; session_id := session w;
         event_type := MOUSE_CLICK;
         payload := ClickAt x y button
                      (if pressed then "press" else "release") |} w.

(** [on_mouse_scroll] *)
Definition on_mouse_scroll (x y dx dy : Z) (stamp : Q) (io : Io)
    (w : State) : State :=
  if negb (training w) then w
  else
    save_event io
      {| timestamp := stamp; session_id := session w;
         event_type := MOUSE_SCROLL;
         payload := ScrollAt x y dx dy (if 0 <? dy then "up" else "down") |}
      w.

(** [on_key_press] *)
Definition on_key_press (key : KeyInput) (stamp : Q) (io : Io) (w : State)
  : State :=
  if negb (training w) then w
  else
    save_event io
      {| timestamp := stamp; session_id := session w;
         event_type := KEY_PRESS;
         payload := KeyOf (key_field key) "press" |} w.

(** [on_key_release] *)
Definition on_key_release (key : KeyInput) (stamp : Q) (io : Io)
    (w : State) : State :=
  if negb (training w) then w
  else
    save_event io
      {| timestamp := stamp; session_id := session w;
         event_type := KEY_RELEASE;
         payload := KeyOf (key_field key) "release" |} w.

(** [start_session]; [now] is [time.time()] and [readable] the ISO text
    of the truncated time. *)
Definition start_session (now : Q) (readable : string) (w : State) : State :=
  let t := int_of_float now in
  print (SessionStarted t)
    {| training := training w; stop := stop w; verbose := verbose w;
       events_buffer := []; session := Some t;
       session_metadata :=
         Some {| m_session_id := t; m_start_time := t;
                 m_start_time_readable := readable; m_end := None |};
       last_mouse_move_time := last_mouse_move_time w;
       files := files w; metadata_files := metadata_files w;
       output := output w |}.

(** [end_session]; [meta_ok] tells whether the metadata file could be
    written. *)
Definition end_session (io : Io) (now : Q) (readable : string)
    (meta_ok : bool) (w : State) : State :=
  match session w with
  | None => print NoActiveSession w
  | Some sid =>
      let w := flush_to_file io w in
      let w :=
        match session_metadata w with
        | Some m =>
            let m' := {| m_session_id := m_session_id m;
                         m_start_time := m_start_time m;
                         m_start_time_readable := m_start_time_readable m;
                         m_end := Some (int_of_float now, readable) |} in
            let w :=
              if meta_ok then
                {| training := training w; stop := stop w;
                   verbose := verbose w;
                   events_buffer := events_buffer w; session := session w;
                   session_metadata := session_metadata w;
                   last_mouse_move_time := last_mouse_move_time w;
                   files := files w;
                   metadata_files :=
                     fun n => if n =? sid then Some m'
                              else metadata_files w n;
                   output := output w |}
              else print ErrorSavingMetadata w in
            w
        | None => w
        end in
      let w := print (SessionEnded sid) w in
      {| training := training w; stop := stop w; verbose := verbose w;
         events_buffer := events_buffer w; session := None;
         session_metadata := None;
         last_mouse_move_time := last_mouse_move_time w;
         files := files w; metadata_files := metadata_files w;
         output := output w |}
  end.

(** [hotkey_train_toggle] *)
Definition hotkey_train_toggle (io : Io) (now : Q) (readable : string)
    (meta_ok : bool) (w : State) : State :=
  if negb (training w) then
    print TrainingStarted (set_training true (start_session now readable w))
  else
    print TrainingStopped
      (set_training false (end_session io now readable meta_ok w)).

(** [hotkey_verbose_toggle] *)
Definition hotkey_verbose_toggle (w : State) : State :=
  if verbose w then set_verbose false (print VerboseModeOff w)
  else set_verbose true (print VerboseModeOn w).

(** What happens to the tracker, each with what the outside answers. *)
Inductive Input : Type :=
| TrainToggle (io : Io) (now : Q) (readable : string) (meta_ok : bool)
| VerboseToggle
| Move (x y : Z) (current_time stamp : Q) (io : Io)
| Click (x y : Z) (button : string) (pressed : bool) (stamp : Q) (io : Io)
| Scroll (x y dx dy : Z) (stamp : Q) (io : Io)
| Press (key : KeyInput) (stamp : Q) (io : Io)
| Release (key : KeyInput) (stamp : Q) (io : Io).

Definition handle (w : State) (i : Input) : State :=
  match i with
  | TrainToggle io now readable meta_ok =>
      hotkey_train_toggle io now readable meta_ok w
  | VerboseToggle => hotkey_verbose_toggle w
  | Move x y current_time stamp io => on_mouse_move x y current_time stamp io w
  | Click x y button pressed stamp io =>
      on_mouse_click x y button pressed stamp io w
  | Scroll x y dx dy stamp io => on_mouse_scroll x y dx dy stamp io w
  | Press key stamp io => on_key_press key stamp io w
  | Release key stamp io => on_key_release key stamp io w
  end.

End Handlers.

(** The tracker at start, with an empty [recorded_data/]. *)
Definition start : State :=
  {| training := false; stop := false; verbose := false;
     events_buffer := []; session := None; session_metadata := None;
     last_mouse_move_time := 0;
     files := fun _ => Absent; metadata_files := fun _ => None;
     output := [] |}.

Definition after (too_soon : Q -> Q -> bool) (inputs : list Input) : State :=
  fold_left (handle too_soon) inputs start.

(** The events a file holds. *)
Definition file_events (f : FileState) : list Recorded :=
  match f with
  | Json events => events
  | _ => []
  end.

(** The events of the open session that are on disk or in the buffer. *)
Definition stored (w : State) : list Recorded :=
  file_events (files w (session w)) ++ events_buffer w.

(** An event is as its class builds it: the payload fits the type, a
    click or key action is one of the two labels and a scroll is labelled
    up exactly when [dy] is positive. *)
Definition well_formed (e : Recorded) : Prop :=
  match event_type e, payload e with
  | MOUSE_MOVE, MoveAt _ _ => True
  | MOUSE_CLICK, ClickAt _ _ _ action =>
      action = "press" \/ action = "release"
  | MOUSE_SCROLL, ScrollAt _ _ _ dy direction =>
      (0 < dy /\ direction = "up") \/ (dy <= 0 /\ direction = "down")
  | KEY_PRESS, KeyOf _ action => action = "press"
  | KEY_RELEASE, KeyOf _ action => action = "release"
  | _, _ => False
  end.

(** What the tracker keeps: fewer than 1000 events are buffered; the
    buffer is empty outside training; in training a session is open;
    every buffered event is well formed and tagged with the open session;
    and every event of a file is well formed and tagged with the
    session in the name of the file. *)
Definition tracker_inv (w : State) : Prop :=
  (List.length (events_buffer w) < 1000)%nat
  /\ (training w = false -> events_buffer w = [])
  /\ (training w = true -> session w <> None)
  /\ Forall (fun e => session_id e = session w /\ well_formed e)
       (events_buffer w)
  /\ (forall name events,
        files w name = Json events ->
        Forall (fun e => session_id e = name /\ well_formed e) events).

(** A sampling test that lets every move through, and a short history:
    training is switched on at time 5.5, then a click and a horizontal
    scroll arrive. *)
Definition never_too_soon (current_time last : Q) : bool := false.

Definition demo_inputs : list Input :=
  [TrainToggle IoOk (11 # 2) "1970-01-01T00:00:05" true;
   Click 1 2 "left" true (6 # 1) IoOk;
   Scroll 1 2 1 0 (7 # 1) IoOk].

End EventRecorder.

(** * parse_line_chat: participants and prefixes

    A shallow embedding of the helpers of [parse_line_chat.py].  A Python
    string is the list of its code points, so that [len] and slices count
    what Python counts; a table is the list of its rows in insertion
    order. *)

Module LineChat.

Definition str : Type := list Z.

(** The code point of the space. *)
Definition space : Z := 32.

(** [text.startswith(prefix)] *)
Fixpoint startswith (text prefix : str) {struct prefix} : bool :=
  match prefix, text with
  | [], _ => true
  | p :: prefix', t :: text' => (p =? t) && startswith text' prefix'
  | _ :: _, [] => false
  end.

(** [longest_prefix_match] *)
Fixpoint longest_prefix_match (candidates : list str) (text : str)
  : option str * str :=
  match candidates with
  | [] => (None, text)
  | name :: rest =>
      if startswith text (name ++ [space])
      then (Some name, skipn (List.length name + 1) text)
      else longest_prefix_match rest text
  end.

(** [sorted(names, key=len, reverse=True)]: a stable sort, longest
    first; names of equal length keep their order. *)
Fixpoint insert_by_len (name : str) (l : list str) : list str :=
  match l with
  | [] => [name]
  | n :: l' =>
      if (List.length n <=? List.length name)%nat then name :: l
      else n :: insert_by_len name l'
  end.

(** The order of the sorted list: [a] may come before [b]. *)
Definition longer_first (a b : str) : Prop :=
  (List.length b <= List.length a)%nat.

(** [load_participants], on the list of names read from the JSON file. *)
Definition load_participants (names : list str) : list str :=
  fold_right insert_by_len [] names.

Record Participant : Type := { p_id : Z; p_name : str }.
Record Conversation : Type := { c_id : Z; c_title : str }.

(** Tables [participants] and [conversations]. *)
Record ChatDb : Type := {
  participants : list Participant;
  conversations : list Conversation
}.

Fixpoint str_eqb (a b : str) : bool :=
  match a, b with
  | [], [] => true
  | x :: a', y :: b' => (x =? y) && str_eqb a' b'
  | _, _ => false
  end.

(** [SELECT id FROM participants WHERE name=?], first row. *)
Definition select_participant (db : ChatDb) (name : str) : option Z :=
  option_map p_id (find (fun r => str_eqb (p_name r) name) (participants db)).

(** [SELECT id FROM conversations WHERE title=?], first row. *)
Definition select_conversation (db : ChatDb) (title : str) : option Z :=
  option_map c_id (find (fun r => str_eqb (c_title r) title) (conversations db)).

(** [get_or_create_participant]: [INSERT OR IGNORE] under the [UNIQUE]
    constraint on [name], then the select and [row[0]].  The table is
    its list of rows; the counter SQLite keeps for [AUTOINCREMENT] is not
    part of it, and a new row gets the id after the largest in the table
    (SQLite may give a larger one). *)
Definition get_or_create_participant (db : ChatDb) (name : str)
  : ChatDb * res Z :=
  let db :=
    if existsb (fun r => str_eqb (p_name r) name) (participants db) then db
    else
      {| participants :=
           participants db
           ++ [{| p_id := next_rowid (map p_id (participants db));
                  p_name := name |}];
         conversations := conversations db |} in
  (db, match select_participant db name with
       | Some id => Ok id
       | None => Raise TypeError
       end).

(** [get_or_create_conversation] *)
Definition get_or_create_conversation (db : ChatDb) (title : str)
  : ChatDb * res Z :=
  match select_conversation db title with
  | Some id => (db, Ok id)
  | None =>
      let db :=
        {| participants := participants db;
           conversations :=
             conversations db
             ++ [{| c_id := next_rowid (map c_id (conversations db));
                    c_title := title |}] |} in
      (db, match select_conversation db title with
           | Some id => Ok id
           | None => Raise TypeError
           end)
  end.

(** The names A and A B, and the line A B C. *)
Definition demo_names : list str := [[65]; [65; 32; 66]].
Definition demo_line : str := [65; 32; 66; 32; 67].

Definition demo_chat_db : ChatDb :=
  {| participants := [{| p_id := 1; p_name := [65] |}];
     conversations := [] |}.

End LineChat.

(** A recorded history: training on, a click on the Submit button, the
    text hi typed and committed with Enter, training off. *)
Definition demo_history : list Event :=
  [HotkeyTrain "t0";
   MouseClick 10 20 true "data/snaps/click_1.jpg" (Some submit_props);
   KeyPress (KeyCode (Some "h"%char));
   KeyPress (KeyCode (Some "i"%char));
   KeyPress KeyEnter;
   KeyRelease KeyEnter "data/snaps/type_1.jpg";
   HotkeyTrain "t1"].

Definition demo_click_row : StepRow :=
  {| step_id := 1; session_id := 1; order_idx := 0; action_type := "click";
     text := None; x := Some 10; y := Some 20;
     bbox := Some [60; 190; 140; 220]; uia := Some submit_props;
     snap_path := Some "data/snaps/click_1.jpg" |}.

Definition demo_type_row : StepRow :=
  {| step_id := 2; session_id := 1; order_idx := 1; action_type := "type";
     text := Some "hi"; x := None; y := None; bbox := None; uia := None;
     snap_path := Some "data/snaps/type_1.jpg" |}.

(** [training_system] after the key a was pressed. *)
Definition typing_system : System :=
  on_press (KeyCode (Some "a"%char)) training_system.

(** * Properties *)

(** ** Comparisons of scores *)

Lemma Qltb_true (a b : Q) : Qltb a b = true <-> (a < b)%Q.
Proof.
  unfold Qltb. rewrite negb_true_iff. split; intro H.
  - apply Qnot_le_lt. intro Hle. apply Qle_bool_iff in Hle. congruence.
  - destruct (Qle_bool b a) eqn:E; [ | reflexivity ].
    apply Qle_bool_iff in E. lra.
Qed.

Lemma Qltb_false (a b : Q) : Qltb a b = false <-> (b <= a)%Q.
Proof.
  unfold Qltb. rewrite negb_false_iff. apply Qle_bool_iff.
Qed.

(** ** center_of_bbox *)

Lemma center_of_bbox_ltrb (l t r b : Z) :
  center_of_bbox (Some [l; t; r; b]) = Ok (Some (spec_center_ltrb l t r b)).
Proof. reflexivity. Qed.

Lemma center_of_bbox_rect (rect : Z * Z * Z * Z) :
  exists cx cy, center_of_bbox (Some (rect_list rect)) = Ok (Some (cx, cy)).
Proof.
  destruct rect as [[[l t] r] b]. simpl. eauto.
Qed.

(** C6, at the input that breaks it: the list [100, 200, 80, 30] given as
    (left, top, width, height) has length four, so [center_of_bbox] reads
    it as (left, top, right, bottom) and returns (90, 115), while the
    midpoint of that rectangle is (140, 215); the branch that adds the
    width to the left edge is only reached by lists of another length. *)
Theorem center_of_bbox_width_height_misread :
  center_of_bbox (Some [100; 200; 80; 30]) = Ok (Some (90, 115))
  /\ spec_center_ltwh 100 200 80 30 = (140, 215)
  /\ (forall l t w h,
        center_of_bbox (Some [l; t; w; h])
        = Ok (Some (int_half (l + w), int_half (t + h)))).
Proof.
  repeat split.
Qed.

(** ** Lists *)

Lemma nth_error_snoc_lt {A : Type} (l : list A) (a : A) (j : nat) :
  (j < List.length l)%nat -> nth_error (l ++ [a]) j = nth_error l j.
Proof. intro H. now apply nth_error_app1. Qed.

Lemma nth_error_snoc_last {A : Type} (l : list A) (a : A) :
  nth_error (l ++ [a]) (List.length l) = Some a.
Proof.
  rewrite nth_error_app2 by lia. now rewrite Nat.sub_diag.
Qed.

(** ** uia_find_best *)

Section UiaFindBest.

Variable partial_ratio : string -> string -> Q.
Variable target_text : string.
Variable control_type : option string.

Local Notation "'score_of'" :=
  (scored partial_ratio target_text control_type).
Local Notation "'step'" := (visit partial_ratio target_text control_type).

Lemma visit_scored (acc : option Control * Q) (e : Control) :
  step acc e =
  match score_of e with
  | Some sc => if Qltb (snd acc) sc then (Some e, sc) else acc
  | None => acc
  end.
Proof.
  unfold visit, scored.
  destruct (c_Name e), (c_ControlTypeName e); try reflexivity.
  destruct (type_rejected control_type s0); reflexivity.
Qed.

(** Either nothing scored above -1 and the result is still the initial
    pair, or the result is the first element of maximal score. *)
Lemma uia_find_best_inv (elems : list Control) :
  let r := uia_find_best partial_ratio elems target_text control_type in
  (r = (None, -1 # 1)
   /\ forall e sc, In e elems -> score_of e = Some sc -> (sc <= -1 # 1)%Q)
  \/ (exists i e sc,
        nth_error elems i = Some e
        /\ score_of e = Some sc
        /\ r = (Some e, sc)
        /\ (-1 # 1 < sc)%Q
        /\ (forall e' sc', In e' elems -> score_of e' = Some sc' ->
                           (sc' <= sc)%Q)
        /\ (forall j e' sc', (j < i)%nat -> nth_error elems j = Some e' ->
                             score_of e' = Some sc' -> (sc' < sc)%Q)).
Proof.
  unfold uia_find_best.
  induction elems as [ | e l IH ] using rev_ind; simpl.
  - left. split; [ reflexivity | intros e sc [] ].
  - rewrite fold_left_app. simpl. rewrite visit_scored.
    destruct IH as [[Hr Hall] | (i & e0 & sc0 & Hi & Hsc0 & Hr & Hpos & Hmax & Hfirst)];
      rewrite Hr; simpl.
    + destruct (score_of e) as [sc | ] eqn:Hsc.
      * destruct (Qltb (-1 # 1) sc) eqn:Hlt.
        -- apply Qltb_true in Hlt. right.
           exists (List.length l), e, sc. repeat split; auto.
           ++ apply nth_error_snoc_last.
           ++ intros e' sc' Hin Hs. apply in_app_or in Hin.
              destruct Hin as [Hin | [<- | []]].
              ** specialize (Hall _ _ Hin Hs). lra.
              ** rewrite Hsc in Hs. injection Hs as <-. lra.
           ++ intros j e' sc' Hj Hn Hs.
              rewrite nth_error_snoc_lt in Hn by exact Hj.
              apply nth_error_In in Hn. specialize (Hall _ _ Hn Hs). lra.
        -- apply Qltb_false in Hlt. left. split; [ reflexivity | ].
           intros e' sc' Hin Hs. apply in_app_or in Hin.
           destruct Hin as [Hin | [<- | []]]; eauto.
           rewrite Hsc in Hs. injection Hs as <-. exact Hlt.
      * left. split; [ reflexivity | ].
        intros e' sc' Hin Hs. apply in_app_or in Hin.
        destruct Hin as [Hin | [<- | []]]; eauto. congruence.
    + assert (Hil : (i < List.length l)%nat).
      { apply nth_error_Some. congruence. }
      destruct (score_of e) as [sc | ] eqn:Hsc.
      * destruct (Qltb sc0 sc) eqn:Hlt.
        -- apply Qltb_true in Hlt. right.
           exists (List.length l), e, sc. repeat split; auto.
           ++ apply nth_error_snoc_last.
           ++ lra.
           ++ intros e' sc' Hin Hs. apply in_app_or in Hin.
              destruct Hin as [Hin | [<- | []]].
              ** specialize (Hmax _ _ Hin Hs). lra.
              ** rewrite Hsc in Hs. injection Hs as <-. lra.
           ++ intros j e' sc' Hj Hn Hs.
              rewrite nth_error_snoc_lt in Hn by exact Hj.
              apply nth_error_In in Hn. specialize (Hmax _ _ Hn Hs). lra.
        -- apply Qltb_false in Hlt. right.
           exists i, e0, sc0. repeat split; auto.
           ++ now rewrite nth_error_snoc_lt.
           ++ intros e' sc' Hin Hs. apply in_app_or in Hin.
              destruct Hin as [Hin | [<- | []]]; eauto.
              rewrite Hsc in Hs. injection Hs as <-. exact Hlt.
           ++ intros j e' sc' Hj Hn Hs.
              rewrite nth_error_snoc_lt in Hn by lia. eauto.
      * right. exists i, e0, sc0. repeat split; auto.
        -- now rewrite nth_error_snoc_lt.
        -- intros e' sc' Hin Hs. apply in_app_or in Hin.
           destruct Hin as [Hin | [<- | []]]; eauto. congruence.
        -- intros j e' sc' Hj Hn Hs.
           rewrite nth_error_snoc_lt in Hn by lia. eauto.
Qed.

(** C7.  For a non-empty target text and a scorer that is never
    negative, when the walk yields at least one element that is scored,
    [uia_find_best] returns a scored element of the walk together with
    its score, no scored element of the walk has a higher score, and
    every scored element before it in the walk has a strictly lower one:
    among the elements of maximal score it is the first in traversal
    order. *)
Theorem uia_find_best_first_maximum (elems : list Control) :
  truthy_str target_text = true ->
  (forall a b, (0 <= partial_ratio a b)%Q) ->
  (exists e sc, In e elems /\ score_of e = Some sc) ->
  exists i e sc,
    nth_error elems i = Some e
    /\ score_of e = Some sc
    /\ uia_find_best partial_ratio elems target_text control_type
       = (Some e, sc)
    /\ (forall e' sc', In e' elems -> score_of e' = Some sc' ->
                       (sc' <= sc)%Q)
    /\ (forall j e' sc', (j < i)%nat -> nth_error elems j = Some e' ->
                         score_of e' = Some sc' -> (sc' < sc)%Q).
Proof.
  intros Htarget Hrange (e1 & sc1 & Hin1 & Hsc1).
  destruct (uia_find_best_inv elems)
    as [[_ Hall] | (i & e & sc & Hi & Hsc & Hr & _ & Hmax & Hfirst)].
  - exfalso. specialize (Hall _ _ Hin1 Hsc1).
    unfold scored in Hsc1.
    destruct (c_Name e1), (c_ControlTypeName e1); try discriminate.
    destruct (type_rejected control_type s0); try discriminate.
    rewrite Htarget in Hsc1. injection Hsc1 as <-.
    specialize (Hrange (lower target_text) (lower s)). lra.
  - exists i, e, sc. repeat split; auto.
Qed.

End UiaFindBest.

(** ** ocr_boxes and ocr_find_best *)

Section Ocr.

Variable partial_ratio : string -> string -> Q.

Lemma ocr_boxes_floor (data : option (list OcrRow)) (b : OcrBox) :
  In b (ocr_boxes data) -> (40 <= b_conf b)%Q.
Proof.
  destruct data as [rows | ]; simpl; [ | tauto ].
  rewrite in_flat_map. intros (r & _ & Hb).
  destruct (negb (truthy_str (o_text r))); [ destruct Hb | ].
  destruct (Qltb (conf_value (o_conf r)) 40) eqn:E; [ destruct Hb | ].
  apply Qltb_false in E. destruct Hb as [<- | []]. exact E.
Qed.

Lemma ocr_boxes_all_low (rows : list OcrRow) :
  (forall r, In r rows -> (conf_value (o_conf r) < 40)%Q) ->
  ocr_boxes (Some rows) = [].
Proof.
  simpl. induction rows as [ | r rows IH ]; intro Hlow; simpl.
  - reflexivity.
  - rewrite IH by (intros; apply Hlow; now right).
    destruct (negb (truthy_str (o_text r))); [ reflexivity | ].
    assert (E : Qltb (conf_value (o_conf r)) 40 = true).
    { apply Qltb_true, Hlow. now left. }
    now rewrite E.
Qed.

Lemma ocr_pick_fst (target_text : string) (acc : option OcrBox * Q)
    (b : OcrBox) :
  fst (ocr_pick partial_ratio target_text acc b) = fst acc
  \/ fst (ocr_pick partial_ratio target_text acc b) = Some b.
Proof.
  unfold ocr_pick. destruct (Qltb (snd acc) _); [ now right | now left ].
Qed.

(** The best box is the initial one or one of the list. *)
Lemma fold_ocr_pick_in (target_text : string) (l : list OcrBox)
    (acc : option OcrBox * Q) :
  let r := fold_left (ocr_pick partial_ratio target_text) l acc in
  fst r = fst acc \/ exists b, In b l /\ fst r = Some b.
Proof.
  revert acc. induction l as [ | b l IH ]; intro acc; simpl.
  - now left.
  - destruct (IH (ocr_pick partial_ratio target_text acc b))
      as [Heq | (b' & Hin & Heq)].
    + destruct (ocr_pick_fst target_text acc b) as [E | E];
        rewrite E in Heq.
      * now left.
      * right. exists b. split; [ now left | exact Heq ].
    + right. exists b'. split; [ now right | exact Heq ].
Qed.

(** C5.  A region [ocr_find_best] returns has confidence at least 40,
    and when every line Tesseract extracted has confidence below 40 (or
    Tesseract failed) it returns no region, with the initial score -1. *)
Theorem ocr_find_best_confidence_floor (data : option (list OcrRow))
    (target_text : string) :
  (forall b s, ocr_find_best partial_ratio data target_text = (Some b, s) ->
               (40 <= b_conf b)%Q)
  /\ ((forall rows r, data = Some rows -> In r rows ->
                      (conf_value (o_conf r) < 40)%Q) ->
      ocr_find_best partial_ratio data target_text = (None, -1 # 1)).
Proof.
  split.
  - intros b s Hbest. unfold ocr_find_best in Hbest.
    destruct (fold_ocr_pick_in target_text (ocr_boxes data) (None, -1 # 1))
      as [Hnone | (b' & Hin & Hsome)];
      rewrite Hbest in *; simpl in *.
    + discriminate.
    + injection Hsome as ->. now apply (ocr_boxes_floor data).
  - intro Hlow. unfold ocr_find_best.
    destruct data as [rows | ]; [ | reflexivity ].
    rewrite ocr_boxes_all_low; [ reflexivity | ].
    intros r Hin. now apply (Hlow rows).
Qed.

End Ocr.

(** ** The resolver *)

Section Resolver.

Variable partial_ratio : string -> string -> Q.

Lemma ocr_click_not_uia (scr : Screen) (target_name : string) (s : StepRow)
    (n : string) (sc : Q) (px py : Z) :
  ocr_click partial_ratio scr target_name s <> UiaClick n sc px py.
Proof.
  unfold ocr_click, recorded_click.
  destruct (truthy_str target_name);
    [ destruct (ocr_find_best _ _ _) as [[box | ] oscore];
      [ destruct (b_bbox box) as [[[bx by_] bw] bh] | ] | ];
    try discriminate;
    destruct (x s), (y s); discriminate.
Qed.

(** No step makes the loop body raise. *)
Lemma exec_step_returns (scr : Screen) (s : StepRow) :
  exists eff, exec_step partial_ratio scr s = Ok eff.
Proof.
  unfold exec_step.
  destruct (String.eqb (action_type s) "click"); [ | ].
  - unfold resolve_click.
    destruct (if truthy_str (target_name_of s) then _ else _)
      as [[e | ] score]; [ | eauto ].
    destruct (c_BoundingRectangle e) as [rect | ]; [ | eauto ].
    destruct (center_of_bbox_rect rect) as (cx & cy & ->). simpl.
    destruct (negb (cx =? 0)%Z && negb (cy =? 0)%Z)%bool; eauto.
  - destruct (String.eqb (action_type s) "type"); eauto.
Qed.



(** With a Cancel button as the only live element, the step named Submit
    clicks the centre of that button, whatever the scorer makes of the
    two names and whatever Tesseract reads. *)
Lemma unrelated_element_is_clicked (data : option (list OcrRow)) :
  (forall a b, (0 <= partial_ratio a b)%Q) ->
  exec_step partial_ratio {| walk := [cancel_button]; ocr_data := data |}
    submit_step
  = Ok (UiaClick "Submit" (partial_ratio "submit" "cancel") 50 25).
Proof.
  intro Hrange.
  unfold exec_step, resolve_click, target_name_of, uia_find_best.
  cbn [action_type uia Name submit_step submit_props walk fold_left].
  change (String.eqb "click" "click") with true.
  change (truthy_str "Submit") with true. cbv iota.
  unfold visit.
  cbn [cancel_button c_Name c_ControlTypeName c_BoundingRectangle
       type_rejected snd].
  change (truthy_str "Submit") with true.
  change (lower "Submit") with "submit".
  change (lower "Cancel") with "cancel". cbv iota.
  assert (E : Qltb (-1 # 1) (partial_ratio "submit" "cancel") = true).
  { apply Qltb_true. specialize (Hrange "submit" "cancel"). lra. }
  rewrite E. reflexivity.
Qed.



(** C10.  When the UIA search matches an element that reports a
    rectangle whose centre has x = 0 or y = 0, the step is not clicked
    by tier 1: its resolution is that of the OCR tier and the fallbacks
    after it. *)
Theorem uia_zero_center_falls_through (scr : Screen) (s : StepRow)
    (e : Control) (score : Q) (rect : Z * Z * Z * Z) (cx cy : Z) :
  action_type s = "click" ->
  truthy_str (target_name_of s) = true ->
  uia_find_best partial_ratio (walk scr) (target_name_of s) None
  = (Some e, score) ->
  c_BoundingRectangle e = Some rect ->
  center_of_bbox (Some (rect_list rect)) = Ok (Some (cx, cy)) ->
  cx = 0 \/ cy = 0 ->
  exec_step partial_ratio scr s
  = Ok (ocr_click partial_ratio scr (target_name_of s) s)
  /\ forall n sc px py,
       exec_step partial_ratio scr s <> Ok (UiaClick n sc px py).
Proof.
  intros Hact Htarget Hbest Hrect Hcenter Hzero.
  assert (Hexec : exec_step partial_ratio scr s
                  = Ok (ocr_click partial_ratio scr (target_name_of s) s)).
  { unfold exec_step. rewrite Hact.
    change (String.eqb "click" "click") with true. cbv iota.
    unfold resolve_click. rewrite Htarget, Hbest, Hrect, Hcenter.
    cbn [bind].
    destruct Hzero as [-> | ->]; cbn [Z.eqb negb andb];
      [ reflexivity | now rewrite andb_false_r ]. }
  split; [ exact Hexec | ].
  intros n sc px py. rewrite Hexec. intro H. injection H as H.
  now apply ocr_click_not_uia in H.
Qed.

End Resolver.

(** ** Recorder *)

Lemma next_rowid_above (ids : list Z) (i : Z) :
  In i ids -> i < next_rowid ids.
Proof.
  unfold next_rowid.
  induction ids as [ | j ids IH ]; cbn [fold_right In]; [ tauto | ].
  intros [-> | Hin]; [ lia | ]. specialize (IH Hin). lia.
Qed.

Lemma next_rowid_fresh (ids : list Z) : ~ In (next_rowid ids) ids.
Proof.
  intro Hin. apply next_rowid_above in Hin. lia.
Qed.

Lemma dense_from_zero_snoc (l : list Z) :
  dense_from_zero l ->
  dense_from_zero (l ++ [Z.of_nat (List.length l)]).
Proof.
  unfold dense_from_zero. intro H.
  rewrite length_app. simpl. rewrite Nat.add_1_r, seq_S, map_app. simpl.
  now rewrite <- H.
Qed.

Lemma steps_of_snoc (sid : Z) (sessions0 : list SessionRow)
    (rows : list StepRow) (row : StepRow) :
  steps_of sid {| sessions := sessions0; steps := rows ++ [row] |}
  = steps_of sid {| sessions := sessions0; steps := rows |}
    ++ (if session_id row =? sid then [row] else []).
Proof.
  unfold steps_of. simpl. now rewrite filter_app.
Qed.

Lemma steps_of_unknown_session (sid : Z) (db : Db) :
  (forall s, In s (steps db) -> session_id s <> sid) ->
  steps_of sid db = [].
Proof.
  unfold steps_of. induction (steps db) as [ | s l IH ]; intro H; simpl.
  - reflexivity.
  - destruct (Z.eqb_spec (session_id s) sid) as [E | _].
    + exfalso. now apply (H s (or_introl eq_refl)).
    + apply IH. intros s' Hin. apply H. now right.
Qed.

Lemma recorder_inv_boot (db : Db) (w : System) :
  conn w = db -> recorder_inv w -> recorder_inv (boot db).
Proof.
  intros <- (Ha & Hb & _). repeat split; auto; simpl in *; discriminate.
Qed.

Lemma recorder_inv_start_session (now : string) (w : System) :
  recorder_inv w -> recorder_inv (start_session now w).
Proof.
  intros (Ha & Hb & _). unfold recorder_inv, start_session. simpl.
  split; [ | split ].
  - intros s Hin. rewrite map_app, in_app_iff. left. now apply Ha.
  - exact Hb.
  - intros sid [= <-]. split.
    + rewrite map_app, in_app_iff. right. now left.
    + rewrite steps_of_unknown_session; [ reflexivity | ].
      simpl. intros s Hin E. apply Ha in Hin. rewrite E in Hin.
      now apply next_rowid_fresh in Hin.
Qed.

Lemma recorder_inv_end_session (w : System) :
  recorder_inv w -> recorder_inv (end_session w).
Proof.
  intros (Ha & Hb & _). unfold recorder_inv, end_session. simpl.
  repeat split; auto; discriminate.
Qed.

Lemma recorder_inv_record_step (action : string) (txt : option string)
    (px py : option Z) (info : option UiaProps) (box : option (list Z))
    (snap : option string) (w : System) :
  recorder_inv w ->
  recorder_inv (record_step action txt px py info box snap w).
Proof.
  intro H. unfold record_step.
  destruct (rec_session_id (recorder w)) as [sid | ] eqn:Hsid;
    [ | exact H ].
  destruct H as (Ha & Hb & Hc). rewrite Hsid in Hc.
  destruct (Hc sid eq_refl) as [Hin Hidx].
  destruct (conn w) as [sessions0 rows] eqn:Hconn. simpl in *.
  unfold recorder_inv. simpl. rewrite Hsid.
  split; [ | split ].
  - intros s Hs. apply in_app_or in Hs.
    destruct Hs as [Hs | [<- | []]]; [ now apply Ha | exact Hin ].
  - intro sid'. rewrite steps_of_snoc. simpl.
    destruct (Z.eqb_spec sid sid') as [<- | _].
    + rewrite map_app. simpl. rewrite Hidx, <- (length_map order_idx).
      apply dense_from_zero_snoc, Hb.
    + rewrite app_nil_r. apply Hb.
  - intros sid' [= <-]. split; [ exact Hin | ].
    rewrite steps_of_snoc. simpl. rewrite Z.eqb_refl, length_app, Hidx.
    simpl. lia.
Qed.

Lemma recorder_inv_buffer (buf : list ascii) (w : System) :
  recorder_inv w ->
  recorder_inv
    (set_recorder {| rec_session_id := rec_session_id (recorder w);
                     rec_order_idx := rec_order_idx (recorder w);
                     buffer_typed := buf |} w).
Proof. exact (fun H => H). Qed.

Lemma recorder_inv_handle (w : System) (ev : Event) :
  recorder_inv w -> recorder_inv (handle w ev).
Proof.
  intro H. destruct ev as [now | | | | px py pressed snap props | key
                          | key snap | sid | | ]; simpl.
  - unfold toggle_train. simpl.
    destruct (training (STATE w)); [ | destruct (running (STATE w)) ].
    + now apply (recorder_inv_end_session
                   (set_STATE (set_training false (STATE w))
                      (print HotkeyTrainPressed w))).
    + exact H.
    + now apply (recorder_inv_start_session now
                   (set_STATE (set_training true (STATE w))
                      (print HotkeyTrainPressed w))).
  - unfold do_run. simpl.
    destruct (training (STATE w)); [ exact H | ].
    destruct (running (STATE w)); [ exact H | ].
    destruct (latest_session (conn w)); exact H.
  - exact H.
  - exact H.
  - unfold on_click.
    destruct (negb (training (STATE w))); [ exact H | ].
    destruct (negb pressed); [ exact H | ].
    now apply recorder_inv_record_step.
  - unfold on_press.
    destruct (negb (training (STATE w))); [ exact H | ].
    destruct key as [[c | ] | | | | ]; exact H.
  - unfold on_release.
    destruct (negb (training (STATE w))); [ exact H | ].
    destruct key; try exact H;
      (destruct (truthy_str _);
       [ now apply recorder_inv_record_step, recorder_inv_buffer
       | exact H ]).
  - exact H.
  - exact H.
  - now apply (recorder_inv_boot (conn w) w).
Qed.

Lemma recorder_inv_fold (evs : list Event) (w : System) :
  recorder_inv w -> recorder_inv (fold_left handle evs w).
Proof.
  revert w. induction evs as [ | ev evs IH ]; intros w H; simpl.
  - exact H.
  - now apply IH, recorder_inv_handle.
Qed.

Lemma recorder_inv_after (evs : list Event) : recorder_inv (after evs).
Proof.
  apply recorder_inv_fold. repeat split; simpl; try tauto; discriminate.
Qed.

(** C9.  After any history of hotkeys, clicks, keys, runner threads and
    restarts from a first start on an empty database, the steps of every
    session, in the order they were inserted, carry the order indices
    0, 1, 2, ...: the first is 0 and each next one is one more. *)
Theorem recorder_order_idx_dense (evs : list Event) (sid : Z) :
  dense_from_zero (map order_idx (steps_of sid (conn (after evs)))).
Proof.
  apply recorder_inv_after.
Qed.

Lemma dense_from_zero_nodup (l : list Z) : dense_from_zero l -> NoDup l.
Proof.
  unfold dense_from_zero. intros ->.
  apply Finite.Injective_map_NoDup; [ | apply seq_NoDup ].
  intros a b. apply Nat2Z.inj.
Qed.

(** The order indices of a recorded session are distinct. *)
Lemma recorded_order_idx_nodup (evs : list Event) (sid : Z) :
  NoDup (map order_idx (steps_of sid (conn (after evs)))).
Proof.
  apply dense_from_zero_nodup, recorder_inv_after.
Qed.

(** C2, as stated, fails: in training, with a session open, the release
    of the button ([pressed] false) leaves the process as it was, and the
    press adds a row to table [steps]. *)
Lemma on_click_release_records_nothing :
  on_click 10 20 false "data/snaps/click_1.jpg" (Some submit_props)
    training_system = training_system
  /\ steps (conn (on_click 10 20 true "data/snaps/click_1.jpg"
                    (Some submit_props) training_system))
     <> steps (conn training_system).
Proof.
  split; [ reflexivity | discriminate ].
Qed.

(** C2, amended.  In training, with a session open, the press of the
    button appends one click step that carries the position, the
    descriptor when there is one, its rectangle when it has a non-empty one,
    and the snapshot path; the release of the button changes nothing. *)
Theorem on_click_records_on_press (w : System) (px py sid : Z)
    (snap : string) (props : option UiaProps) :
  training (STATE w) = true ->
  rec_session_id (recorder w) = Some sid ->
  steps (conn (on_click px py true snap props w))
  = steps (conn w)
    ++ [{| step_id := next_rowid (map step_id (steps (conn w)));
           session_id := sid;
           order_idx := rec_order_idx (recorder w);
           action_type := "click";
           text := None;
           x := Some px; y := Some py;
           bbox := match props with
                   | Some p => if truthy_list (BoundingRectangle p)
                               then BoundingRectangle p else None
                   | None => None
                   end;
           uia := props;
           snap_path := Some snap |}]
  /\ on_click px py false snap props w = w.
Proof.
  intros Htrain Hsid. unfold on_click, record_step.
  rewrite Htrain, Hsid. simpl. split; [ | reflexivity ].
  destruct props; reflexivity.
Qed.

(** ** Mode controller *)

(** C8.  The train hotkey during a run, and the run hotkey during
    training, only print: the hotkey line and the refusal are added to the
    output, while the four flags, the recorder, both tables and the list
    of runner threads stay as they were. *)
Theorem conflicting_mode_request_rejected (now : string) (w : System) :
  (training (STATE w) = false -> running (STATE w) = true ->
   let w' := toggle_train now w in
   STATE w' = STATE w /\ recorder w' = recorder w /\ conn w' = conn w
   /\ threads w' = threads w
   /\ console w' = console w ++ [HotkeyTrainPressed; CannotTrainWhileRunning])
  /\ (training (STATE w) = true ->
      let w' := do_run w in
      STATE w' = STATE w /\ recorder w' = recorder w /\ conn w' = conn w
      /\ threads w' = threads w
      /\ console w' = console w ++ [HotkeyRunPressed; StopTrainFirst]).
Proof.
  split.
  - intros Htrain Hrun. unfold toggle_train. simpl.
    rewrite Htrain, Hrun. simpl. rewrite <- app_assoc. now repeat split.
  - intro Htrain. unfold do_run. simpl.
    rewrite Htrain. simpl. rewrite <- app_assoc. now repeat split.
Qed.

(** ** ORDER BY *)

Lemma insert_row_perm (s : StepRow) (l : list StepRow) :
  Permutation (insert_row s l) (s :: l).
Proof.
  induction l as [ | r l IH ]; simpl.
  - reflexivity.
  - destruct (order_idx s <=? order_idx r); [ reflexivity | ].
    rewrite IH. apply perm_swap.
Qed.

Lemma order_by_order_idx_perm (l : list StepRow) :
  Permutation (order_by_order_idx l) l.
Proof.
  induction l as [ | s l IH ]; simpl.
  - reflexivity.
  - rewrite insert_row_perm. now apply perm_skip.
Qed.

Lemma insert_row_sorted (s : StepRow) (l : list StepRow) :
  StronglySorted Z.le (map order_idx l) ->
  StronglySorted Z.le (map order_idx (insert_row s l)).
Proof.
  induction l as [ | r l IH ]; simpl; intro H.
  - repeat constructor.
  - apply StronglySorted_inv in H. destruct H as [Hl Hr].
    destruct (Z.leb_spec (order_idx s) (order_idx r)) as [Hle | Hgt]; simpl.
    + constructor; [ now constructor | ].
      constructor; [ exact Hle | ].
      eapply Forall_impl; [ | exact Hr ]. intros a Ha. lia.
    + constructor; [ now apply IH | ].
      change (Forall (Z.le (order_idx r)) (map order_idx (insert_row s l))).
      eapply Permutation_Forall.
      * apply Permutation_sym, Permutation_map, insert_row_perm.
      * simpl. constructor; [ lia | exact Hr ].
Qed.

Lemma order_by_order_idx_sorted (l : list StepRow) :
  StronglySorted Z.le (map order_idx (order_by_order_idx l)).
Proof.
  induction l as [ | s l IH ]; simpl.
  - constructor.
  - now apply insert_row_sorted.
Qed.

Lemma sorted_nodup_strict (l : list Z) :
  StronglySorted Z.le l -> NoDup l -> StronglySorted Z.lt l.
Proof.
  induction 1 as [ | a l Hs IH Hall ]; intro Hnd.
  - constructor.
  - apply NoDup_cons_iff in Hnd. destruct Hnd as [Hnotin Hnd].
    constructor; [ now apply IH | ].
    rewrite Forall_forall in *. intros b Hb.
    specialize (Hall b Hb).
    assert (a <> b) by (intros ->; contradiction). lia.
Qed.

(** ** The player *)

Section Player.

Variable partial_ratio : string -> string -> Q.
Variable screens : nat -> Screen.

Local Notation "'play_'" := (play partial_ratio screens).

Lemma wait_unpaused_blocked (ps : list Flags) :
  Forall (fun f => paused f = true) ps -> wait_unpaused ps = None.
Proof.
  induction 1 as [ | f ps Hf _ IH ]; simpl; [ reflexivity | ].
  now rewrite Hf.
Qed.

Lemma wait_unpaused_cleared (ps : list Flags) (f1 : Flags)
    (rest : list Flags) :
  Forall (fun f => paused f = true) ps ->
  paused f1 = false ->
  wait_unpaused (ps ++ f1 :: rest) = Some rest.
Proof.
  intros Hps Hf1. induction Hps as [ | f ps Hf _ IH ]; simpl.
  - now rewrite Hf1.
  - now rewrite Hf.
Qed.

(** A turn of the loop executes its row and goes on with the next. *)
Lemma play_turn (pos : nat) (s : StepRow) (rows : list StepRow)
    (t rest : list Flags) :
  turn t ->
  exists eff,
    exec_step partial_ratio (screens pos) s = Ok eff
    /\ play_ pos (s :: rows) (t ++ rest)
       = ((s, eff) :: fst (play_ (S pos) rows rest),
          snd (play_ (S pos) rows rest)).
Proof.
  intros [f0 ps f1 Hstop Hps Hf1].
  destruct (exec_step_returns partial_ratio (screens pos) s) as [eff Heff].
  exists eff. split; [ exact Heff | ].
  simpl. rewrite Hstop, <- app_assoc. simpl.
  rewrite (wait_unpaused_cleared ps f1 rest Hps Hf1), Heff.
  now destruct (play_ (S pos) rows rest).
Qed.

(** The rows gone through are always the first rows fetched. *)
Lemma play_prefix (rows : list StepRow) (pos : nat) (reads : list Flags) :
  exists k, (k <= List.length rows)%nat
            /\ visited (play_ pos rows reads) = firstn k rows.
Proof.
  revert pos reads. induction rows as [ | s rows IH ]; intros pos reads.
  - exists 0%nat. split; [ simpl; lia | reflexivity ].
  - simpl. destruct reads as [ | f reads1 ];
      [ exists 0%nat; split; [ lia | reflexivity ] | ].
    destruct (stopping f); [ exists 0%nat; split; [ lia | reflexivity ] | ].
    destruct (wait_unpaused reads1) as [reads2 | ];
      [ | exists 0%nat; split; [ lia | reflexivity ] ].
    destruct (exec_step partial_ratio (screens pos) s) as [eff | e];
      [ | exists 0%nat; split; [ lia | reflexivity ] ].
    destruct (IH (S pos) reads2) as (k & Hk & Hvis).
    exists (S k). split; [ lia | ].
    unfold visited in *.
    destruct (play_ (S pos) rows reads2) as [log out]. simpl in *.
    now rewrite Hvis.
Qed.

(** With one turn for every row, every row is gone through. *)
Lemma play_all_turns (rows : list StepRow) (pos : nat)
    (turns : list (list Flags)) (rest : list Flags) :
  Forall turn turns ->
  List.length turns = List.length rows ->
  visited (play_ pos rows (List.concat turns ++ rest)) = rows
  /\ snd (play_ pos rows (List.concat turns ++ rest)) = Finished.
Proof.
  revert pos turns. induction rows as [ | s rows IH ];
    intros pos turns Hturns Hlen.
  - now split.
  - destruct turns as [ | t turns ]; [ discriminate | ].
    apply Forall_cons_iff in Hturns. destruct Hturns as [Ht Hturns].
    simpl List.concat. rewrite <- app_assoc.
    destruct (play_turn pos s rows t (List.concat turns ++ rest) Ht)
      as (eff & _ & ->).
    destruct (IH (S pos) turns Hturns) as [Hvis Hout];
      [ simpl in Hlen; lia | ].
    unfold visited in *. simpl. now rewrite Hvis, Hout.
Qed.

(** With the stop flag found set at the check after [k] turns, the
    first [k] rows are gone through and no other. *)
Lemma play_stop_after (turns : list (list Flags)) (rows : list StepRow)
    (pos : nat) (f : Flags) (rest : list Flags) :
  Forall turn turns ->
  (List.length turns < List.length rows)%nat ->
  stopping f = true ->
  visited (play_ pos rows (List.concat turns ++ f :: rest))
  = firstn (List.length turns) rows
  /\ snd (play_ pos rows (List.concat turns ++ f :: rest)) = Stopped.
Proof.
  revert rows pos. induction turns as [ | t turns IH ];
    intros rows pos Hturns Hlen Hstop.
  - destruct rows as [ | s rows ]; [ simpl in Hlen; lia | ].
    simpl. rewrite Hstop. now split.
  - destruct rows as [ | s rows ]; [ simpl in Hlen; lia | ].
    apply Forall_cons_iff in Hturns. destruct Hturns as [Ht Hturns].
    simpl List.concat. rewrite <- app_assoc.
    destruct (play_turn pos s rows t (List.concat turns ++ f :: rest) Ht)
      as (eff & _ & ->).
    destruct (IH rows (S pos) Hturns) as [Hvis Hout];
      [ simpl in Hlen; lia | exact Hstop | ].
    unfold visited in *. simpl. now rewrite Hvis, Hout.
Qed.

(** After [k] turns at least the first [k] rows are gone through,
    whatever the stop flag is in the polls of the pause loop. *)
Lemma play_at_least (turns : list (list Flags)) (rows : list StepRow)
    (pos : nat) (rest : list Flags) :
  Forall turn turns ->
  (List.length turns <= List.length rows)%nat ->
  exists k,
    (List.length turns <= k <= List.length rows)%nat
    /\ visited (play_ pos rows (List.concat turns ++ rest)) = firstn k rows.
Proof.
  revert rows pos. induction turns as [ | t turns IH ];
    intros rows pos Hturns Hlen.
  - destruct (play_prefix rows pos rest) as (k & Hk & Hvis).
    exists k. split; [ simpl; lia | exact Hvis ].
  - destruct rows as [ | s rows ]; [ simpl in Hlen; lia | ].
    apply Forall_cons_iff in Hturns. destruct Hturns as [Ht Hturns].
    simpl List.concat. rewrite <- app_assoc.
    destruct (play_turn pos s rows t (List.concat turns ++ rest) Ht)
      as (eff & _ & ->).
    destruct (IH rows (S pos) Hturns) as (k & Hk & Hvis);
      [ simpl in Hlen; lia | ].
    exists (S k). split; [ simpl in *; lia | ].
    unfold visited in *. simpl. now rewrite Hvis.
Qed.

End Player.

(** C3, as stated, fails: a session of one step is replayed, the stop
    check finds the flag clear, and then the pause loop finds, three times
    in a row, the pause flag set and the stop flag set.  The player is
    still inside the pause loop: the stop flag does not end the wait. *)
Lemma pause_wait_ignores_stop :
  stopping st_paused_stopping = true
  /\ play exact_ratio (fun _ => blank_screen) 0 [hello_step]
       [st_running; st_paused_stopping; st_paused_stopping;
        st_paused_stopping]
     = ([], Pending).
Proof.
  split; reflexivity.
Qed.

(** C3, amended.  When the stop check before a step finds the flag
    clear, then as long as the polls of the pause loop find the pause flag
    set the player executes nothing and stays in the loop, whatever the
    stop flag is in those polls; at the first poll that finds the pause
    flag clear it executes the step and goes on with the rest. *)
Theorem pause_blocks_until_cleared (partial_ratio : string -> string -> Q)
    (screens : nat -> Screen) (pos : nat) (s : StepRow)
    (rows : list StepRow) (f0 : Flags) (ps : list Flags) :
  stopping f0 = false ->
  Forall (fun f => paused f = true) ps ->
  play partial_ratio screens pos (s :: rows) (f0 :: ps) = ([], Pending)
  /\ forall f1 rest,
       paused f1 = false ->
       exists eff,
         exec_step partial_ratio (screens pos) s = Ok eff
         /\ play partial_ratio screens pos (s :: rows)
              (f0 :: ps ++ f1 :: rest)
            = ((s, eff)
                 :: fst (play partial_ratio screens (S pos) rows rest),
               snd (play partial_ratio screens (S pos) rows rest)).
Proof.
  intros Hstop Hps. split.
  - simpl. now rewrite Hstop, (wait_unpaused_blocked ps Hps).
  - intros f1 rest Hf1.
    destruct (play_turn partial_ratio screens pos s rows
                (f0 :: ps ++ [f1]) rest (turn_reads f0 ps f1 Hstop Hps Hf1))
      as (eff & Heff & Hplay).
    exists eff. split; [ exact Heff | ].
    rewrite <- Hplay. simpl. now rewrite <- app_assoc.
Qed.

(** C4, as stated, fails: session 1 of [shuffled_db] has three steps.
    Step 1 completes; the stop check before step 2 finds the flag clear;
    the stop flag is set while the pause loop polls.  Step 2 is executed
    all the same, and the replay stops only at the check before step 3. *)
Lemma stop_during_pause_wait_runs_next_step :
  stopping st_running = false
  /\ stopping st_paused_stopping = true
  /\ stopping st_stopping = true
  /\ run_session exact_ratio shuffled_db 1 (fun _ => blank_screen)
       (quick_turn ++ [st_running; st_paused_stopping; st_stopping]
        ++ [st_stopping])
     = ([(submit_step, FallbackClick 100 205);
         (hello_step, TypeText "hello")], Stopped).
Proof.
  repeat split.
Qed.

(** C4, amended.  When the order indices of a session are distinct, the
    rows fetched are the rows of the session, each once, in strictly
    increasing order index.  Whatever the flags do, the rows a replay goes
    through are the first rows fetched, in that order.  When every stop
    check finds the flag clear and every pause ends, all rows are gone
    through and the replay finishes.  When the stop check after [k] rows,
    [k] below the number of rows, finds the flag set, exactly the first
    [k] rows are gone through, the replay returns and no later row is
    executed.  When that check finds the flag clear and the pause loop
    ends, row [k + 1] is gone through, whatever the stop flag is in the
    polls of the pause loop: a stop set after the check is seen at the
    next check only. *)
Theorem replay_visits_in_order (partial_ratio : string -> string -> Q)
    (db : Db) (sid : Z) (screens : nat -> Screen) :
  NoDup (map order_idx (steps_of sid db)) ->
  Permutation (select_steps db sid) (steps_of sid db)
  /\ StronglySorted Z.lt (map order_idx (select_steps db sid))
  /\ (forall reads,
        exists k,
          (k <= List.length (select_steps db sid))%nat
          /\ visited (run_session partial_ratio db sid screens reads)
             = firstn k (select_steps db sid))
  /\ (forall turns rest,
        Forall turn turns ->
        List.length turns = List.length (select_steps db sid) ->
        visited (run_session partial_ratio db sid screens
                   (List.concat turns ++ rest))
        = select_steps db sid
        /\ snd (run_session partial_ratio db sid screens
                  (List.concat turns ++ rest))
           = match select_steps db sid with
             | [] => NothingToRun
             | _ => Finished
             end)
  /\ (forall turns f rest,
        Forall turn turns ->
        (List.length turns < List.length (select_steps db sid))%nat ->
        stopping f = true ->
        visited (run_session partial_ratio db sid screens
                   (List.concat turns ++ f :: rest))
        = firstn (List.length turns) (select_steps db sid)
        /\ (List.length
              (visited (run_session partial_ratio db sid screens
                          (List.concat turns ++ f :: rest)))
            < List.length (select_steps db sid))%nat
        /\ snd (run_session partial_ratio db sid screens
                  (List.concat turns ++ f :: rest))
           = Stopped)
  /\ (forall turns f0 ps f1 rest,
        Forall turn turns ->
        (List.length turns < List.length (select_steps db sid))%nat ->
        stopping f0 = false ->
        Forall (fun f => paused f = true) ps ->
        paused f1 = false ->
        exists k,
          (List.length turns < k <= List.length (select_steps db sid))%nat
          /\ visited (run_session partial_ratio db sid screens
                        (List.concat turns ++ (f0 :: ps ++ [f1]) ++ rest))
             = firstn k (select_steps db sid)).
Proof.
  intro Hnodup.
  assert (Hperm : Permutation (select_steps db sid) (steps_of sid db))
    by apply order_by_order_idx_perm.
  split; [ exact Hperm | ].
  split.
  { apply sorted_nodup_strict.
    - apply order_by_order_idx_sorted.
    - eapply Permutation_NoDup; [ | exact Hnodup ].
      apply Permutation_map, Permutation_sym, Hperm. }
  unfold run_session.
  destruct (select_steps db sid) as [ | s rows ] eqn:Hrows.
  - split; [ | split; [ | split ] ].
    + intros _. exists 0%nat. split; [ lia | reflexivity ].
    + intros turns rest _ _. now split.
    + intros turns f rest _ Hlen. simpl in Hlen. lia.
    + intros turns f0 ps f1 rest _ Hlen. simpl in Hlen. lia.
  - split; [ | split; [ | split ] ].
    + intro reads. apply play_prefix.
    + intros turns rest Hturns Hlen. now apply play_all_turns.
    + intros turns f rest Hturns Hlen Hstop.
      destruct (play_stop_after partial_ratio screens turns (s :: rows) 0%nat
                  f rest Hturns Hlen Hstop) as [Hvis Hout].
      split; [ exact Hvis | split; [ | exact Hout ] ].
      rewrite Hvis, length_firstn. lia.
    + intros turns f0 ps f1 rest Hturns Hlen Hstop Hps Hf1.
      destruct (play_at_least partial_ratio screens
                  (turns ++ [f0 :: ps ++ [f1]]) (s :: rows) 0%nat rest)
        as (k & Hk & Hvis).
      * apply Forall_app. split; [ exact Hturns | ].
        constructor; [ now constructor | constructor ].
      * rewrite length_app. simpl in *. lia.
      * exists k. rewrite length_app in Hk.
        split; [ simpl in *; lia | ].
        rewrite concat_app in Hvis. simpl List.concat in Hvis.
        rewrite app_nil_r, <- app_assoc in Hvis. exact Hvis.
Qed.

(** * Instances *)

Lemma exact_ratio_range (a b : string) : (0 <= exact_ratio a b)%Q.
Proof.
  unfold exact_ratio. destruct (String.eqb a b); lra.
Qed.

Lemma quick_turn_is_turn : turn quick_turn.
Proof.
  exact (turn_reads st_running [] st_running eq_refl (Forall_nil _) eq_refl).
Qed.

Lemma paused_turn_is_turn : turn paused_turn.
Proof.
  apply (turn_reads st_running [st_paused; st_paused] st_running);
    [ reflexivity | repeat constructor | reflexivity ].
Qed.


(** A press in [training_system]. *)
Lemma on_click_records_on_press_witness :
  steps (conn (on_click 10 20 true "data/snaps/click_1.jpg"
                 (Some submit_props) training_system))
  = [{| step_id := 1; session_id := 1; order_idx := 0;
        action_type := "click"; text := None; x := Some 10; y := Some 20;
        bbox := Some [60; 190; 140; 220]; uia := Some submit_props;
        snap_path := Some "data/snaps/click_1.jpg" |}]
  /\ on_click 10 20 false "data/snaps/click_1.jpg" (Some submit_props)
       training_system = training_system.
Proof.
  exact (on_click_records_on_press training_system 10 20 1
           "data/snaps/click_1.jpg" (Some submit_props) eq_refl eq_refl).
Defined.

(** A wait of two polls, the second with the stop flag set too. *)
Lemma pause_blocks_until_cleared_witness :
  play exact_ratio (fun _ => blank_screen) 0 [hello_step; bare_click_step]
    [st_running; st_paused; st_paused_stopping] = ([], Pending)
  /\ forall f1 rest,
       paused f1 = false ->
       exists eff,
         exec_step exact_ratio blank_screen hello_step = Ok eff
         /\ play exact_ratio (fun _ => blank_screen) 0
              [hello_step; bare_click_step]
              (st_running :: [st_paused; st_paused_stopping] ++ f1 :: rest)
            = ((hello_step, eff)
                 :: fst (play exact_ratio (fun _ => blank_screen) 1
                           [bare_click_step] rest),
               snd (play exact_ratio (fun _ => blank_screen) 1
                      [bare_click_step] rest)).
Proof.
  apply (pause_blocks_until_cleared exact_ratio (fun _ => blank_screen) 0
           hello_step [bare_click_step] st_running
           [st_paused; st_paused_stopping]);
    [ reflexivity | repeat constructor ].
Defined.

(** Session 1 of [shuffled_db]: replayed to the end, stopped after two
    steps, and told to stop while the pause loop before step 2 polls. *)
Lemma replay_visits_in_order_witness :
  NoDup (map order_idx (steps_of 1 shuffled_db))
  /\ visited (run_session exact_ratio shuffled_db 1 (fun _ => blank_screen)
                (quick_turn ++ paused_turn ++ quick_turn))
     = [submit_step; hello_step; bare_click_step]
  /\ visited (run_session exact_ratio shuffled_db 1 (fun _ => blank_screen)
                (quick_turn ++ paused_turn ++ [st_stopping; st_running]))
     = [submit_step; hello_step]
  /\ exists k,
       (1 < k <= 3)%nat
       /\ visited (run_session exact_ratio shuffled_db 1
                     (fun _ => blank_screen)
                     (quick_turn
                      ++ [st_running; st_paused_stopping; st_stopping]
                      ++ [st_stopping]))
          = firstn k [submit_step; hello_step; bare_click_step].
Proof.
  assert (Hnd : NoDup (map order_idx (steps_of 1 shuffled_db))).
  { repeat (constructor; [ simpl; intuition discriminate | ]).
    constructor. }
  split; [ exact Hnd | ].
  destruct (replay_visits_in_order exact_ratio shuffled_db 1
              (fun _ => blank_screen) Hnd)
    as (_ & _ & _ & Hall & Hstop & Hlate).
  split; [ | split ];
    [ | | apply (Hlate [quick_turn] st_running [st_paused_stopping]
                   st_stopping [st_stopping]);
          [ repeat constructor; exact quick_turn_is_turn
          | simpl; lia | reflexivity | repeat constructor | reflexivity ] ].
  - exact (proj1 (Hall [quick_turn; paused_turn; quick_turn] []
                    (Forall_cons _ quick_turn_is_turn
                       (Forall_cons _ paused_turn_is_turn
                          (Forall_cons _ quick_turn_is_turn
                             (Forall_nil _))))
                    eq_refl)).
  - refine (proj1 (Hstop [quick_turn; paused_turn] st_stopping [st_running]
                     (Forall_cons _ quick_turn_is_turn
                        (Forall_cons _ paused_turn_is_turn (Forall_nil _)))
                     _ eq_refl)).
    simpl. lia.
Defined.

(** One line above the floor is returned with its confidence; lines
    below the floor give no region. *)
Lemma ocr_find_best_confidence_floor_witness :
  (40 <= b_conf submit_box)%Q
  /\ ocr_find_best exact_ratio (Some noise_rows) "Submit" = (None, -1 # 1).
Proof.
  split.
  - apply (proj1 (ocr_find_best_confidence_floor exact_ratio
                    (Some (noise_rows ++ [submit_row])) "Submit")
             submit_box (100 # 1)).
    reflexivity.
  - apply (proj2 (ocr_find_best_confidence_floor exact_ratio
                    (Some noise_rows) "Submit")).
    intros rows r [= <-] [<- | [<- | []]]; reflexivity.
Defined.

(** The walk [demo_walk]: the first Submit button wins over the second. *)
Lemma uia_find_best_first_maximum_witness :
  exists i e sc,
    nth_error demo_walk i = Some e
    /\ scored exact_ratio "Submit" None e = Some sc
    /\ uia_find_best exact_ratio demo_walk "Submit" None = (Some e, sc)
    /\ (forall e' sc', In e' demo_walk ->
                       scored exact_ratio "Submit" None e' = Some sc' ->
                       (sc' <= sc)%Q)
    /\ (forall j e' sc', (j < i)%nat -> nth_error demo_walk j = Some e' ->
                         scored exact_ratio "Submit" None e' = Some sc' ->
                         (sc' < sc)%Q).
Proof.
  apply (uia_find_best_first_maximum exact_ratio "Submit" None demo_walk).
  - reflexivity.
  - exact exact_ratio_range.
  - exists submit_button_left, (100 # 1).
    split; [ simpl; tauto | reflexivity ].
Defined.

(** Refusals in [running_system] and in [training_system]. *)
Lemma conflicting_mode_request_rejected_witness :
  (let w' := toggle_train "t1" running_system in
   STATE w' = STATE running_system /\ recorder w' = recorder running_system
   /\ conn w' = conn running_system /\ threads w' = threads running_system
   /\ console w' = console running_system
                   ++ [HotkeyTrainPressed; CannotTrainWhileRunning])
  /\ (let w' := do_run training_system in
      STATE w' = STATE training_system
      /\ recorder w' = recorder training_system
      /\ conn w' = conn training_system
      /\ threads w' = threads training_system
      /\ console w' = console training_system
                      ++ [HotkeyRunPressed; StopTrainFirst]).
Proof.
  split.
  - apply (proj1 (conflicting_mode_request_rejected "t1" running_system));
      reflexivity.
  - apply (proj2 (conflicting_mode_request_rejected "t1" training_system));
      reflexivity.
Defined.

(** The Submit button centred on the left edge is matched and passed
    over. *)
Lemma uia_zero_center_falls_through_witness :
  uia_find_best exact_ratio [submit_button_edge] "Submit" None
  = (Some submit_button_edge, 100 # 1)
  /\ center_of_bbox (Some (rect_list (-40, 10, 40, 50))) = Ok (Some (0, 30))
  /\ exec_step exact_ratio
       {| walk := [submit_button_edge]; ocr_data := Some [] |} submit_step
     = Ok (FallbackClick 100 205).
Proof.
  split; [ reflexivity | split; [ reflexivity | ] ].
  exact (proj1 (uia_zero_center_falls_through exact_ratio
                  {| walk := [submit_button_edge]; ocr_data := Some [] |}
                  submit_step submit_button_edge (100 # 1)
                  (-40, 10, 40, 50) 0 30
                  eq_refl eq_refl eq_refl eq_refl eq_refl
                  (or_introl eq_refl))).
Defined.

(** * Further properties *)

(** ** The matchers *)

(** A fold that keeps the first element of strictly greater score, from
    the pair (nothing, -1): either nothing scored above -1, or the result
    is the first element of maximal score. *)
Lemma fold_first_max {A : Type} (f : A -> Q)
    (pick : option A * Q -> A -> option A * Q) (l : list A) :
  (forall acc b,
     pick acc b = if Qltb (snd acc) (f b) then (Some b, f b) else acc) ->
  let r := fold_left pick l (None, -1 # 1) in
  (r = (None, -1 # 1) /\ forall b, In b l -> (f b <= -1 # 1)%Q)
  \/ (exists i b,
        nth_error l i = Some b
        /\ r = (Some b, f b)
        /\ (-1 # 1 < f b)%Q
        /\ (forall b', In b' l -> (f b' <= f b)%Q)
        /\ (forall j b', (j < i)%nat -> nth_error l j = Some b' ->
                         (f b' < f b)%Q)).
Proof.
  intro Hpick.
  induction l as [ | a l IH ] using rev_ind; simpl.
  - left. split; [ reflexivity | intros b [] ].
  - rewrite fold_left_app. simpl. rewrite Hpick.
    destruct IH as [[Hr Hall] | (i & b0 & Hi & Hr & Hpos & Hmax & Hfirst)];
      rewrite Hr; simpl.
    + destruct (Qltb (-1 # 1) (f a)) eqn:Hlt.
      * apply Qltb_true in Hlt. right.
        exists (List.length l), a. repeat split; auto.
        -- apply nth_error_snoc_last.
        -- intros b' Hin. apply in_app_or in Hin.
           destruct Hin as [Hin | [<- | []]]; [ | lra ].
           specialize (Hall _ Hin). lra.
        -- intros j b' Hj Hn.
           rewrite nth_error_snoc_lt in Hn by exact Hj.
           apply nth_error_In in Hn. specialize (Hall _ Hn). lra.
      * apply Qltb_false in Hlt. left. split; [ reflexivity | ].
        intros b' Hin. apply in_app_or in Hin.
        destruct Hin as [Hin | [<- | []]]; auto.
    + assert (Hil : (i < List.length l)%nat).
      { apply nth_error_Some. congruence. }
      destruct (Qltb (f b0) (f a)) eqn:Hlt.
      * apply Qltb_true in Hlt. right.
        exists (List.length l), a. repeat split; auto.
        -- apply nth_error_snoc_last.
        -- lra.
        -- intros b' Hin. apply in_app_or in Hin.
           destruct Hin as [Hin | [<- | []]]; [ | lra ].
           specialize (Hmax _ Hin). lra.
        -- intros j b' Hj Hn.
           rewrite nth_error_snoc_lt in Hn by exact Hj.
           apply nth_error_In in Hn. specialize (Hmax _ Hn). lra.
      * apply Qltb_false in Hlt. right.
        exists i, b0. repeat split; auto.
        -- now rewrite nth_error_snoc_lt.
        -- intros b' Hin. apply in_app_or in Hin.
           destruct Hin as [Hin | [<- | []]]; auto.
        -- intros j b' Hj Hn.
           rewrite nth_error_snoc_lt in Hn by lia. eauto.
Qed.

(** X1.  With an empty target text [uia_find_best] returns no element
    and the score -1, whatever the walk yields and whatever the type
    filter is. *)
Theorem uia_find_best_empty_target (partial_ratio : string -> string -> Q)
    (elems : list Control) (control_type : option string) :
  uia_find_best partial_ratio elems "" control_type = (None, -1 # 1).
Proof.
  unfold uia_find_best.
  induction elems as [ | e l IH ] using rev_ind; [ reflexivity | ].
  rewrite fold_left_app, IH. simpl. unfold visit.
  destruct (c_Name e), (c_ControlTypeName e); try reflexivity.
  destruct (type_rejected control_type s0); reflexivity.
Qed.

(** X2.  An element [uia_find_best] returns is an element of the walk
    whose two properties could be read, the score returned is the score of
    that element and is above -1, and under a non-empty type filter its
    control type is the filter; when no element is returned the score is
    -1. *)
Theorem uia_find_best_sound (partial_ratio : string -> string -> Q)
    (elems : list Control) (target_text : string)
    (control_type : option string) :
  (forall e sc,
     uia_find_best partial_ratio elems target_text control_type
     = (Some e, sc) ->
     In e elems
     /\ scored partial_ratio target_text control_type e = Some sc
     /\ (-1 # 1 < sc)%Q
     /\ (exists name, c_Name e = Some name)
     /\ (forall t, control_type = Some t -> t <> "" ->
                   c_ControlTypeName e = Some t))
  /\ (forall sc,
        uia_find_best partial_ratio elems target_text control_type
        = (None, sc) ->
        sc = -1 # 1).
Proof.
  destruct (uia_find_best_inv partial_ratio target_text control_type elems)
    as [[Hr _] | (i & e0 & sc0 & Hi & Hsc & Hr & Hpos & _)];
    rewrite Hr; split.
  - intros e sc [=].
  - now intros sc [= <-].
  - intros e sc [= <- <-].
    split; [ now apply nth_error_In in Hi | ].
    split; [ exact Hsc | split; [ exact Hpos | ] ].
    unfold scored in Hsc.
    destruct (c_Name e0) as [name | ]; [ | discriminate ].
    destruct (c_ControlTypeName e0) as [ctype | ]; [ | discriminate ].
    split; [ now exists name | ].
    intros t -> Ht. simpl in Hsc.
    assert (Htruthy : truthy_str t = true).
    { unfold truthy_str. apply negb_true_iff, String.eqb_neq, Ht. }
    rewrite Htruthy in Hsc. simpl in Hsc.
    destruct (String.eqb_spec ctype t) as [-> | _];
      [ reflexivity | discriminate ].
  - intros sc [=].
Qed.

(** X3.  For a scorer that is never negative, when some line survives
    [ocr_boxes], [ocr_find_best] returns a surviving box with its score,
    no surviving box scores higher and every surviving box before it
    scores strictly lower: ties go to the first box Tesseract listed. *)
Theorem ocr_find_best_first_maximum (partial_ratio : string -> string -> Q)
    (data : option (list OcrRow)) (target_text : string) :
  (forall a b, (0 <= partial_ratio a b)%Q) ->
  ocr_boxes data <> [] ->
  exists i b,
    nth_error (ocr_boxes data) i = Some b
    /\ ocr_find_best partial_ratio data target_text
       = (Some b, ocr_score partial_ratio target_text b)
    /\ (forall b', In b' (ocr_boxes data) ->
                   (ocr_score partial_ratio target_text b'
                    <= ocr_score partial_ratio target_text b)%Q)
    /\ (forall j b', (j < i)%nat ->
                     nth_error (ocr_boxes data) j = Some b' ->
                     (ocr_score partial_ratio target_text b'
                      < ocr_score partial_ratio target_text b)%Q).
Proof.
  intros Hrange Hboxes. unfold ocr_find_best.
  destruct (fold_first_max (ocr_score partial_ratio target_text)
              (ocr_pick partial_ratio target_text) (ocr_boxes data)
              (fun acc b => eq_refl))
    as [[_ Hall] | (i & b & Hi & Hr & _ & Hmax & Hfirst)].
  - exfalso. destruct (ocr_boxes data) as [ | b l ]; [ now apply Hboxes | ].
    specialize (Hall b (or_introl eq_refl)).
    specialize (Hrange (lower target_text) (lower (b_text b))).
    unfold ocr_score in Hall. lra.
  - exists i, b. repeat split; auto.
Qed.

Lemma ocr_find_best_line (partial_ratio : string -> string -> Q)
    (data : option (list OcrRow)) (target_text : string) (b : OcrBox)
    (s : Q) :
  ocr_find_best partial_ratio data target_text = (Some b, s) ->
  exists rows r q,
    data = Some rows /\ In r rows
    /\ o_text r = b_text b /\ b_text b <> ""
    /\ o_conf r = ConfNum q /\ b_conf b = q /\ (40 <= q)%Q
    /\ b_bbox b = (o_left r, o_top r, o_width r, o_height r).
Proof.
  intro Hbest. unfold ocr_find_best in Hbest.
  destruct (fold_ocr_pick_in partial_ratio target_text (ocr_boxes data)
              (None, -1 # 1)) as [Hnone | (b' & Hin & Hsome)];
    rewrite Hbest in *; simpl in *; [ discriminate | ].
  injection Hsome as ->.
  destruct data as [rows | ]; simpl in Hin; [ | destruct Hin ].
  apply in_flat_map in Hin. destruct Hin as (r & Hr & Hb).
  destruct (truthy_str (o_text r)) eqn:Htext; simpl in Hb; [ | destruct Hb ].
  destruct (Qltb (conf_value (o_conf r)) 40) eqn:Hconf; [ destruct Hb | ].
  destruct Hb as [<- | []]. apply Qltb_false in Hconf. simpl.
  assert (Hne : o_text r <> "").
  { apply String.eqb_neq. unfold truthy_str in Htext.
    now apply negb_true_iff in Htext. }
  destruct (o_conf r) as [ | | q ] eqn:Hcell; simpl in Hconf;
    try (exfalso; lra).
  exists rows, r, q. repeat split; auto.
Qed.

(** X4.  A box [ocr_find_best] returns was made from a line of the
    Tesseract table whose text is not empty and whose confidence cell is a
    number, at least 40 (never a line whose confidence is missing or the
    string -1); the box carries that text, that confidence and the line's
    left, top, width and height. *)
Theorem ocr_find_best_source_line (partial_ratio : string -> string -> Q)
    (data : option (list OcrRow)) (target_text : string) (b : OcrBox)
    (s : Q) :
  ocr_find_best partial_ratio data target_text = (Some b, s) ->
  exists rows r q,
    data = Some rows /\ In r rows
    /\ o_text r = b_text b /\ b_text b <> ""
    /\ o_conf r = ConfNum q /\ b_conf b = q /\ (40 <= q)%Q
    /\ b_bbox b = (o_left r, o_top r, o_width r, o_height r).
Proof.
  apply ocr_find_best_line.
Qed.

(** ** The resolver and its click points *)

Lemma int_half_between (a b : Z) :
  a <= b -> a <= int_half (a + b) <= b.
Proof.
  intro H. unfold int_half.
  pose proof (Z.quot_rem' (a + b) 2) as E.
  destruct (Z_le_gt_dec 0 (a + b)) as [Hpos | Hneg].
  - pose proof (Z.rem_bound_pos (a + b) 2 Hpos ltac:(lia)). lia.
  - pose proof (Z.rem_bound_pos_neg (a + b) 2 ltac:(lia) ltac:(lia)). lia.
Qed.

Lemma int_plus_half_between (b w : Z) :
  0 <= w -> b <= int_plus_half b w <= b + w.
Proof.
  intro H. unfold int_plus_half.
  pose proof (Z.quot_rem' (2 * b + w) 2) as E.
  destruct (Z_le_gt_dec 0 (2 * b + w)) as [Hpos | Hneg].
  - pose proof (Z.rem_bound_pos (2 * b + w) 2 Hpos ltac:(lia)). lia.
  - pose proof (Z.rem_bound_pos_neg (2 * b + w) 2 ltac:(lia) ltac:(lia)). lia.
Qed.

(** X5.  For a rectangle (left, top, right, bottom) with left <= right
    and top <= bottom, whose coordinates are at most 2^52 in size (so that
    the division by two is exact in double precision),
    [center_of_bbox] returns a point and that point lies in the rectangle,
    negative coordinates included. *)
Theorem center_of_bbox_inside (l t r b : Z) :
  - exact_float_limit <= l -> r <= exact_float_limit ->
  - exact_float_limit <= t -> b <= exact_float_limit ->
  l <= r -> t <= b ->
  exists cx cy,
    center_of_bbox (Some [l; t; r; b]) = Ok (Some (cx, cy))
    /\ l <= cx <= r /\ t <= cy <= b.
Proof.
  intros _ _ _ _ Hx Hy. exists (int_half (l + r)), (int_half (t + b)).
  split; [ reflexivity | ].
  split; now apply int_half_between.
Qed.

(** X6.  [center_of_bbox] returns no point for [None] and for the empty
    list, raises [IndexError] exactly on the lists of one, two or three
    numbers, and on a list of five or more reads the first four as
    (left, top, width, height). *)
Theorem center_of_bbox_edges (bbox : list Z) :
  center_of_bbox None = Ok None
  /\ (center_of_bbox (Some bbox) = Ok None <-> bbox = [])
  /\ (center_of_bbox (Some bbox) = Raise IndexError
      <-> (1 <= List.length bbox <= 3)%nat)
  /\ (forall l t w h v rest,
        bbox = l :: t :: w :: h :: v :: rest ->
        center_of_bbox (Some bbox) = Ok (Some (spec_center_ltwh l t w h))).
Proof.
  split; [ reflexivity | ].
  destruct bbox as [ | b0 [ | b1 [ | b2 [ | b3 [ | b4 rest ] ] ] ] ];
    simpl; repeat split; try discriminate; try lia; try reflexivity;
    try (intros; discriminate); try (intros; lia).
  intros l t w h v rest0 [= -> -> -> -> -> ->]. reflexivity.
Qed.

Lemma exec_step_click (partial_ratio : string -> string -> Q)
    (scr : Screen) (s : StepRow) :
  action_type s = "click" ->
  exec_step partial_ratio scr s = resolve_click partial_ratio scr s.
Proof.
  intro H. unfold exec_step. now rewrite H.
Qed.

(** X7.  Tier order: when the UIA search matches an element that
    reports a rectangle whose centre has both coordinates non-zero, the
    step is clicked at that centre as a UIA click, whatever Tesseract
    would read off the screen. *)
Theorem uia_hit_wins_over_ocr (partial_ratio : string -> string -> Q)
    (scr : Screen) (s : StepRow) (e : Control) (score : Q)
    (rect : Z * Z * Z * Z) (cx cy : Z) :
  action_type s = "click" ->
  truthy_str (target_name_of s) = true ->
  uia_find_best partial_ratio (walk scr) (target_name_of s) None
  = (Some e, score) ->
  c_BoundingRectangle e = Some rect ->
  center_of_bbox (Some (rect_list rect)) = Ok (Some (cx, cy)) ->
  cx <> 0 -> cy <> 0 ->
  forall ocr,
    exec_step partial_ratio {| walk := walk scr; ocr_data := ocr |} s
    = Ok (UiaClick (target_name_of s) score cx cy).
Proof.
  intros Hact Htarget Hbest Hrect Hcenter Hx Hy ocr.
  rewrite exec_step_click by exact Hact.
  unfold resolve_click. cbn [walk].
  rewrite Htarget, Hbest, Hrect, Hcenter. cbn [bind].
  apply Z.eqb_neq in Hx, Hy. now rewrite Hx, Hy.
Qed.

(** X8.  Fall through to the recorded position: a click step whose
    descriptor has no name, or for which the UIA search returns no element
    and no OCR line survives, is clicked at its recorded coordinates when
    it has both, and is reported unresolved with its order index when it
    lacks one; in the first case neither the walk nor the OCR table is
    looked at. *)
Theorem click_falls_back_to_recorded_position
    (partial_ratio : string -> string -> Q) (scr : Screen) (s : StepRow) :
  action_type s = "click" ->
  target_name_of s = ""
  \/ (fst (uia_find_best partial_ratio (walk scr) (target_name_of s) None)
      = None
      /\ ocr_boxes (ocr_data scr) = []) ->
  exec_step partial_ratio scr s
  = Ok (match x s, y s with
        | Some px, Some py => FallbackClick px py
        | _, _ => Unresolved (order_idx s)
        end).
Proof.
  intros Hact H. rewrite exec_step_click by exact Hact.
  unfold resolve_click, ocr_click. fold (recorded_click s).
  destruct H as [Hname | [Huia Hocr]].
  - rewrite Hname. reflexivity.
  - destruct (truthy_str (target_name_of s)); [ | reflexivity ].
    destruct (uia_find_best _ _ _ _) as [elem score]. simpl in Huia.
    subst elem. unfold ocr_find_best. rewrite Hocr. reflexivity.
Qed.

Lemma resolve_click_cases (partial_ratio : string -> string -> Q)
    (scr : Screen) (s : StepRow) :
  resolve_click partial_ratio scr s
  = Ok (ocr_click partial_ratio scr (target_name_of s) s)
  \/ (exists e score l t r b,
        truthy_str (target_name_of s) = true
        /\ uia_find_best partial_ratio (walk scr) (target_name_of s) None
           = (Some e, score)
        /\ c_BoundingRectangle e = Some (l, t, r, b)
        /\ int_half (l + r) <> 0 /\ int_half (t + b) <> 0
        /\ resolve_click partial_ratio scr s
           = Ok (UiaClick (target_name_of s) score
                   (int_half (l + r)) (int_half (t + b)))).
Proof.
  unfold resolve_click.
  destruct (truthy_str (target_name_of s)) eqn:Htarget; [ | now left ].
  destruct (uia_find_best _ _ _ _) as [[e | ] score] eqn:Hbest;
    [ | now left ].
  destruct (c_BoundingRectangle e) as [[[[l t] r] b] | ] eqn:Hrect;
    [ | now left ].
  simpl.
  destruct (Z.eqb_spec (int_half (l + r)) 0) as [Hx | Hx]; [ now left | ].
  destruct (Z.eqb_spec (int_half (t + b)) 0) as [Hy | Hy]; [ now left | ].
  right. exists e, score, l, t, r, b. simpl. repeat split; auto.
Qed.

(** X9.  Where a resolved click lands.  An OCR click lands on a line of
    the Tesseract table with confidence at least 40, inside its box when
    width and height are not negative.  A UIA click lands on an element of
    the walk, inside its rectangle when left <= right and top <= bottom,
    and never on a point with a zero coordinate. *)
Theorem click_lands_on_its_match (partial_ratio : string -> string -> Q)
    (scr : Screen) (s : StepRow) (name : string) (score : Q) (cx cy : Z) :
  (exec_step partial_ratio scr s = Ok (OcrClick name score cx cy) ->
   exists rows r,
     ocr_data scr = Some rows /\ In r rows
     /\ (40 <= conf_value (o_conf r))%Q
     /\ (0 <= o_width r -> o_left r <= cx <= o_left r + o_width r)
     /\ (0 <= o_height r -> o_top r <= cy <= o_top r + o_height r))
  /\ (exec_step partial_ratio scr s = Ok (UiaClick name score cx cy) ->
      exists e l t r b,
        In e (walk scr) /\ c_BoundingRectangle e = Some (l, t, r, b)
        /\ cx <> 0 /\ cy <> 0
        /\ (l <= r -> l <= cx <= r)
        /\ (t <= b -> t <= cy <= b)).
Proof.
  unfold exec_step.
  destruct (String.eqb (action_type s) "click");
    [ | destruct (String.eqb (action_type s) "type");
        split; discriminate ].
  split; intro Hexec.
  - assert (Hocr : ocr_click partial_ratio scr (target_name_of s) s
                   = OcrClick name score cx cy).
    { destruct (resolve_click_cases partial_ratio scr s)
        as [E | (e & sc & l & t & r & b & _ & _ & _ & _ & _ & E)];
        rewrite E in Hexec; [ now injection Hexec | discriminate ]. }
    unfold ocr_click, recorded_click in Hocr.
    destruct (truthy_str (target_name_of s));
      [ | destruct (x s), (y s); discriminate ].
    destruct (ocr_find_best _ _ _) as [[box | ] oscore] eqn:Hbest;
      [ | destruct (x s), (y s); discriminate ].
    destruct (ocr_find_best_line _ _ _ _ _ Hbest)
      as (rows & r & q & Hdata & Hin & _ & _ & Hcell & _ & Hq & Hbbox).
    rewrite Hbbox in Hocr. injection Hocr as _ _ <- <-.
    exists rows, r. rewrite Hcell. simpl.
    repeat split; auto; now apply int_plus_half_between.
  - destruct (resolve_click_cases partial_ratio scr s)
      as [E | (e & sc & l & t & r & b & _ & Hbest & Hrect & Hx & Hy & E)];
      rewrite E in Hexec.
    + injection Hexec as Hexec. now apply ocr_click_not_uia in Hexec.
    + injection Hexec as _ _ <- <-.
      exists e, l, t, r, b.
      destruct (uia_find_best_inv partial_ratio (target_name_of s) None
                  (walk scr))
        as [[Hr _] | (i & e0 & sc0 & Hi & _ & Hr & _)];
        rewrite Hbest in Hr; [ discriminate | ].
      injection Hr as -> _. apply nth_error_In in Hi.
      repeat split; auto; now apply int_half_between.
Qed.

(** ** Row ids *)

Lemma fold_max_nonneg (l : list Z) : 0 <= fold_right Z.max 0 l.
Proof.
  induction l as [ | a l IH ]; cbn [fold_right]; lia.
Qed.

Lemma fold_max_in (l : list Z) :
  fold_right Z.max 0 l = 0 \/ In (fold_right Z.max 0 l) l.
Proof.
  induction l as [ | a l IH ]; cbn [fold_right]; [ now left | ].
  destruct (Z.max_spec a (fold_right Z.max 0 l)) as [[_ E] | [_ E]];
    rewrite E.
  - destruct IH as [IH | IH]; [ now left | right; now right ].
  - right. now left.
Qed.

Lemma in_ids_from_one (l : list Z) (i : Z) :
  ids_from_one l -> (In i l <-> 1 <= i <= Z.of_nat (List.length l)).
Proof.
  intro H. unfold ids_from_one in H. rewrite H at 1.
  rewrite in_map_iff. split.
  - intros (n & <- & Hn). apply in_seq in Hn. lia.
  - intro Hi. exists (Z.to_nat i). split; [ lia | ].
    apply in_seq. lia.
Qed.

Lemma next_rowid_ids_from_one (l : list Z) :
  ids_from_one l -> next_rowid l = Z.of_nat (List.length l) + 1.
Proof.
  intro H. unfold next_rowid.
  assert (Hlow : Z.of_nat (List.length l) <= fold_right Z.max 0 l).
  { destruct l as [ | a l' ] eqn:E; [ simpl; lia | rewrite <- E in * ].
    assert (Hin : In (Z.of_nat (List.length l)) l).
    { apply in_ids_from_one; [ exact H | ]. subst l. simpl. lia. }
    apply next_rowid_above in Hin. unfold next_rowid in Hin. lia. }
  destruct (fold_max_in l) as [E | Hin].
  - lia.
  - apply in_ids_from_one in Hin; [ lia | exact H ].
Qed.

Lemma ids_from_one_snoc (l : list Z) :
  ids_from_one l -> ids_from_one (l ++ [next_rowid l]).
Proof.
  intro H. rewrite (next_rowid_ids_from_one l H).
  unfold ids_from_one in *.
  rewrite length_app. simpl. rewrite Nat.add_1_r, seq_S, map_app. simpl.
  rewrite <- H. do 2 f_equal. lia.
Qed.

Lemma latest_session_spec (db : Db) :
  match latest_session db with
  | None => sessions db = []
  | Some m => In m (map sess_id (sessions db))
              /\ forall i, In i (map sess_id (sessions db)) -> i <= m
  end.
Proof.
  unfold latest_session. destruct (sessions db) as [ | r l ];
    [ reflexivity | ].
  cbn [map]. generalize (sess_id r) as a. generalize (map sess_id l) as ids.
  induction ids as [ | b ids IH ]; intro a; cbn [fold_right].
  - split; [ now left | ]. intros i [<- | []]. lia.
  - destruct (IH a) as [Hin Hmax]. split.
    + destruct (Z.max_spec b (fold_right Z.max a ids)) as [[_ E] | [_ E]];
        rewrite E.
      * destruct Hin as [Hin | Hin]; [ now left | right; now right ].
      * right. now left.
    + intros i [<- | [<- | Hi]].
      * specialize (Hmax a (or_introl eq_refl)). lia.
      * lia.
      * specialize (Hmax i (or_intror Hi)). lia.
Qed.

Lemma latest_session_ids_from_one (db : Db) :
  ids_from_one (map sess_id (sessions db)) ->
  sessions db <> [] ->
  latest_session db = Some (Z.of_nat (List.length (sessions db))).
Proof.
  intros Hids Hne. pose proof (latest_session_spec db) as H.
  destruct (latest_session db) as [m | ]; [ | contradiction ].
  destruct H as [Hin Hmax]. f_equal.
  apply (in_ids_from_one _ _ Hids) in Hin. rewrite length_map in Hin.
  assert (Hn : In (Z.of_nat (List.length (sessions db)))
                  (map sess_id (sessions db))).
  { apply (in_ids_from_one _ _ Hids). rewrite length_map.
    destruct (sessions db); [ contradiction | simpl; lia ]. }
  specialize (Hmax _ Hn). lia.
Qed.

(** ** Stripped text *)

(** The separators 28 to 31, next line and the no-break space are
    stripped like the space; the letters around them stay. *)
Lemma strip_separators :
  strip (String (ascii_of_nat 29) "") = ""
  /\ strip (String (ascii_of_nat 28) "a") = "a"
  /\ strip (String (ascii_of_nat 160) (String "a" (String (ascii_of_nat 133) "")))
     = "a"
  /\ strip "a b" = "a b".
Proof.
  repeat split.
Qed.

(** Lower case below code point 256: A to Z and the capitals of
    Latin-1; the multiplication sign, the sharp s and the digits stay. *)
Lemma lower_latin1 :
  lower "Submit" = "submit"
  /\ lower (String (ascii_of_nat 201) "") = String (ascii_of_nat 233) ""
  /\ lower (String (ascii_of_nat 215) "") = String (ascii_of_nat 215) ""
  /\ lower (String (ascii_of_nat 223) "7") = String (ascii_of_nat 223) "7".
Proof.
  repeat split.
Qed.

Lemma lstrip_head (s : string) :
  lstrip s = ""
  \/ exists c t, lstrip s = String c t /\ is_space c = false.
Proof.
  induction s as [ | c s IH ]; simpl; [ now left | ].
  destruct (is_space c) eqn:E; [ exact IH | ].
  right. now exists c, s.
Qed.

Lemma rstrip_idempotent (s : string) : rstrip (rstrip s) = rstrip s.
Proof.
  induction s as [ | c s IH ]; simpl; [ reflexivity | ].
  destruct (rstrip s) as [ | d t ] eqn:E.
  - destruct (is_space c) eqn:Hc; simpl; [ reflexivity | ].
    now rewrite Hc.
  - simpl in *. now rewrite IH.
Qed.

Lemma rstrip_head (c : ascii) (t : string) :
  is_space c = false -> exists t', rstrip (String c t) = String c t'.
Proof.
  intro Hc. simpl. destruct (rstrip t) as [ | d u ].
  - rewrite Hc. now exists "".
  - now exists (String d u).
Qed.

Lemma strip_idempotent (s : string) : strip (strip s) = strip s.
Proof.
  unfold strip.
  destruct (lstrip_head s) as [E | (c & t & E & Hc)]; rewrite E.
  - reflexivity.
  - destruct (rstrip_head c t Hc) as [t' E'].
    rewrite E'. rewrite <- E'. cbn [lstrip]. rewrite E'. cbn [lstrip].
    rewrite Hc. rewrite <- E'. apply rstrip_idempotent.
Qed.

Lemma truthy_str_nonempty (s : string) : truthy_str s = true <-> s <> "".
Proof.
  unfold truthy_str. rewrite negb_true_iff. apply String.eqb_neq.
Qed.

(** ** What the handlers keep *)

Lemma record_step_tables (action : string) (txt : option string)
    (px py : option Z) (info : option UiaProps) (box : option (list Z))
    (snap : option string) (w : System) :
  sessions (conn (record_step action txt px py info box snap w))
  = sessions (conn w)
  /\ steps (conn (record_step action txt px py info box snap w))
     = steps (conn w)
       ++ match rec_session_id (recorder w) with
          | Some sid =>
              [{| step_id := next_rowid (map step_id (steps (conn w)));
                  session_id := sid;
                  order_idx := rec_order_idx (recorder w);
                  action_type := action; text := txt; x := px; y := py;
                  bbox := if truthy_list box then box else None;
                  uia := info; snap_path := snap |}]
          | None => []
          end
  /\ STATE (record_step action txt px py info box snap w) = STATE w
  /\ rec_session_id (recorder (record_step action txt px py info box snap w))
     = rec_session_id (recorder w)
  /\ buffer_typed (recorder (record_step action txt px py info box snap w))
     = buffer_typed (recorder w)
  /\ threads (record_step action txt px py info box snap w) = threads w.
Proof.
  unfold record_step.
  destruct (rec_session_id (recorder w)) as [sid | ] eqn:E; simpl.
  - now rewrite E.
  - now rewrite E, app_nil_r.
Qed.

Lemma controller_inv_record_step (action : string) (txt : option string)
    (px py : option Z) (info : option UiaProps) (box : option (list Z))
    (snap : option string) (w : System) :
  controller_inv w ->
  controller_inv (record_step action txt px py info box snap w).
Proof.
  intros (Hmode & Hsess & Hsteps & Hopen).
  destruct (record_step_tables action txt px py info box snap w)
    as (Es & Et & Ef & Er & _ & _).
  unfold controller_inv. rewrite Es, Et, Ef, Er.
  repeat split; try apply Hmode; auto.
  destruct (rec_session_id (recorder w)); [ | now rewrite app_nil_r ].
  rewrite map_app. simpl. now apply ids_from_one_snoc.
Qed.

Lemma controller_inv_start_session (now : string) (w : System) :
  training (STATE w) = true ->
  ids_from_one (map sess_id (sessions (conn w))) ->
  ids_from_one (map step_id (steps (conn w))) ->
  controller_inv (start_session now w).
Proof.
  intros Htrain Hsess Hsteps. unfold controller_inv, start_session. simpl.
  repeat split; auto; try discriminate.
  - rewrite map_app. simpl. now apply ids_from_one_snoc.
  - intros sid [= <-].
    rewrite (next_rowid_ids_from_one _ Hsess), length_app, length_map.
    simpl. lia.
Qed.

Lemma controller_inv_end_session (w : System) :
  training (STATE w) = false ->
  ids_from_one (map sess_id (sessions (conn w))) ->
  ids_from_one (map step_id (steps (conn w))) ->
  controller_inv (end_session w).
Proof.
  intros Htrain Hsess Hsteps. unfold controller_inv, end_session. simpl.
  repeat split; auto; try discriminate; try congruence.
Qed.

Lemma controller_inv_handle (w : System) (ev : Event) :
  controller_inv w -> controller_inv (handle w ev).
Proof.
  intro H. pose proof H as (Hmode & Hsess & Hsteps & Hopen).
  destruct ev as [now | | | | px py pressed snap props | key
                 | key snap | sid | | ]; simpl.
  - unfold toggle_train. simpl.
    destruct (training (STATE w)) eqn:Htrain;
      [ | destruct (running (STATE w)) ].
    + now apply (controller_inv_end_session
                   (set_STATE (set_training false (STATE w))
                      (print HotkeyTrainPressed w))).
    + exact H.
    + now apply (controller_inv_start_session now
                   (set_STATE (set_training true (STATE w))
                      (print HotkeyTrainPressed w))).
  - unfold do_run. simpl.
    destruct (training (STATE w)); [ exact H | ].
    destruct (running (STATE w)); [ exact H | ].
    destruct (latest_session (conn w)); exact H.
  - exact H.
  - exact H.
  - unfold on_click.
    destruct (negb (training (STATE w))); [ exact H | ].
    destruct (negb pressed); [ exact H | ].
    now apply controller_inv_record_step.
  - unfold on_press.
    destruct (negb (training (STATE w))); [ exact H | ].
    destruct key as [[c | ] | | | | ]; exact H.
  - unfold on_release.
    destruct (negb (training (STATE w))); [ exact H | ].
    destruct key; try exact H;
      (destruct (truthy_str _);
       [ now apply controller_inv_record_step | exact H ]).
  - exact H.
  - exact H.
  - unfold controller_inv. simpl. repeat split; auto; try discriminate.
Qed.

Lemma controller_inv_after (evs : list Event) : controller_inv (after evs).
Proof.
  unfold after.
  assert (H0 : controller_inv (boot empty_db)).
  { unfold controller_inv. simpl.
    repeat split; try discriminate; try reflexivity.
    all: try (intro E; now contradiction E). }
  revert H0. generalize (boot empty_db) as w.
  induction evs as [ | ev evs IH ]; intros w H; simpl; [ exact H | ].
  now apply IH, controller_inv_handle.
Qed.

(** X10.  After any history the training flag is set exactly while the
    recorder has a session open, and the open session is the one [do_run]
    would pick as latest; so in training every press of the mouse button
    adds exactly one click row, with the position and descriptor of that
    press, to the newest session. *)
Theorem training_has_open_session (evs : list Event) :
  (training (STATE (after evs)) = true
   <-> exists sid, rec_session_id (recorder (after evs)) = Some sid)
  /\ (forall sid, rec_session_id (recorder (after evs)) = Some sid ->
                  latest_session (conn (after evs)) = Some sid)
  /\ (training (STATE (after evs)) = true ->
      forall px py snap props,
      exists row,
        steps (conn (on_click px py true snap props (after evs)))
        = steps (conn (after evs)) ++ [row]
        /\ action_type row = "click"
        /\ x row = Some px /\ y row = Some py /\ uia row = props
        /\ latest_session (conn (after evs)) = Some (session_id row)).
Proof.
  destruct (controller_inv_after evs) as (Hmode & Hsess & _ & Hopen).
  assert (Hlatest : forall sid,
             rec_session_id (recorder (after evs)) = Some sid ->
             latest_session (conn (after evs)) = Some sid).
  { intros sid Hsid. rewrite (Hopen sid Hsid).
    apply latest_session_ids_from_one; [ exact Hsess | ].
    destruct (recorder_inv_after evs) as (_ & _ & Hc).
    destruct (Hc sid Hsid) as [Hin _].
    intro E. rewrite E in Hin. destruct Hin. }
  split; [ | split; [ exact Hlatest | ] ].
  - rewrite Hmode.
    destruct (rec_session_id (recorder (after evs))) as [sid | ].
    + split; [ intros _; now exists sid | discriminate ].
    + split; [ intro E; now contradiction E | intros [sid E]; discriminate ].
  - intros Htrain px py snap props.
    destruct (rec_session_id (recorder (after evs))) as [sid | ] eqn:Hsid;
      [ | exfalso; now apply Hmode in Htrain ].
    unfold on_click. rewrite Htrain. simpl.
    destruct (record_step_tables "click" None (Some px) (Some py) props
                match props with
                | Some p => BoundingRectangle p
                | None => None
                end (Some snap) (after evs)) as (_ & -> & _).
    rewrite Hsid. eexists. split; [ reflexivity | ]. simpl.
    repeat split. now apply Hlatest.
Qed.

Lemma handle_grows (w : System) (ev : Event) :
  exists ns nt,
    sessions (conn (handle w ev)) = sessions (conn w) ++ ns
    /\ steps (conn (handle w ev)) = steps (conn w) ++ nt
    /\ (List.length ns + List.length nt <= 1)%nat.
Proof.
  assert (Hsame : forall w', conn w' = conn w ->
            exists ns nt,
              sessions (conn w') = sessions (conn w) ++ ns
              /\ steps (conn w') = steps (conn w) ++ nt
              /\ (List.length ns + List.length nt <= 1)%nat).
  { intros w' ->. exists [], []. rewrite !app_nil_r. simpl.
    repeat split; lia. }
  assert (Hrec : forall a t px py u b sn w',
            conn w' = conn w ->
            exists ns nt,
              sessions (conn (record_step a t px py u b sn w'))
              = sessions (conn w) ++ ns
              /\ steps (conn (record_step a t px py u b sn w'))
                 = steps (conn w) ++ nt
              /\ (List.length ns + List.length nt <= 1)%nat).
  { intros a t px py u b sn w' E.
    destruct (record_step_tables a t px py u b sn w') as (-> & -> & _).
    rewrite E. exists []. eexists. rewrite app_nil_r.
    split; [ reflexivity | split; [ reflexivity | ] ].
    destruct (rec_session_id (recorder w')); simpl; lia. }
  destruct ev as [now | | | | px py pressed snap props | key
                 | key snap | sid | | ]; simpl.
  - unfold toggle_train. simpl.
    destruct (training (STATE w)); [ | destruct (running (STATE w)) ].
    + now apply Hsame.
    + now apply Hsame.
    + unfold start_session. simpl.
      exists [{| sess_id := next_rowid (map sess_id (sessions (conn w)));
                 ts := now; sess_name := None |}], [].
      split; [ reflexivity | split; [ now rewrite app_nil_r | simpl; lia ] ].
  - unfold do_run. simpl.
    destruct (training (STATE w)); [ now apply Hsame | ].
    destruct (running (STATE w)); [ now apply Hsame | ].
    destruct (latest_session (conn w)); now apply Hsame.
  - now apply Hsame.
  - now apply Hsame.
  - unfold on_click.
    destruct (negb (training (STATE w))); [ now apply Hsame | ].
    destruct (negb pressed); [ now apply Hsame | ].
    now apply Hrec.
  - unfold on_press.
    destruct (negb (training (STATE w))); [ now apply Hsame | ].
    destruct key as [[c | ] | | | | ]; now apply Hsame.
  - unfold on_release.
    destruct (negb (training (STATE w))); [ now apply Hsame | ].
    destruct key; try (now apply Hsame);
      (destruct (truthy_str _); [ now apply Hrec | now apply Hsame ]).
  - now apply Hsame.
  - now apply Hsame.
  - now apply Hsame.
Qed.

(** X11.  The tables only grow: whatever events follow, both tables
    still start with exactly the rows they had, in the same order, and
    every event adds at most one row in all.  No handler deletes or
    changes a recorded row. *)
Theorem tables_only_grow (w : System) (evs : list Event) :
  exists ns nt,
    sessions (conn (fold_left handle evs w)) = sessions (conn w) ++ ns
    /\ steps (conn (fold_left handle evs w)) = steps (conn w) ++ nt
    /\ (List.length ns + List.length nt <= List.length evs)%nat.
Proof.
  revert w. induction evs as [ | ev evs IH ]; intro w; simpl.
  - exists [], []. rewrite !app_nil_r. repeat split. simpl. lia.
  - destruct (IH (handle w ev)) as (ns2 & nt2 & Es2 & Et2 & Hlen2).
    destruct (handle_grows w ev) as (ns1 & nt1 & Es1 & Et1 & Hlen1).
    exists (ns1 ++ ns2), (nt1 ++ nt2).
    rewrite Es2, Et2, Es1, Et1, <- !app_assoc, !length_app.
    repeat split. lia.
Qed.

Lemma recorded_ok_handle (w : System) (ev : Event) :
  Forall recorded_ok (steps (conn w)) ->
  Forall recorded_ok (steps (conn (handle w ev))).
Proof.
  intro H.
  destruct ev as [now | | | | px py pressed snap props | key
                 | key snap | sid | | ]; simpl; try exact H.
  - unfold toggle_train. simpl.
    destruct (training (STATE w)); [ | destruct (running (STATE w)) ];
      exact H.
  - unfold do_run. simpl.
    destruct (training (STATE w)); [ exact H | ].
    destruct (running (STATE w)); [ exact H | ].
    destruct (latest_session (conn w)); exact H.
  - unfold on_click.
    destruct (negb (training (STATE w))); [ exact H | ].
    destruct (negb pressed); [ exact H | ].
    destruct (record_step_tables "click" None (Some px) (Some py) props
                match props with
                | Some p => BoundingRectangle p
                | None => None
                end (Some snap) w) as (_ & -> & _).
    apply Forall_app. split; [ exact H | ].
    destruct (rec_session_id (recorder w)); constructor; [ | constructor ].
    left. simpl. repeat split; eauto.
    destruct props as [p | ]; [ | discriminate ].
    destruct (BoundingRectangle p) as [[ | b l] | ]; discriminate.
  - unfold on_press.
    destruct (negb (training (STATE w))); [ exact H | ].
    destruct key as [[c | ] | | | | ]; exact H.
  - unfold on_release.
    destruct (negb (training (STATE w))); [ exact H | ].
    destruct key; try exact H;
      (destruct (truthy_str _) eqn:Htext; [ | exact H ];
       match goal with
       | |- context [record_step ?a ?t ?px ?py ?u ?b ?sn ?w'] =>
           destruct (record_step_tables a t px py u b sn w') as (_ & -> & _)
       end;
       apply Forall_app; split; [ exact H | ];
       simpl; destruct (rec_session_id (recorder w));
       constructor; [ | constructor ];
       right; simpl; repeat split; eauto;
       eexists; split; [ reflexivity | ];
       split; [ now apply truthy_str_nonempty | apply strip_idempotent ]).
Qed.

Lemma recorded_rows_well_formed_aux (evs : list Event) :
  Forall recorded_ok (steps (conn (after evs))).
Proof.
  unfold after.
  assert (H0 : Forall recorded_ok (steps (conn (boot empty_db))))
    by constructor.
  revert H0. generalize (boot empty_db) as w.
  induction evs as [ | ev evs IH ]; intros w H; simpl; [ exact H | ].
  now apply IH, recorded_ok_handle.
Qed.

(** X12.  Every row of table [steps] after any history has one of two
    shapes: a click with its position, no text and a snapshot path, whose
    rectangle is never the empty list; or a typed text that is not empty
    and has no blank at either end, with no position, no rectangle and no
    descriptor.  A click without a position is never stored. *)
Theorem recorded_rows_well_formed (evs : list Event) (s : StepRow) :
  In s (steps (conn (after evs))) -> recorded_ok s.
Proof.
  intro Hin. pose proof (recorded_rows_well_formed_aux evs) as H.
  rewrite Forall_forall in H. now apply H.
Qed.

(** ** Replaying what was recorded *)

Lemma play_log_entry (partial_ratio : string -> string -> Q)
    (screens : nat -> Screen) (rows : list StepRow) (pos : nat)
    (reads : list Flags) (s : StepRow) (eff : Effect) :
  In (s, eff) (fst (play partial_ratio screens pos rows reads)) ->
  In s rows /\ exists p, exec_step partial_ratio (screens p) s = Ok eff.
Proof.
  revert pos reads. induction rows as [ | r rows IH ]; intros pos reads;
    simpl; [ tauto | ].
  destruct reads as [ | f reads1 ]; [ simpl; tauto | ].
  destruct (stopping f); [ simpl; tauto | ].
  destruct (wait_unpaused reads1) as [reads2 | ]; [ | simpl; tauto ].
  destruct (exec_step partial_ratio (screens pos) r) as [eff0 | e] eqn:Hexec;
    [ | simpl; tauto ].
  destruct (play partial_ratio screens (S pos) rows reads2) as [log out] eqn:E.
  simpl. intros [[= <- <-] | Hin].
  - split; [ now left | now exists pos ].
  - specialize (IH (S pos) reads2). rewrite E in IH.
    destruct (IH Hin) as [Hrows Hp]. split; [ now right | exact Hp ].
Qed.

Lemma play_outcome (partial_ratio : string -> string -> Q)
    (screens : nat -> Screen) (rows : list StepRow) (pos : nat)
    (reads : list Flags) :
  snd (play partial_ratio screens pos rows reads) <> NothingToRun.
Proof.
  revert pos reads. induction rows as [ | r rows IH ]; intros pos reads;
    simpl; [ discriminate | ].
  destruct reads as [ | f reads1 ]; [ discriminate | ].
  destruct (stopping f); [ discriminate | ].
  destruct (wait_unpaused reads1) as [reads2 | ]; [ | discriminate ].
  destruct (exec_step partial_ratio (screens pos) r); [ | discriminate ].
  specialize (IH (S pos) reads2).
  now destruct (play partial_ratio screens (S pos) rows reads2).
Qed.

Lemma run_session_log_entry (partial_ratio : string -> string -> Q)
    (db : Db) (sid : Z) (screens : nat -> Screen) (reads : list Flags)
    (s : StepRow) (eff : Effect) :
  In (s, eff) (fst (run_session partial_ratio db sid screens reads)) ->
  In s (steps db) /\ session_id s = sid
  /\ exists p, exec_step partial_ratio (screens p) s = Ok eff.
Proof.
  unfold run_session. intro Hin.
  assert (H : In s (select_steps db sid)
              /\ exists p, exec_step partial_ratio (screens p) s = Ok eff).
  { destruct (select_steps db sid) as [ | r rows ]; [ destruct Hin | ].
    now apply play_log_entry in Hin. }
  destruct H as [Hs Hp].
  apply (Permutation_in _ (order_by_order_idx_perm _)) in Hs.
  unfold steps_of in Hs. apply filter_In in Hs. destruct Hs as [Hs Hsid].
  repeat split; [ exact Hs | now apply Z.eqb_eq | exact Hp ].
Qed.

Lemma exec_step_recorded (partial_ratio : string -> string -> Q)
    (scr : Screen) (s : StepRow) (eff : Effect) :
  recorded_ok s ->
  exec_step partial_ratio scr s = Ok eff ->
  injects eff = true
  /\ (action_type s = "type" -> exists t, text s = Some t /\ eff = TypeText t).
Proof.
  intros [(Hact & _ & (px & py & Hx & Hy) & _)
         | (Hact & (t & Ht & _) & _)] Hexec.
  - split; [ | rewrite Hact; discriminate ].
    rewrite exec_step_click in Hexec by exact Hact.
    destruct (resolve_click_cases partial_ratio scr s)
      as [E | (e & sc & l & t & r & b & _ & _ & _ & _ & _ & E)];
      rewrite E in Hexec; injection Hexec as <-; [ | reflexivity ].
    unfold ocr_click, recorded_click. rewrite Hx, Hy.
    destruct (truthy_str (target_name_of s)); [ | reflexivity ].
    destruct (ocr_find_best _ _ _) as [[box | ] oscore]; [ | reflexivity ].
    now destruct (b_bbox box) as [[[bx by_] bw] bh].
  - unfold exec_step in Hexec. rewrite Hact, Ht in Hexec. simpl in Hexec.
    injection Hexec as <-. split; [ reflexivity | ].
    intros _. now exists t.
Qed.

(** X13.  Replaying a session the recorder wrote, every step the player
    goes through injects input: a click step ends in a UIA, OCR or
    recorded-position click and a type step types its recorded text;
    neither the unresolved-target warning nor the unknown-action line
    occurs, whatever the screens show and whatever the flags do. *)
Theorem recorded_session_always_resolves
    (partial_ratio : string -> string -> Q) (evs : list Event) (sid : Z)
    (screens : nat -> Screen) (reads : list Flags) (s : StepRow)
    (eff : Effect) :
  In (s, eff)
     (fst (run_session partial_ratio (conn (after evs)) sid screens reads)) ->
  injects eff = true
  /\ (action_type s = "type" -> exists t, text s = Some t /\ eff = TypeText t).
Proof.
  intro Hin. apply run_session_log_entry in Hin.
  destruct Hin as (Hs & _ & p & Hexec).
  pose proof (recorded_rows_well_formed_aux evs) as Hok.
  rewrite Forall_forall in Hok.
  exact (exec_step_recorded partial_ratio (screens p) s eff (Hok s Hs) Hexec).
Qed.

(** X14.  [run_session] reports that there is nothing to run, executing
    nothing, exactly when table [steps] has no row of the session (an
    empty or unknown session id); this does not depend on the flags, not
    even on the stop flag, and on a session with rows that outcome never
    occurs. *)
Theorem nothing_to_run_iff_no_rows (partial_ratio : string -> string -> Q)
    (db : Db) (sid : Z) (screens : nat -> Screen) (reads : list Flags) :
  steps_of sid db = []
  <-> run_session partial_ratio db sid screens reads = ([], NothingToRun).
Proof.
  unfold run_session, select_steps. split.
  - now intros ->.
  - intro Hrun.
    destruct (order_by_order_idx (steps_of sid db)) as [ | r rows ] eqn:E.
    + apply Permutation_nil.
      rewrite <- E. apply order_by_order_idx_perm.
    + exfalso.
      apply (play_outcome partial_ratio screens (r :: rows) 0%nat reads).
      now rewrite Hrun.
Qed.

(** X15.  A replay only touches its own session: every row it goes
    through is a row of table [steps] with the requested session id, and
    no row is gone through twice when the order indices of the session are
    distinct. *)
Theorem replay_stays_in_session (partial_ratio : string -> string -> Q)
    (db : Db) (sid : Z) (screens : nat -> Screen) (reads : list Flags) :
  (forall s,
     In s (visited (run_session partial_ratio db sid screens reads)) ->
     In s (steps db) /\ session_id s = sid)
  /\ (NoDup (map order_idx (steps_of sid db)) ->
      NoDup (visited (run_session partial_ratio db sid screens reads))).
Proof.
  split.
  - intros s Hin. unfold visited in Hin. apply in_map_iff in Hin.
    destruct Hin as ([s' eff] & <- & Hin).
    apply run_session_log_entry in Hin. simpl. tauto.
  - intro Hnd.
    assert (Hsel : NoDup (select_steps db sid)).
    { apply (NoDup_map_inv order_idx).
      eapply Permutation_NoDup; [ | exact Hnd ].
      apply Permutation_map, Permutation_sym, order_by_order_idx_perm. }
    unfold run_session.
    destruct (select_steps db sid) as [ | r rows ]; [ constructor | ].
    destruct (play_prefix partial_ratio screens (r :: rows) 0%nat reads)
      as (k & _ & ->).
    rewrite <- (firstn_skipn k (r :: rows)) in Hsel.
    now apply NoDup_app_remove_r in Hsel.
Qed.

Lemma seq_sorted (a n : nat) :
  StronglySorted Z.le (map Z.of_nat (seq a n)).
Proof.
  revert a. induction n as [ | n IH ]; intro a; simpl; constructor.
  - apply IH.
  - apply Forall_forall. intros z Hz. apply in_map_iff in Hz.
    destruct Hz as (m & <- & Hm). apply in_seq in Hm. lia.
Qed.

Lemma order_by_sorted_id (l : list StepRow) :
  StronglySorted Z.le (map order_idx l) -> order_by_order_idx l = l.
Proof.
  induction l as [ | s l IH ]; simpl; intro H; [ reflexivity | ].
  apply StronglySorted_inv in H. destruct H as [Hl Hs].
  rewrite (IH Hl). destruct l as [ | r l ]; [ reflexivity | ].
  simpl. apply Forall_inv in Hs.
  destruct (Z.leb_spec (order_idx s) (order_idx r)); [ reflexivity | lia ].
Qed.

(** X16.  For a database the recorder wrote, [ORDER BY order_idx] is the
    order of insertion: the rows fetched for a session are its rows in
    the order they were recorded, and a replay that no stop check
    interrupts and whose pauses end goes through exactly those rows in
    that order and finishes. *)
Theorem replay_follows_recording_order
    (partial_ratio : string -> string -> Q) (evs : list Event) (sid : Z)
    (screens : nat -> Screen) :
  select_steps (conn (after evs)) sid = steps_of sid (conn (after evs))
  /\ (forall turns rest,
        Forall turn turns ->
        List.length turns = List.length (steps_of sid (conn (after evs))) ->
        visited (run_session partial_ratio (conn (after evs)) sid screens
                   (List.concat turns ++ rest))
        = steps_of sid (conn (after evs))).
Proof.
  assert (Hsel : select_steps (conn (after evs)) sid
                 = steps_of sid (conn (after evs))).
  { apply order_by_sorted_id.
    destruct (recorder_inv_after evs) as (_ & Hdense & _).
    rewrite (Hdense sid). apply seq_sorted. }
  split; [ exact Hsel | ].
  intros turns rest Hturns Hlen. unfold run_session. rewrite Hsel.
  destruct (steps_of sid (conn (after evs))) as [ | r rows ];
    [ reflexivity | ].
  now apply play_all_turns.
Qed.

(** ** Hotkeys *)

Lemma ids_from_one_last (l : list Z) (a : Z) :
  ids_from_one (l ++ [a]) -> a = Z.of_nat (List.length (l ++ [a])).
Proof.
  unfold ids_from_one. rewrite length_app. simpl.
  rewrite Nat.add_1_r, seq_S, map_app. simpl. intro H.
  apply app_inj_tail in H. destruct H as [_ ->]. reflexivity.
Qed.

(** X17.  [do_run] never changes the flags, the recorder or the tables.
    After any history, when neither training nor running is set and table
    [sessions] is not empty it starts one runner thread, for the session
    started last; when training or running is set, or there is no session,
    it starts none and prints one line of refusal after the hotkey line. *)
Theorem do_run_replays_last_session (evs : list Event) :
  STATE (do_run (after evs)) = STATE (after evs)
  /\ recorder (do_run (after evs)) = recorder (after evs)
  /\ conn (do_run (after evs)) = conn (after evs)
  /\ (training (STATE (after evs)) = false ->
      running (STATE (after evs)) = false ->
      forall earlier r,
        sessions (conn (after evs)) = earlier ++ [r] ->
        threads (do_run (after evs)) = threads (after evs) ++ [sess_id r])
  /\ (training (STATE (after evs)) = true
      \/ running (STATE (after evs)) = true
      \/ sessions (conn (after evs)) = [] ->
      threads (do_run (after evs)) = threads (after evs)
      /\ exists refusal,
           console (do_run (after evs))
           = console (after evs) ++ [HotkeyRunPressed; refusal]).
Proof.
  destruct (controller_inv_after evs) as (_ & Hsess & _).
  generalize dependent (after evs). intros w Hsess.
  unfold do_run. simpl.
  destruct (training (STATE w)) eqn:Htrain;
    [ | destruct (running (STATE w)) eqn:Hrun ]; simpl.
  - repeat split; try discriminate.
    exists StopTrainFirst. now rewrite <- app_assoc.
  - repeat split; try discriminate.
    exists AlreadyRunning. now rewrite <- app_assoc.
  - destruct (sessions (conn w)) as [ | r0 l0 ] eqn:Hs.
    + unfold latest_session. rewrite Hs. simpl.
      split; [ reflexivity | split; [ reflexivity | split; [ reflexivity | ] ] ].
      split.
      * intros _ _ earlier r E. now destruct earlier.
      * intros _. split; [ reflexivity | ].
        exists NoSessionsToRun. now rewrite <- app_assoc.
    + rewrite (latest_session_ids_from_one (conn w)); rewrite ?Hs;
        try exact Hsess; try discriminate.
      simpl.
      split; [ reflexivity | split; [ reflexivity | split; [ reflexivity | ] ] ].
      split.
      * intros _ _ earlier r E. do 2 f_equal.
        rewrite E in Hsess. rewrite map_app in Hsess. simpl in Hsess.
        apply ids_from_one_last in Hsess.
        rewrite length_app, length_map in Hsess. simpl in Hsess.
        assert (Hlen : List.length (r0 :: l0) = List.length (earlier ++ [r]))
          by now rewrite E.
        rewrite length_app in Hlen. simpl in Hlen. lia.
      * intros [H | [H | H]]; discriminate.
Qed.

Lemma handle_keeps_stopping (w : System) (ev : Event) :
  ev <> Restart ->
  stopping (STATE w) = true ->
  stopping (STATE (handle w ev)) = true.
Proof.
  intros Hev H.
  destruct ev as [now | | | | px py pressed snap props | key
                 | key snap | sid | | ]; simpl; try exact H.
  - unfold toggle_train. simpl.
    destruct (training (STATE w)); [ | destruct (running (STATE w)) ];
      exact H.
  - unfold do_run. simpl.
    destruct (training (STATE w)); [ exact H | ].
    destruct (running (STATE w)); [ exact H | ].
    destruct (latest_session (conn w)); exact H.
  - reflexivity.
  - unfold on_click.
    destruct (negb (training (STATE w))); [ exact H | ].
    destruct (negb pressed); [ exact H | ].
    match goal with
    | |- context [record_step ?a ?t ?px ?py ?u ?b ?sn ?w'] =>
        destruct (record_step_tables a t px py u b sn w')
          as (_ & _ & -> & _)
    end. exact H.
  - unfold on_press.
    destruct (negb (training (STATE w))); [ exact H | ].
    destruct key as [[c | ] | | | | ]; exact H.
  - unfold on_release.
    destruct (negb (training (STATE w))); [ exact H | ].
    destruct key; try exact H;
      (destruct (truthy_str _); [ | exact H ];
       match goal with
       | |- context [record_step ?a ?t ?px ?py ?u ?b ?sn ?w'] =>
           destruct (record_step_tables a t px py u b sn w')
             as (_ & _ & -> & _)
       end; exact H).
  - now contradiction Hev.
Qed.

(** X18.  The stop flag is never cleared: once [do_stop] has run, the
    flag stays set through every later hotkey, click, key and runner
    event, short of a restart of the process; a replay whose stop check
    reads that state executes nothing and returns. *)
Theorem stop_flag_is_sticky (partial_ratio : string -> string -> Q)
    (w : System) (evs : list Event) :
  ~ In Restart evs ->
  stopping (STATE (fold_left handle evs (do_stop w))) = true
  /\ forall screens pos s rows rest,
       play partial_ratio screens pos (s :: rows)
         (STATE (fold_left handle evs (do_stop w)) :: rest)
       = ([], Stopped).
Proof.
  intro Hevs.
  assert (H : stopping (STATE (fold_left handle evs (do_stop w))) = true).
  { assert (H0 : stopping (STATE (do_stop w)) = true) by reflexivity.
    revert H0. generalize (do_stop w) as w0.
    induction evs as [ | ev evs IH ]; intros w0 H0; simpl; [ exact H0 | ].
    apply IH.
    - intro Hin. apply Hevs. now right.
    - apply handle_keeps_stopping; [ | exact H0 ].
      intros ->. apply Hevs. now left. }
  split; [ exact H | ].
  intros screens pos s rows rest. simpl. now rewrite H.
Qed.

(** ** Typed text *)

Lemma press_keys (keys : list Key) (w : System) :
  training (STATE w) = true ->
  let w' := fold_left handle (map KeyPress keys) w in
  STATE w' = STATE w /\ conn w' = conn w
  /\ rec_session_id (recorder w') = rec_session_id (recorder w)
  /\ rec_order_idx (recorder w') = rec_order_idx (recorder w)
  /\ buffer_typed (recorder w')
     = buffer_typed (recorder w) ++ typed_chars keys.
Proof.
  revert w. induction keys as [ | key keys IH ]; intros w Htrain; simpl.
  - now rewrite app_nil_r.
  - assert (Hstep : STATE (on_press key w) = STATE w
                    /\ conn (on_press key w) = conn w
                    /\ rec_session_id (recorder (on_press key w))
                       = rec_session_id (recorder w)
                    /\ rec_order_idx (recorder (on_press key w))
                       = rec_order_idx (recorder w)
                    /\ buffer_typed (recorder (on_press key w))
                       = buffer_typed (recorder w)
                         ++ typed_chars [key]).
    { unfold on_press. rewrite Htrain. simpl.
      destruct key as [[c | ] | | | | ]; simpl;
        rewrite ?app_nil_r; repeat split. }
    destruct Hstep as (Ef & Ec & Es & Ei & Eb).
    destruct (IH (on_press key w)) as (Ef' & Ec' & Es' & Ei' & Eb');
      [ now rewrite Ef | ].
    rewrite Ef', Ec', Es', Ei', Eb', Ef, Ec, Es, Ei, Eb.
    repeat split. rewrite <- app_assoc. f_equal.
    unfold typed_chars. simpl. now rewrite app_nil_r.
Qed.

Lemma release_commits (w : System) (keys : list Key)
    (commit : Key) (snap : string) (sid : Z) :
  training (STATE w) = true ->
  rec_session_id (recorder w) = Some sid ->
  commit = KeyEnter \/ commit = KeyTab ->
  buffer_typed
    (recorder (fold_left handle
                 (map KeyPress keys ++ [KeyRelease commit snap]) w)) = []
  /\ (strip (string_of_list_ascii
               (buffer_typed (recorder w) ++ typed_chars keys)) <> "" ->
      steps (conn (fold_left handle
                     (map KeyPress keys ++ [KeyRelease commit snap]) w))
      = steps (conn w)
        ++ [{| step_id := next_rowid (map step_id (steps (conn w)));
               session_id := sid;
               order_idx := rec_order_idx (recorder w);
               action_type := "type";
               text := Some (strip (string_of_list_ascii
                                      (buffer_typed (recorder w)
                                       ++ typed_chars keys)));
               x := None; y := None; bbox := None; uia := None;
               snap_path := Some snap |}])
  /\ (strip (string_of_list_ascii
               (buffer_typed (recorder w) ++ typed_chars keys)) = "" ->
      steps (conn (fold_left handle
                     (map KeyPress keys ++ [KeyRelease commit snap]) w))
      = steps (conn w)).
Proof.
  intros Htrain Hsid Hcommit.
  rewrite fold_left_app. cbn [fold_left handle].
  destruct (press_keys keys w Htrain) as (Ef & Ec & Es & Ei & Eb).
  set (w1 := fold_left handle (map KeyPress keys) w) in *.
  assert (Hrel : on_release commit snap w1
                 = let text := strip (string_of_list_ascii
                                        (buffer_typed (recorder w1))) in
                   let w2 := set_recorder
                               {| rec_session_id := rec_session_id (recorder w1);
                                  rec_order_idx := rec_order_idx (recorder w1);
                                  buffer_typed := [] |} w1 in
                   if truthy_str text
                   then record_step "type" (Some text) None None None None
                          (Some snap) w2
                   else w2).
  { unfold on_release. rewrite Ef, Htrain. simpl.
    destruct Hcommit as [-> | ->]; reflexivity. }
  rewrite Hrel. cbv zeta. rewrite Eb.
  set (txt := strip (string_of_list_ascii
                       (buffer_typed (recorder w) ++ typed_chars keys))).
  destruct (truthy_str txt) eqn:Htxt.
  - match goal with
    | |- context [record_step ?a ?t ?px ?py ?u ?b ?sn ?w'] =>
        destruct (record_step_tables a t px py u b sn w')
          as (_ & Et & _ & _ & Ebuf & _)
    end.
    rewrite Et, Ebuf. simpl. rewrite Es, Ei, Ec, Hsid.
    split; [ reflexivity | split; [ reflexivity | ] ].
    intro E. apply truthy_str_nonempty in Htxt. contradiction.
  - simpl. rewrite Ec. split; [ reflexivity | split; [ | reflexivity ] ].
    intro Hne. apply truthy_str_nonempty in Hne. congruence.
Qed.

(** X19.  Committing typed text.  In training, with a session open,
    after any sequence of key presses a release of Enter or Tab empties
    the buffer; when the buffered characters (those left from before and
    those of the presses), joined and stripped, are not empty it appends
    exactly one type row carrying that text to the open session, and when
    they are empty or all blank it appends nothing. *)
Theorem release_commits_typed_text (w : System) (keys : list Key)
    (commit : Key) (snap : string) (sid : Z) :
  training (STATE w) = true ->
  rec_session_id (recorder w) = Some sid ->
  commit = KeyEnter \/ commit = KeyTab ->
  buffer_typed
    (recorder (fold_left handle
                 (map KeyPress keys ++ [KeyRelease commit snap]) w)) = []
  /\ (strip (string_of_list_ascii
               (buffer_typed (recorder w) ++ typed_chars keys)) <> "" ->
      steps (conn (fold_left handle
                     (map KeyPress keys ++ [KeyRelease commit snap]) w))
      = steps (conn w)
        ++ [{| step_id := next_rowid (map step_id (steps (conn w)));
               session_id := sid;
               order_idx := rec_order_idx (recorder w);
               action_type := "type";
               text := Some (strip (string_of_list_ascii
                                      (buffer_typed (recorder w)
                                       ++ typed_chars keys)));
               x := None; y := None; bbox := None; uia := None;
               snap_path := Some snap |}])
  /\ (strip (string_of_list_ascii
               (buffer_typed (recorder w) ++ typed_chars keys)) = "" ->
      steps (conn (fold_left handle
                     (map KeyPress keys ++ [KeyRelease commit snap]) w))
      = steps (conn w)).
Proof.
  apply release_commits.
Qed.

Lemma rstrip_blanks (sp : list ascii) :
  Forall (fun c => is_space c = true) sp ->
  rstrip (string_of_list_ascii sp) = "".
Proof.
  induction 1 as [ | c sp Hc _ IH ]; simpl; [ reflexivity | ].
  now rewrite IH, Hc.
Qed.

Lemma rstrip_blank_tail (l : list ascii) (z : ascii) (sp : list ascii) :
  is_space z = false ->
  Forall (fun c => is_space c = true) sp ->
  rstrip (string_of_list_ascii (l ++ z :: sp))
  = string_of_list_ascii (l ++ [z]).
Proof.
  intros Hz Hsp. induction l as [ | c l IH ]; simpl.
  - now rewrite (rstrip_blanks sp Hsp), Hz.
  - rewrite IH. destruct (string_of_list_ascii (l ++ [z])) eqn:E;
      [ | reflexivity ].
    destruct l; discriminate.
Qed.

Lemma typed_chars_word (word : list ascii) :
  typed_chars (map (fun c => KeyCode (Some c)) word ++ [KeyEnter])
  = word ++ ["010"%char].
Proof.
  unfold typed_chars. rewrite flat_map_app. simpl. f_equal.
  induction word as [ | c word IH ]; simpl; [ reflexivity | now rewrite IH ].
Qed.

(** X20.  Round trip of a typed text.  In training, with a session open
    and an empty buffer, typing a text whose first and last characters are
    not blank and then pressing and releasing Enter records one type row
    whose text is exactly what was typed (the line feed the Enter press
    buffers is stripped), and replaying that row types exactly that text
    on any screen. *)
Theorem typed_text_round_trip (partial_ratio : string -> string -> Q)
    (w : System) (c : ascii) (body : list ascii) (snap : string) (sid : Z) :
  training (STATE w) = true ->
  rec_session_id (recorder w) = Some sid ->
  buffer_typed (recorder w) = [] ->
  is_space c = false ->
  is_space (last (c :: body) c) = false ->
  exists row,
    steps (conn (fold_left handle
                   (map KeyPress
                      (map (fun c => KeyCode (Some c)) (c :: body)
                       ++ [KeyEnter])
                    ++ [KeyRelease KeyEnter snap]) w))
    = steps (conn w) ++ [row]
    /\ text row = Some (string_of_list_ascii (c :: body))
    /\ session_id row = sid
    /\ forall scr,
         exec_step partial_ratio scr row
         = Ok (TypeText (string_of_list_ascii (c :: body))).
Proof.
  intros Htrain Hsid Hbuf Hc Hz.
  remember (c :: body) as word eqn:Hword.
  destruct (release_commits w
              (map (fun c => KeyCode (Some c)) word ++ [KeyEnter])
              KeyEnter snap sid Htrain Hsid (or_introl eq_refl))
    as (_ & Hrow & _).
  rewrite Hbuf, typed_chars_word in Hrow. simpl app in Hrow.
  assert (Hlast : word = removelast word ++ [last word c])
    by (apply app_removelast_last; rewrite Hword; discriminate).
  assert (Hstrip : strip (string_of_list_ascii (word ++ ["010"%char]))
                   = string_of_list_ascii word).
  { unfold strip.
    assert (Hl : lstrip (string_of_list_ascii (word ++ ["010"%char]))
                 = string_of_list_ascii (word ++ ["010"%char])).
    { rewrite Hword. simpl. now rewrite Hc. }
    rewrite Hl. rewrite Hlast at 1. rewrite <- app_assoc. simpl app.
    rewrite rstrip_blank_tail;
      [ now rewrite <- Hlast | exact Hz | repeat constructor ]. }
  rewrite Hstrip in Hrow.
  eexists. split; [ apply Hrow | ].
  - rewrite Hword. discriminate.
  - simpl. repeat split.
Qed.

(** X21.  The typed-text buffer is only touched by key events and by a
    restart: the train, run, pause and stop hotkeys, mouse clicks and
    runner threads leave it as it is.  In particular characters typed but
    not yet committed when training is switched off are still buffered
    when training is switched on again. *)
Theorem typed_buffer_survives_mode_changes (w : System) (ev : Event) :
  (forall key, ev <> KeyPress key) ->
  (forall key snap, ev <> KeyRelease key snap) ->
  ev <> Restart ->
  buffer_typed (recorder (handle w ev)) = buffer_typed (recorder w).
Proof.
  intros Hpress Hrelease Hrestart.
  destruct ev as [now | | | | px py pressed snap props | key
                 | key snap | sid | | ]; simpl; try reflexivity.
  - unfold toggle_train. simpl.
    destruct (training (STATE w)); [ | destruct (running (STATE w)) ];
      reflexivity.
  - unfold do_run. simpl.
    destruct (training (STATE w)); [ reflexivity | ].
    destruct (running (STATE w)); [ reflexivity | ].
    destruct (latest_session (conn w)); reflexivity.
  - unfold on_click.
    destruct (negb (training (STATE w))); [ reflexivity | ].
    destruct (negb pressed); [ reflexivity | ].
    match goal with
    | |- context [record_step ?a ?t ?px ?py ?u ?b ?sn ?w'] =>
        destruct (record_step_tables a t px py u b sn w')
          as (_ & _ & _ & _ & -> & _)
    end. reflexivity.
  - now contradiction (Hpress key).
  - now contradiction (Hrelease key snap).
  - now contradiction Hrestart.
Qed.

(** * The activity tracker *)

Module EventRecorderFacts.
Import EventRecorder.

Lemma files_set_file_same (name : option Z) (content : FileState)
    (w : State) :
  files (set_file name content w) name = content.
Proof.
  simpl. destruct name as [a | ]; [ now rewrite Z.eqb_refl | reflexivity ].
Qed.

Lemma files_set_file_other (name : option Z) (content : FileState)
    (w : State) (n : option Z) :
  n <> name -> files (set_file name content w) n = files w n.
Proof.
  intro Hn. simpl. destruct n as [a | ], name as [b | ]; try reflexivity.
  - destruct (Z.eqb_spec a b) as [-> | _]; [ now contradiction Hn | reflexivity ].
  - now contradiction Hn.
Qed.

Lemma flush_to_file_inv (io : Io) (w : State) :
  Forall (fun e => session_id e = session w /\ well_formed e)
    (events_buffer w) ->
  (forall name events,
     files w name = Json events ->
     Forall (fun e => session_id e = name /\ well_formed e) events) ->
  events_buffer (flush_to_file io w) = []
  /\ session (flush_to_file io w) = session w
  /\ training (flush_to_file io w) = training w
  /\ session_metadata (flush_to_file io w) = session_metadata w
  /\ (forall name events,
        files (flush_to_file io w) name = Json events ->
        Forall (fun e => session_id e = name /\ well_formed e) events).
Proof.
  intros Hbuf Hfiles. unfold flush_to_file.
  destruct (events_buffer w) as [ | e buf ] eqn:Eb.
  - now rewrite Eb.
  - set (b := e :: buf) in *. cbn [print session files].
    destruct io, (files w (session w)) as [ | existing | ] eqn:Ef;
      cbn [set_buffer print set_file events_buffer session training
             session_metadata files];
      repeat split; auto;
      intros name events Hn;
      destruct name as [a | ], (session w) as [c | ] eqn:Es;
      try (destruct (Z.eqb_spec a c) as [-> | _]);
      try discriminate; eauto;
      injection Hn as <-; auto.
    + apply Forall_app. split; [ now apply (Hfiles (Some c)) | exact Hbuf ].
    + apply Forall_app. split; [ now apply (Hfiles None) | exact Hbuf ].
Qed.

Lemma save_event_inv (io : Io) (e : Recorded) (w : State) :
  tracker_inv w ->
  training w = true ->
  session_id e = session w -> well_formed e ->
  tracker_inv (save_event io e w)
  /\ training (save_event io e w) = true
  /\ session (save_event io e w) = session w.
Proof.
  intros (Hlen & _ & Hsess & Hbuf & Hfiles) Htrain Htag Hwf.
  unfold save_event.
  set (w1 := if verbose w then print (Saving e) w else w).
  assert (H1 : events_buffer w1 = events_buffer w /\ session w1 = session w
               /\ training w1 = training w /\ files w1 = files w).
  { unfold w1. destruct (verbose w); now repeat split. }
  destruct H1 as (Eb & Es & Et & Ef).
  set (w2 := set_buffer (events_buffer w1 ++ [e]) w1).
  assert (Hbuf2 : Forall (fun e0 => session_id e0 = session w2
                                    /\ well_formed e0) (events_buffer w2)).
  { unfold w2. simpl. rewrite Eb, Es. apply Forall_app. split; auto. }
  assert (Hfiles2 : forall name events,
             files w2 name = Json events ->
             Forall (fun e0 => session_id e0 = name /\ well_formed e0) events).
  { unfold w2. simpl. rewrite Ef. exact Hfiles. }
  destruct (Nat.leb_spec 1000 (List.length (events_buffer w2))) as [Hfull | Hroom].
  - destruct (flush_to_file_inv io w2 Hbuf2 Hfiles2)
      as (Fb & Fs & Ft & _ & Ff).
    assert (Et2 : training w2 = true) by (unfold w2; simpl; congruence).
    assert (Es2 : session w2 = session w) by (unfold w2; simpl; congruence).
    unfold tracker_inv. rewrite Fb, Fs, Ft, Et2, Es2.
    repeat split; auto; simpl; try lia; discriminate.
  - assert (Et2 : training w2 = true) by (unfold w2; simpl; congruence).
    assert (Es2 : session w2 = session w) by (unfold w2; simpl; congruence).
    split; [ | split; [ exact Et2 | exact Es2 ] ].
    split; [ exact Hroom | ].
    split; [ rewrite Et2; discriminate | ].
    split; [ intros _; rewrite Es2; now apply Hsess | ].
    split; [ exact Hbuf2 | exact Hfiles2 ].
Qed.

Lemma save_event_tracker_inv (io : Io) (e : Recorded) (w : State) :
  tracker_inv w ->
  training w = true ->
  session_id e = session w -> well_formed e ->
  tracker_inv (save_event io e w).
Proof.
  intros H Htrain Htag Hwf. now apply save_event_inv.
Qed.

Lemma tracker_inv_handle (too_soon : Q -> Q -> bool) (w : State)
    (i : Input) :
  tracker_inv w -> tracker_inv (handle too_soon w i).
Proof.
  intro H. pose proof H as (Hlen & Hidle & Hsess & Hbuf & Hfiles).
  destruct i as [io now readable meta_ok | | x y current_time stamp io
                | x y button pressed stamp io | x y dx dy stamp io
                | key stamp io | key stamp io ]; simpl.
  - unfold hotkey_train_toggle.
    destruct (training w) eqn:Htrain; simpl.
    + destruct (flush_to_file_inv io w Hbuf Hfiles)
        as (Fb & Fs & Ft & Fm & Ff).
      destruct (session w) as [sid | ] eqn:Es;
        [ | now contradiction (Hsess eq_refl) ].
      unfold end_session. rewrite Es.
      unfold tracker_inv.
      destruct (session_metadata (flush_to_file io w)) as [m | ];
        [ destruct meta_ok | ]; simpl; rewrite ?Fb;
        repeat split; auto; simpl; try lia; try discriminate.
    + unfold tracker_inv. simpl.
      repeat split; auto; simpl; try lia; try discriminate.
  - unfold hotkey_verbose_toggle. destruct (verbose w); exact H.
  - unfold on_mouse_move.
    destruct (training w) eqn:Htrain; simpl; [ | exact H ].
    destruct (too_soon current_time (last_mouse_move_time w)); [ exact H | ].
    apply save_event_tracker_inv; simpl; auto.
    + unfold tracker_inv. simpl. repeat split; auto; discriminate.
    + exact I.
  - unfold on_mouse_click.
    destruct (training w) eqn:Htrain; simpl; [ | exact H ].
    apply save_event_tracker_inv; simpl; auto.
    unfold well_formed. simpl. destruct pressed; auto.
  - unfold on_mouse_scroll.
    destruct (training w) eqn:Htrain; simpl; [ | exact H ].
    apply save_event_tracker_inv; simpl; auto.
    unfold well_formed. simpl.
    destruct (Z.ltb_spec 0 dy); [ left | right ]; split; auto.
  - unfold on_key_press.
    destruct (training w) eqn:Htrain; simpl; [ | exact H ].
    apply save_event_tracker_inv; simpl; auto. reflexivity.
  - unfold on_key_release.
    destruct (training w) eqn:Htrain; simpl; [ | exact H ].
    apply save_event_tracker_inv; simpl; auto. reflexivity.
Qed.

Lemma tracker_inv_after (too_soon : Q -> Q -> bool) (inputs : list Input) :
  tracker_inv (after too_soon inputs).
Proof.
  unfold after.
  assert (H0 : tracker_inv start).
  { unfold tracker_inv. simpl. repeat split; auto; try lia; discriminate. }
  revert H0. generalize start as w.
  induction inputs as [ | i inputs IH ]; intros w H; simpl; [ exact H | ].
  now apply IH, tracker_inv_handle.
Qed.

(** X22.  After any history of tracker inputs, fewer than 1000 events
    are buffered (the buffer is flushed when the 1000th arrives), and
    outside training the buffer is empty. *)
Theorem buffer_stays_below_1000 (too_soon : Q -> Q -> bool)
    (inputs : list Input) :
  (List.length (events_buffer (after too_soon inputs)) < 1000)%nat
  /\ (training (after too_soon inputs) = false ->
      events_buffer (after too_soon inputs) = []).
Proof.
  destruct (tracker_inv_after too_soon inputs) as (Hlen & Hidle & _).
  now split.
Qed.

(** X23.  After any history, starting with no files: in training a
    session is open; every buffered event carries the id of the open
    session and every event of a file [session_<t>.json] carries the id
    [session_<t>]; and every such event is as its class builds it (a click
    or key action is press or release, a scroll is up exactly when [dy] is
    positive, so a horizontal scroll is stored as down). *)
Theorem events_tagged_with_their_session (too_soon : Q -> Q -> bool)
    (inputs : list Input) :
  (training (after too_soon inputs) = true ->
   exists t, session (after too_soon inputs) = Some t)
  /\ (forall e, In e (events_buffer (after too_soon inputs)) ->
                session_id e = session (after too_soon inputs)
                /\ well_formed e)
  /\ (forall name events e,
        files (after too_soon inputs) name = Json events ->
        In e events ->
        session_id e = name /\ well_formed e).
Proof.
  destruct (tracker_inv_after too_soon inputs)
    as (_ & _ & Hsess & Hbuf & Hfiles).
  split; [ | split ].
  - intro Htrain. specialize (Hsess Htrain).
    destruct (session (after too_soon inputs)) as [t | ];
      [ now exists t | now contradiction Hsess ].
  - intros e Hin. rewrite Forall_forall in Hbuf. now apply Hbuf.
  - intros name events e Hf Hin. specialize (Hfiles name events Hf).
    rewrite Forall_forall in Hfiles. now apply Hfiles.
Qed.

Lemma flush_to_file_effect (io : Io) (w : State) :
  events_buffer (flush_to_file io w) = []
  /\ session (flush_to_file io w) = session w
  /\ (io = IoOk -> files w (session w) <> Corrupt ->
      file_events (files (flush_to_file io w) (session w)) = stored w
      /\ files (flush_to_file io w) (session w) <> Corrupt)
  /\ (events_buffer w <> [] ->
      io <> IoOk \/ files w (session w) = Corrupt ->
      files (flush_to_file io w) (session w) = files w (session w)
      \/ files (flush_to_file io w) (session w) = Corrupt).
Proof.
  unfold flush_to_file, stored.
  destruct (events_buffer w) as [ | e buf ] eqn:Eb.
  - rewrite Eb, app_nil_r. repeat split; auto; try discriminate.
    all: try (intro H; now contradiction H).
  - cbn [print session files].
    destruct io, (files w (session w)) as [ | existing | ] eqn:Ef;
      cbn [set_buffer print events_buffer session files];
      rewrite ?files_set_file_same, ?Ef;
      repeat split; auto; try discriminate;
      try (intros _ [H | H]; try discriminate; now contradiction H);
      try (intros; now contradiction).
Qed.

(** X24.  One saved event.  When the file of the open session is usable
    and either the buffer stays below 1000 or the file system works, the
    events of the session on disk and in the buffer, in order, are those
    stored before followed by the new one: nothing is lost or reordered.
    When the event is the 1000th of the buffer and the flush fails, the
    buffer is emptied all the same and the file is as it was or unusable:
    the 1000 buffered events are gone. *)
Theorem save_event_keeps_or_loses (io : Io) (e : Recorded) (w : State) :
  (files w (session w) <> Corrupt ->
   io = IoOk \/ (S (List.length (events_buffer w)) < 1000)%nat ->
   stored (save_event io e w) = stored w ++ [e])
  /\ ((1000 <= S (List.length (events_buffer w)))%nat ->
      io <> IoOk \/ files w (session w) = Corrupt ->
      events_buffer (save_event io e w) = []
      /\ (files (save_event io e w) (session w) = files w (session w)
          \/ files (save_event io e w) (session w) = Corrupt)).
Proof.
  unfold save_event.
  set (w1 := if verbose w then print (Saving e) w else w).
  assert (H1 : events_buffer w1 = events_buffer w /\ session w1 = session w
               /\ files w1 = files w).
  { unfold w1. destruct (verbose w); now repeat split. }
  destruct H1 as (Eb & Es & Ef).
  set (w2 := set_buffer (events_buffer w1 ++ [e]) w1).
  assert (Eb2 : events_buffer w2 = events_buffer w ++ [e])
    by (unfold w2; simpl; now rewrite Eb).
  assert (Es2 : session w2 = session w) by (unfold w2; simpl; exact Es).
  assert (Ef2 : files w2 = files w) by (unfold w2; simpl; exact Ef).
  assert (Hst : stored w2 = stored w ++ [e]).
  { unfold stored. rewrite Eb2, Es2, Ef2. now rewrite app_assoc. }
  assert (Hlen : List.length (events_buffer w2)
                 = S (List.length (events_buffer w))).
  { rewrite Eb2, length_app. simpl. lia. }
  rewrite Hlen.
  destruct (flush_to_file_effect io w2) as (Fb & Fs & Fok & Ffail).
  rewrite Es2, Ef2 in *.
  destruct (Nat.leb_spec 1000 (S (List.length (events_buffer w))))
    as [Hfull | Hroom]; split.
  - intros Hfile [Hio | Hlt]; [ | lia ].
    destruct (Fok Hio Hfile) as [Hev _].
    unfold stored at 1. rewrite Fb, Fs, app_nil_r, Hev. exact Hst.
  - intros _ Hbad. split; [ exact Fb | ].
    apply Ffail; [ | exact Hbad ].
    rewrite Eb2. now destruct (events_buffer w).
  - intros _ _. exact Hst.
  - intro Hfull. lia.
Qed.

(** X25.  Ending a session when the file system works and the file of
    the session is usable leaves in that file, in order, every event the
    session had stored on disk or in the buffer, empties the buffer and
    closes the session. *)
Theorem end_session_writes_everything (now : Q) (readable : string)
    (meta_ok : bool) (w : State) (sid : Z) :
  session w = Some sid ->
  files w (Some sid) <> Corrupt ->
  file_events (files (end_session IoOk now readable meta_ok w) (Some sid))
  = stored w
  /\ files (end_session IoOk now readable meta_ok w) (Some sid) <> Corrupt
  /\ events_buffer (end_session IoOk now readable meta_ok w) = []
  /\ session (end_session IoOk now readable meta_ok w) = None.
Proof.
  intros Hsid Hfile. unfold end_session. rewrite Hsid.
  destruct (flush_to_file_effect IoOk w) as (Fb & Fs & Fok & _).
  rewrite Hsid in Fok. destruct (Fok eq_refl Hfile) as [Hev Hok].
  destruct (session_metadata (flush_to_file IoOk w)) as [m | ];
    [ destruct meta_ok | ]; simpl; now rewrite Fb.
Qed.

End EventRecorderFacts.

(** * The chat-log helpers *)

Module LineChatFacts.
Import LineChat.

Lemma startswith_spec (text prefix : str) :
  startswith text prefix = true <-> exists rest, text = prefix ++ rest.
Proof.
  revert text. induction prefix as [ | p prefix IH ]; intro text; simpl.
  - split; [ intros _; now exists text | reflexivity ].
  - destruct text as [ | t text ].
    + split; [ discriminate | intros [rest H]; discriminate ].
    + rewrite andb_true_iff, Z.eqb_eq, IH. split.
      * intros [-> [rest ->]]. now exists rest.
      * intros [rest [= -> ->]]. split; [ reflexivity | now exists rest ].
Qed.

Lemma skipn_name (name rest : str) :
  skipn (List.length name + 1) (name ++ space :: rest) = rest.
Proof.
  induction name as [ | c name IH ]; simpl; [ reflexivity | exact IH ].
Qed.

Lemma str_eqb_spec (a b : str) : str_eqb a b = true <-> a = b.
Proof.
  revert b. induction a as [ | x a IH ]; intros [ | y b ]; simpl;
    try (split; [ discriminate | discriminate ]); [ tauto | ].
  rewrite andb_true_iff, Z.eqb_eq, IH. split.
  - now intros [-> ->].
  - now intros [= -> ->].
Qed.

Lemma longest_prefix_match_split (candidates : list str) (text : str) :
  (forall name rest,
     longest_prefix_match candidates text = (Some name, rest) ->
     text = name ++ space :: rest
     /\ exists before after,
          candidates = before ++ name :: after
          /\ forall n, In n before -> startswith text (n ++ [space]) = false)
  /\ (forall rest,
        longest_prefix_match candidates text = (None, rest) ->
        rest = text
        /\ forall n, In n candidates ->
                     startswith text (n ++ [space]) = false).
Proof.
  induction candidates as [ | c candidates [IHs IHn] ]; simpl.
  - split; [ discriminate | ]. intros rest [= <-]. split; [ reflexivity | ].
    intros n [].
  - destruct (startswith text (c ++ [space])) eqn:Hc.
    + split; [ | discriminate ].
      intros name rest [= <- <-].
      apply startswith_spec in Hc. destruct Hc as [rest Hc].
      rewrite <- app_assoc in Hc. simpl in Hc. subst text.
      rewrite skipn_name. split; [ reflexivity | ].
      exists [], candidates. split; [ reflexivity | intros n [] ].
    + split.
      * intros name rest Hm. destruct (IHs name rest Hm)
          as (Htext & before & after & -> & Hbefore).
        split; [ exact Htext | ].
        exists (c :: before), after. split; [ reflexivity | ].
        intros n [<- | Hin]; auto.
      * intros rest Hm. destruct (IHn rest Hm) as [-> Hnone].
        split; [ reflexivity | ]. intros n [<- | Hin]; auto.
Qed.

(** X26.  [longest_prefix_match] splits at a candidate: when it returns
    a name, the name is a candidate, the text is the name, one space and
    the returned rest, and no candidate before it in the list is followed
    by a space at the start of the text; when it returns no name, the text
    comes back unchanged and it starts with no candidate followed by a
    space. *)
Theorem longest_prefix_match_sound (candidates : list str) (text : str) :
  (forall name rest,
     longest_prefix_match candidates text = (Some name, rest) ->
     text = name ++ space :: rest
     /\ exists before after,
          candidates = before ++ name :: after
          /\ forall n, In n before -> startswith text (n ++ [space]) = false)
  /\ (forall rest,
        longest_prefix_match candidates text = (None, rest) ->
        rest = text
        /\ forall n, In n candidates ->
                     startswith text (n ++ [space]) = false).
Proof.
  apply longest_prefix_match_split.
Qed.

Lemma insert_by_len_perm (name : str) (l : list str) :
  Permutation (insert_by_len name l) (name :: l).
Proof.
  induction l as [ | n l IH ]; simpl; [ reflexivity | ].
  destruct (List.length n <=? List.length name)%nat; [ reflexivity | ].
  rewrite IH. apply perm_swap.
Qed.

Lemma load_participants_perm (names : list str) :
  Permutation (load_participants names) names.
Proof.
  induction names as [ | n names IH ]; simpl; [ reflexivity | ].
  rewrite insert_by_len_perm. now apply perm_skip.
Qed.

Lemma insert_by_len_sorted (name : str) (l : list str) :
  StronglySorted longer_first l ->
  StronglySorted longer_first (insert_by_len name l).
Proof.
  induction l as [ | n l IH ]; simpl; intro H.
  - repeat constructor.
  - apply StronglySorted_inv in H. destruct H as [Hl Hn].
    destruct (Nat.leb_spec (List.length n) (List.length name)) as [Hle | Hgt].
    + constructor; [ now constructor | ].
      constructor; [ exact Hle | ].
      eapply Forall_impl; [ | exact Hn ].
      unfold longer_first. intros a Ha. lia.
    + constructor; [ now apply IH | ].
      eapply Permutation_Forall.
      * apply Permutation_sym, insert_by_len_perm.
      * constructor; [ unfold longer_first; lia | exact Hn ].
Qed.

Lemma load_participants_sorted (names : list str) :
  StronglySorted longer_first (load_participants names).
Proof.
  induction names as [ | n names IH ]; simpl; [ constructor | ].
  now apply insert_by_len_sorted.
Qed.

(** X27.  With the candidates [load_participants] returns (the names
    given, each as often as given, longest first), the name
    [longest_prefix_match] returns is one of the names given and no name
    given that is followed by a space at the start of the text is longer;
    and a name is returned as soon as some name given matches. *)
Theorem match_picks_longest_participant (names : list str) (text : str) :
  Permutation (load_participants names) names
  /\ StronglySorted longer_first (load_participants names)
  /\ (forall name rest,
        longest_prefix_match (load_participants names) text
        = (Some name, rest) ->
        In name names
        /\ text = name ++ space :: rest
        /\ forall n, In n names ->
                     startswith text (n ++ [space]) = true ->
                     (List.length n <= List.length name)%nat)
  /\ (forall n, In n names ->
                startswith text (n ++ [space]) = true ->
                exists name rest,
                  longest_prefix_match (load_participants names) text
                  = (Some name, rest)).
Proof.
  pose proof (load_participants_perm names) as Hperm.
  pose proof (load_participants_sorted names) as Hsorted.
  split; [ exact Hperm | split; [ exact Hsorted | ] ].
  destruct (longest_prefix_match_split (load_participants names) text)
    as [Hs Hn].
  split.
  - intros name rest Hm.
    destruct (Hs name rest Hm) as (Htext & before & after & E & Hbefore).
    split; [ | split; [ exact Htext | ] ].
    + apply (Permutation_in _ Hperm). rewrite E.
      apply in_or_app. right. now left.
    + intros n Hin Hmatch.
      apply (Permutation_in _ (Permutation_sym Hperm)) in Hin.
      rewrite E in Hin, Hsorted. apply in_app_or in Hin.
      destruct Hin as [Hin | [<- | Hin]].
      * rewrite (Hbefore n Hin) in Hmatch. discriminate.
      * lia.
      * clear - Hsorted Hin. induction before as [ | b before IH ].
        -- simpl in Hsorted. apply StronglySorted_inv in Hsorted.
           destruct Hsorted as [_ Hall]. rewrite Forall_forall in Hall.
           now apply Hall.
        -- simpl in Hsorted. apply StronglySorted_inv in Hsorted.
           now apply IH.
  - intros n Hin Hmatch.
    destruct (longest_prefix_match (load_participants names) text)
      as [[name | ] rest] eqn:Hm; [ now exists name, rest | ].
    destruct (Hn rest eq_refl) as [_ Hnone].
    apply (Permutation_in _ (Permutation_sym Hperm)) in Hin.
    rewrite (Hnone n Hin) in Hmatch. discriminate.
Qed.

Lemma find_snoc {A : Type} (f : A -> bool) (l : list A) (a : A) :
  find f l = None -> find f (l ++ [a]) = if f a then Some a else None.
Proof.
  induction l as [ | b l IH ]; simpl; [ reflexivity | ].
  destruct (f b); [ discriminate | exact IH ].
Qed.

Lemma existsb_find {A : Type} (f : A -> bool) (l : list A) :
  existsb f l = false -> find f l = None.
Proof.
  induction l as [ | b l IH ]; simpl; [ reflexivity | ].
  destruct (f b); [ discriminate | exact IH ].
Qed.

Lemma existsb_find_some {A : Type} (f : A -> bool) (l : list A) :
  existsb f l = true -> exists r, find f l = Some r.
Proof.
  induction l as [ | b l IH ]; simpl; [ discriminate | ].
  destruct (f b); [ intros _; now exists b | exact IH ].
Qed.

(** X28.  [get_or_create_participant] on a table whose names are
    distinct returns an id (it never fails on [row[0]]), and afterwards the
    table has a row with that id and the name, its names are still
    distinct, its earlier rows are unchanged with at most one row added at
    the end, table [conversations] is untouched, and asking again for the
    same name returns the same id and changes nothing. *)
Theorem get_or_create_participant_idempotent (db : ChatDb) (name : str) :
  NoDup (map p_name (participants db)) ->
  exists id new,
    snd (get_or_create_participant db name) = Ok id
    /\ participants (fst (get_or_create_participant db name))
       = participants db ++ new
    /\ (List.length new <= 1)%nat
    /\ In {| p_id := id; p_name := name |}
          (participants (fst (get_or_create_participant db name)))
    /\ NoDup (map p_name
                (participants (fst (get_or_create_participant db name))))
    /\ conversations (fst (get_or_create_participant db name))
       = conversations db
    /\ get_or_create_participant
         (fst (get_or_create_participant db name)) name
       = (fst (get_or_create_participant db name), Ok id).
Proof.
  intro Hnd. unfold get_or_create_participant.
  destruct (existsb (fun r => str_eqb (p_name r) name) (participants db))
    eqn:Hex.
  - destruct (existsb_find_some _ _ Hex) as [r Hr].
    unfold select_participant. rewrite Hr. simpl.
    exists (p_id r), []. rewrite app_nil_r, Hex.
    unfold select_participant. rewrite Hr. simpl.
    apply find_some in Hr. destruct Hr as [Hin Hname].
    apply str_eqb_spec in Hname. subst name.
    repeat split; auto. now destruct r.
  - set (row := {| p_id := next_rowid (map p_id (participants db));
                   p_name := name |}).
    assert (Hself : str_eqb name name = true) by now apply str_eqb_spec.
    assert (Hfind : find (fun r => str_eqb (p_name r) name)
                      (participants db ++ [row]) = Some row).
    { rewrite find_snoc by now apply existsb_find. simpl. now rewrite Hself. }
    unfold select_participant. simpl. rewrite Hfind. simpl.
    exists (p_id row), [row].
    assert (Hex' : existsb (fun r => str_eqb (p_name r) name)
                     (participants db ++ [row]) = true).
    { rewrite existsb_app. simpl. now rewrite Hself, orb_true_r. }
    rewrite Hex'. unfold select_participant. simpl. rewrite Hfind. simpl.
    repeat split; auto.
    + apply in_or_app. right. now left.
    + rewrite map_app. simpl.
      eapply Permutation_NoDup; [ apply Permutation_cons_append | ].
      constructor; [ | exact Hnd ].
      * intro Hin. apply in_map_iff in Hin. destruct Hin as (r & Hn & Hin).
        assert (E : existsb (fun r => str_eqb (p_name r) name)
                      (participants db) = true).
        { apply existsb_exists. exists r. split; [ exact Hin | ].
          now apply str_eqb_spec. }
        congruence.
Qed.

(** X29.  [get_or_create_conversation] returns an id whose row carries
    the title; it adds a row, at the end, only when no row had the title,
    never touches table [participants], and asking again for the same
    title returns the same id and changes nothing. *)
Theorem get_or_create_conversation_idempotent (db : ChatDb) (title : str) :
  exists id new,
    snd (get_or_create_conversation db title) = Ok id
    /\ conversations (fst (get_or_create_conversation db title))
       = conversations db ++ new
    /\ (new = []
        \/ (new = [{| c_id := id; c_title := title |}]
            /\ forall r, In r (conversations db) -> c_title r <> title))
    /\ In {| c_id := id; c_title := title |}
          (conversations (fst (get_or_create_conversation db title)))
    /\ participants (fst (get_or_create_conversation db title))
       = participants db
    /\ get_or_create_conversation
         (fst (get_or_create_conversation db title)) title
       = (fst (get_or_create_conversation db title), Ok id).
Proof.
  unfold get_or_create_conversation, select_conversation.
  destruct (find (fun r => str_eqb (c_title r) title) (conversations db))
    as [r | ] eqn:Hr; cbn [fst snd conversations participants option_map].
  - exists (c_id r), []. rewrite app_nil_r, Hr. simpl.
    apply find_some in Hr. destruct Hr as [Hin Ht].
    apply str_eqb_spec in Ht. subst title.
    repeat split; auto. now destruct r.
  - set (row := {| c_id := next_rowid (map c_id (conversations db));
                   c_title := title |}).
    assert (Hself : str_eqb title title = true) by now apply str_eqb_spec.
    assert (Hfind : find (fun r => str_eqb (c_title r) title)
                      (conversations db ++ [row]) = Some row).
    { rewrite find_snoc by exact Hr. simpl. now rewrite Hself. }
    exists (c_id row), [row].
    rewrite Hfind. simpl. repeat split; auto.
    + right. split; [ reflexivity | ].
      intros r Hin E. apply (find_none _ _ Hr) in Hin.
      apply str_eqb_spec in E. congruence.
    + apply in_or_app. right. now left.
Qed.

End LineChatFacts.

(** * Instances of the further properties *)

Lemma uia_find_best_sound_witness :
  In submit_button_left demo_walk
  /\ c_ControlTypeName submit_button_left = Some "ButtonControl".
Proof.
  destruct (proj1 (uia_find_best_sound exact_ratio demo_walk "Submit"
                     (Some "ButtonControl"))
              submit_button_left (100 # 1) eq_refl)
    as (Hin & _ & _ & _ & Htype).
  split; [ exact Hin | ].
  apply (Htype "ButtonControl" eq_refl). discriminate.
Defined.

Lemma ocr_find_best_first_maximum_witness :
  exists i b,
    nth_error (ocr_boxes (Some (noise_rows ++ [submit_row; submit_row]))) i
    = Some b
    /\ ocr_find_best exact_ratio
         (Some (noise_rows ++ [submit_row; submit_row])) "Submit"
       = (Some b, ocr_score exact_ratio "Submit" b)
    /\ forall j b', (j < i)%nat ->
         nth_error (ocr_boxes (Some (noise_rows ++ [submit_row; submit_row])))
           j = Some b' ->
         (ocr_score exact_ratio "Submit" b'
          < ocr_score exact_ratio "Submit" b)%Q.
Proof.
  destruct (ocr_find_best_first_maximum exact_ratio
              (Some (noise_rows ++ [submit_row; submit_row])) "Submit"
              exact_ratio_range ltac:(discriminate))
    as (i & b & Hi & Hbest & _ & Hfirst).
  now exists i, b.
Defined.

Lemma ocr_find_best_source_line_witness :
  exists r q,
    In r [submit_row] /\ o_conf r = ConfNum q /\ (40 <= q)%Q
    /\ b_text submit_box <> "".
Proof.
  destruct (ocr_find_best_source_line exact_ratio (Some [submit_row])
              "Submit" submit_box (100 # 1) eq_refl)
    as (rows & r & q & Hdata & Hin & _ & Hne & Hcell & _ & Hq & _).
  injection Hdata as <-. now exists r, q.
Defined.

Lemma center_of_bbox_inside_witness :
  exists cx cy,
    center_of_bbox (Some [-40; 10; 40; 50]) = Ok (Some (cx, cy))
    /\ -40 <= cx <= 40 /\ 10 <= cy <= 50.
Proof.
  apply center_of_bbox_inside; unfold exact_float_limit; lia.
Defined.

Lemma center_of_bbox_edges_witness :
  center_of_bbox (Some [100; 200; 80; 30; 7]) = Ok (Some (140, 215))
  /\ center_of_bbox (Some [100; 200; 80]) = Raise IndexError.
Proof.
  split.
  - exact (proj2 (proj2 (proj2 (center_of_bbox_edges [100; 200; 80; 30; 7])))
             100 200 80 30 7 [] eq_refl).
  - apply (proj2 (proj1 (proj2 (proj2 (center_of_bbox_edges [100; 200; 80]))))).
    simpl. lia.
Defined.

Lemma uia_hit_wins_over_ocr_witness :
  exec_step exact_ratio
    {| walk := demo_walk; ocr_data := Some [submit_row] |} submit_step
  = Ok (UiaClick "Submit" (100 # 1) 140 215).
Proof.
  exact (uia_hit_wins_over_ocr exact_ratio
           {| walk := demo_walk; ocr_data := None |} submit_step
           submit_button_left (100 # 1) (100, 200, 180, 230) 140 215
           eq_refl eq_refl eq_refl eq_refl eq_refl
           ltac:(discriminate) ltac:(discriminate) (Some [submit_row])).
Defined.

Lemma click_falls_back_to_recorded_position_witness :
  exec_step exact_ratio {| walk := demo_walk; ocr_data := Some [submit_row] |}
    bare_click_step
  = Ok (FallbackClick 7 9)
  /\ exec_step exact_ratio blank_screen submit_step
     = Ok (FallbackClick 100 205).
Proof.
  split.
  - exact (click_falls_back_to_recorded_position exact_ratio
             {| walk := demo_walk; ocr_data := Some [submit_row] |}
             bare_click_step eq_refl (or_introl eq_refl)).
  - exact (click_falls_back_to_recorded_position exact_ratio blank_screen
             submit_step eq_refl (or_intror (conj eq_refl eq_refl))).
Defined.

Lemma click_lands_on_its_match_witness :
  exists r,
    In r [submit_row]
    /\ o_left r <= 140 <= o_left r + o_width r
    /\ o_top r <= 215 <= o_top r + o_height r.
Proof.
  destruct (proj1 (click_lands_on_its_match exact_ratio
                     {| walk := []; ocr_data := Some [submit_row] |}
                     submit_step "Submit" (100 # 1) 140 215) eq_refl)
    as (rows & r & Hdata & Hin & _ & Hx & Hy).
  injection Hdata as <-. exists r.
  split; [ exact Hin | ].
  destruct Hin as [<- | []]. split; [ apply Hx | apply Hy ]; simpl; lia.
Defined.

Lemma training_has_open_session_witness :
  exists row,
    steps (conn (on_click 3 4 true "data/snaps/click_2.jpg" None
                   (after [HotkeyTrain "t0"])))
    = steps (conn (after [HotkeyTrain "t0"])) ++ [row]
    /\ x row = Some 3 /\ y row = Some 4.
Proof.
  destruct (proj2 (proj2 (training_has_open_session [HotkeyTrain "t0"]))
              eq_refl 3 4 "data/snaps/click_2.jpg" None)
    as (row & Hsteps & _ & Hx & Hy & _).
  now exists row.
Defined.

Lemma recorded_rows_well_formed_witness :
  recorded_ok demo_click_row /\ recorded_ok demo_type_row.
Proof.
  split; apply (recorded_rows_well_formed demo_history).
  - left. reflexivity.
  - right. left. reflexivity.
Defined.

Lemma recorded_session_always_resolves_witness :
  injects (FallbackClick 10 20) = true
  /\ (action_type demo_type_row = "type" ->
      exists t, text demo_type_row = Some t /\ TypeText "hi" = TypeText t).
Proof.
  split.
  - apply (recorded_session_always_resolves exact_ratio demo_history 1
             (fun _ => blank_screen) (quick_turn ++ quick_turn)
             demo_click_row (FallbackClick 10 20)).
    left. reflexivity.
  - apply (recorded_session_always_resolves exact_ratio demo_history 1
             (fun _ => blank_screen) (quick_turn ++ quick_turn)
             demo_type_row (TypeText "hi")).
    right. left. reflexivity.
Defined.

Lemma nothing_to_run_iff_no_rows_witness :
  run_session exact_ratio shuffled_db 7 (fun _ => blank_screen) [st_stopping]
  = ([], NothingToRun)
  /\ steps_of 7 (conn (after demo_history)) = [].
Proof.
  split.
  - apply (proj1 (nothing_to_run_iff_no_rows exact_ratio shuffled_db 7
                    (fun _ => blank_screen) [st_stopping])).
    reflexivity.
  - apply (proj2 (nothing_to_run_iff_no_rows exact_ratio
                    (conn (after demo_history)) 7
                    (fun _ => blank_screen) [])).
    reflexivity.
Defined.

Lemma replay_stays_in_session_witness :
  In hello_step (steps shuffled_db) /\ session_id hello_step = 1.
Proof.
  apply (proj1 (replay_stays_in_session exact_ratio shuffled_db 1
                  (fun _ => blank_screen) (quick_turn ++ paused_turn))).
  right. left. reflexivity.
Defined.

Lemma replay_follows_recording_order_witness :
  visited (run_session exact_ratio (conn (after demo_history)) 1
             (fun _ => blank_screen) (quick_turn ++ paused_turn))
  = [demo_click_row; demo_type_row].
Proof.
  exact (proj2 (replay_follows_recording_order exact_ratio demo_history 1
                  (fun _ => blank_screen))
           [quick_turn; paused_turn] []
           (Forall_cons _ quick_turn_is_turn
              (Forall_cons _ paused_turn_is_turn (Forall_nil _)))
           eq_refl).
Defined.

Lemma do_run_replays_last_session_witness :
  threads (do_run (after demo_history)) = [1]
  /\ threads (do_run (after [HotkeyTrain "t0"])) = [].
Proof.
  destruct (do_run_replays_last_session demo_history)
    as (_ & _ & _ & Hstart & _).
  destruct (do_run_replays_last_session [HotkeyTrain "t0"])
    as (_ & _ & _ & _ & Hrefuse).
  split.
  - exact (Hstart eq_refl eq_refl []
             {| sess_id := 1; ts := "t0"; sess_name := None |} eq_refl).
  - exact (proj1 (Hrefuse (or_introl eq_refl))).
Defined.

Lemma stop_flag_is_sticky_witness :
  stopping (STATE (fold_left handle
                     [HotkeyPause; HotkeyTrain "t2"; RunnerBegin 1; RunnerEnd]
                     (do_stop training_system))) = true.
Proof.
  apply (stop_flag_is_sticky exact_ratio training_system
           [HotkeyPause; HotkeyTrain "t2"; RunnerBegin 1; RunnerEnd]).
  simpl. intuition discriminate.
Defined.

Lemma release_commits_typed_text_witness :
  buffer_typed
    (recorder (fold_left handle
                 (map KeyPress [KeyCode (Some "h"%char); KeySpace; KeyOther]
                  ++ [KeyRelease KeyTab "data/snaps/type_2.jpg"])
                 typing_system)) = []
  /\ map text
       (steps (conn (fold_left handle
                       (map KeyPress
                          [KeyCode (Some "h"%char); KeySpace; KeyOther]
                        ++ [KeyRelease KeyTab "data/snaps/type_2.jpg"])
                       typing_system)))
     = [Some "ah"].
Proof.
  destruct (release_commits_typed_text typing_system
              [KeyCode (Some "h"%char); KeySpace; KeyOther] KeyTab
              "data/snaps/type_2.jpg" 1 eq_refl eq_refl (or_intror eq_refl))
    as (Hbuf & Hrow & _).
  split; [ exact Hbuf | ].
  rewrite Hrow; [ reflexivity | discriminate ].
Defined.

Lemma typed_text_round_trip_witness :
  exists row,
    steps (conn (fold_left handle
                   (map KeyPress
                      (map (fun c => KeyCode (Some c)) ["h"; "i"]%char
                       ++ [KeyEnter])
                    ++ [KeyRelease KeyEnter "data/snaps/type_1.jpg"])
                   training_system))
    = steps (conn training_system) ++ [row]
    /\ text row = Some "hi"
    /\ exec_step exact_ratio blank_screen row = Ok (TypeText "hi").
Proof.
  destruct (typed_text_round_trip exact_ratio training_system "h"%char
              ["i"%char] "data/snaps/type_1.jpg" 1
              eq_refl eq_refl eq_refl eq_refl eq_refl)
    as (row & Hsteps & Htext & _ & Hexec).
  exists row. split; [ exact Hsteps | split; [ exact Htext | apply Hexec ] ].
Defined.

Lemma typed_buffer_survives_mode_changes_witness :
  buffer_typed (recorder (handle typing_system (HotkeyTrain "t1")))
  = ["a"%char].
Proof.
  apply (typed_buffer_survives_mode_changes typing_system (HotkeyTrain "t1"));
    discriminate.
Defined.

Lemma buffer_stays_below_1000_witness :
  EventRecorder.events_buffer
    (EventRecorder.after EventRecorder.never_too_soon
       [EventRecorder.Click 1 2 "left" true (6 # 1) EventRecorder.IoOk])
  = [].
Proof.
  apply (proj2 (EventRecorderFacts.buffer_stays_below_1000
                  EventRecorder.never_too_soon
                  [EventRecorder.Click 1 2 "left" true (6 # 1)
                     EventRecorder.IoOk])).
  reflexivity.
Defined.

Lemma events_tagged_with_their_session_witness :
  (exists t,
     EventRecorder.session
       (EventRecorder.after EventRecorder.never_too_soon
          EventRecorder.demo_inputs) = Some t)
  /\ EventRecorder.well_formed
       {| EventRecorder.timestamp := 7 # 1;
          EventRecorder.session_id := Some 5;
          EventRecorder.event_type := EventRecorder.MOUSE_SCROLL;
          EventRecorder.payload := EventRecorder.ScrollAt 1 2 1 0 "down" |}.
Proof.
  destruct (EventRecorderFacts.events_tagged_with_their_session
              EventRecorder.never_too_soon EventRecorder.demo_inputs)
    as (Hopen & Hbuf & _).
  split; [ now apply Hopen | ].
  apply Hbuf. right. left. reflexivity.
Defined.

Lemma save_event_keeps_or_loses_witness :
  EventRecorder.stored
    (EventRecorder.save_event EventRecorder.IoFailWrite
       {| EventRecorder.timestamp := 8 # 1;
          EventRecorder.session_id := Some 5;
          EventRecorder.event_type := EventRecorder.MOUSE_MOVE;
          EventRecorder.payload := EventRecorder.MoveAt 3 4 |}
       (EventRecorder.after EventRecorder.never_too_soon
          EventRecorder.demo_inputs))
  = EventRecorder.stored
      (EventRecorder.after EventRecorder.never_too_soon
         EventRecorder.demo_inputs)
    ++ [{| EventRecorder.timestamp := 8 # 1;
           EventRecorder.session_id := Some 5;
           EventRecorder.event_type := EventRecorder.MOUSE_MOVE;
           EventRecorder.payload := EventRecorder.MoveAt 3 4 |}].
Proof.
  apply (proj1 (EventRecorderFacts.save_event_keeps_or_loses
                  EventRecorder.IoFailWrite _
                  (EventRecorder.after EventRecorder.never_too_soon
                     EventRecorder.demo_inputs))).
  - discriminate.
  - right. simpl. lia.
Defined.

Lemma end_session_writes_everything_witness :
  List.length
    (EventRecorder.file_events
       (EventRecorder.files
          (EventRecorder.end_session EventRecorder.IoOk (9 # 1)
             "1970-01-01T00:00:09" true
             (EventRecorder.after EventRecorder.never_too_soon
                EventRecorder.demo_inputs))
          (Some 5)))
  = 2%nat.
Proof.
  destruct (EventRecorderFacts.end_session_writes_everything (9 # 1)
              "1970-01-01T00:00:09" true
              (EventRecorder.after EventRecorder.never_too_soon
                 EventRecorder.demo_inputs)
              5 eq_refl ltac:(discriminate)) as (Hfile & _).
  rewrite Hfile. reflexivity.
Defined.

Lemma longest_prefix_match_sound_witness :
  LineChat.demo_line = [65] ++ LineChat.space :: [66; 32; 67]
  /\ LineChat.longest_prefix_match [[66]; [67]] LineChat.demo_line
     = (None, LineChat.demo_line).
Proof.
  split.
  - exact (proj1 (proj1 (LineChatFacts.longest_prefix_match_sound
                           LineChat.demo_names LineChat.demo_line)
                    [65] [66; 32; 67] eq_refl)).
  - destruct (proj2 (LineChatFacts.longest_prefix_match_sound
                       [[66]; [67]] LineChat.demo_line)
                LineChat.demo_line eq_refl) as [_ _].
    reflexivity.
Defined.

Lemma match_picks_longest_participant_witness :
  In [65; 32; 66] LineChat.demo_names
  /\ LineChat.demo_line = [65; 32; 66] ++ LineChat.space :: [67]
  /\ (List.length [65] <= List.length [65; 32; 66])%nat.
Proof.
  destruct (LineChatFacts.match_picks_longest_participant
              LineChat.demo_names LineChat.demo_line)
    as (_ & _ & Hsome & _).
  destruct (Hsome [65; 32; 66] [67] eq_refl) as (Hin & Htext & Hlongest).
  split; [ exact Hin | split; [ exact Htext | ] ].
  apply (Hlongest [65]); [ now left | reflexivity ].
Defined.

Lemma get_or_create_participant_idempotent_witness :
  exists id new,
    snd (LineChat.get_or_create_participant LineChat.demo_chat_db [66])
    = Ok id
    /\ LineChat.participants
         (fst (LineChat.get_or_create_participant LineChat.demo_chat_db [66]))
       = LineChat.participants LineChat.demo_chat_db ++ new
    /\ LineChat.get_or_create_participant
         (fst (LineChat.get_or_create_participant LineChat.demo_chat_db [66]))
         [66]
       = (fst (LineChat.get_or_create_participant LineChat.demo_chat_db [66]),
          Ok id).
Proof.
  destruct (LineChatFacts.get_or_create_participant_idempotent
              LineChat.demo_chat_db [66])
    as (id & new & Hid & Hrows & _ & _ & _ & _ & Hagain).
  - simpl. constructor; [ intros [] | constructor ].
  - now exists id, new.
Defined.
